(** * mcp-sqlify: the WikiSQL data manager, schema loader and SQL generator

  A shallow embedding of the Python sources
    - [src/data_manager/sqlite_converter.py]  (class [SQLiteConverter]),
    - [src/schema_loader/wikisql_loader.py]   (class [WikiSQLSchemaLoader]),
    - [src/data_manager/wikisql_dataset.py]   (class [WikiSQLDataset]),
    - [src/agent/core.py]                     (class [SQLGenerator]),
  followed by the properties of these functions.

  Python [str] values are modelled as Rocq byte strings (the UTF-8 encoding
  of the text); Python dictionaries with a fixed set of keys as records,
  keys whose presence the code tests as [option] fields; exceptions as the
  left summand of a result type. *)

From Stdlib Require Import ZArith Ascii String List Lia.
From Stdlib Require Import DecimalString DecimalPos DecimalZ.
From stdpp Require Import base option list gmap strings.

Local Open Scope Z_scope.

(** ** Python strings *)

Module PyStr.

Definition chr (n : nat) : string := String (ascii_of_nat n) "".

(** The two characters that cannot be written inside a literal. *)
Definition dq : string := chr 34.
Definition nl : string := chr 10.
Definition sq : string := "'".

(** [str.lower] on the ASCII letters.  Bytes above 127 are left alone; no
    non-ASCII letter lowers to one of the letters of the four type tags,
    so comparisons with those tags agree with Python.  Elsewhere [lower] is
    Python's on strings in ASCII, and the properties of searching and of
    query comparison are stated for such strings. *)
Definition lower_ascii (c : ascii) : ascii :=
  let n := nat_of_ascii c in
  if ((65 <=? n) && (n <=? 90))%nat then ascii_of_nat (n + 32) else c.

Fixpoint lower (s : string) : string :=
  match s with
  | EmptyString => EmptyString
  | String c s' => String (lower_ascii c) (lower s')
  end.

(** [sep.join(parts)]. *)
Definition join (sep : string) (parts : list string) : string :=
  String.concat sep parts.

(** [s.startswith(p)]. *)
Definition startswith (s p : string) : bool := String.prefix p s.

(** [str.replace(old, new)]: scan from the left; at a match emit [new] and
    skip the [len(old)] matched characters, otherwise copy one character.
    [skip] counts the characters of the current match still to be dropped. *)
Fixpoint replace_go (old new : string) (skip : nat) (s : string) : string :=
  match s with
  | EmptyString => EmptyString
  | String c s' =>
      match skip with
      | S k => replace_go old new k s'
      | O =>
          if String.prefix old s
          then new +:+ replace_go old new (String.length old - 1) s'
          else String c (replace_go old new 0 s')
      end
  end.

(** With an empty [old], Python puts [new] around every character. *)
Fixpoint interleave (new s : string) : string :=
  match s with
  | EmptyString => new
  | String c s' => new +:+ String c (interleave new s')
  end.

Definition replace (s old new : string) : string :=
  match old with
  | EmptyString => interleave new s
  | String _ _ => replace_go old new 0 s
  end.

(** [str(n)] for an [int]. *)
Definition str_of_Z (z : Z) : string := NilZero.string_of_int (Z.to_int z).

(** Whitespace in the sense of [str.split()] and [str.strip()], in the
    ASCII range.  Python also takes the white space outside ASCII (U+0085,
    U+00A0, U+2003 and others) as separators: [split] and [strip] below are
    Python's on strings in ASCII, and the properties that depend on them
    are stated for such strings. *)
Definition isspace (c : ascii) : bool :=
  let n := nat_of_ascii c in
  (((9 <=? n) && (n <=? 13)) || ((28 <=? n) && (n <=? 32)))%nat.

(** [s.split()]: maximal runs of non-whitespace characters, in order.
    [cur] holds the characters of the current run, last one first. *)
Fixpoint split_go (cur : option string) (s : string) : list string :=
  match s with
  | EmptyString =>
      match cur with Some w => [String.rev w] | None => [] end
  | String c s' =>
      if isspace c
      then match cur with
           | Some w => String.rev w :: split_go None s'
           | None => split_go None s'
           end
      else split_go (Some (String c (default EmptyString cur))) s'
  end.

Definition split (s : string) : list string := split_go None s.

(** [repr(s)] for a string: quote selection and backslash escapes.  Python
    writes the other non-printable characters as escape sequences too;
    [repr] below is Python's on strings of printable ASCII characters, tab,
    newline and carriage return. *)
Fixpoint contains_char (c : ascii) (s : string) : bool :=
  match s with
  | EmptyString => false
  | String d s' => if Ascii.eqb c d then true else contains_char c s'
  end.

Fixpoint escape (q : ascii) (s : string) : string :=
  match s with
  | EmptyString => EmptyString
  | String c s' =>
      let rest := escape q s' in
      if Ascii.eqb c "\" then "\\" +:+ rest
      else if Ascii.eqb c q then String "\" (String q rest)
      else if Ascii.eqb c (ascii_of_nat 10) then "\n" +:+ rest
      else if Ascii.eqb c (ascii_of_nat 13) then "\r" +:+ rest
      else if Ascii.eqb c (ascii_of_nat 9) then "\t" +:+ rest
      else String c rest
  end.

Definition repr (s : string) : string :=
  let q := if contains_char "'" s && negb (contains_char (ascii_of_nat 34) s)
           then ascii_of_nat 34 else "'"%char in
  String q (escape q s) +:+ String q "".

(** [repr] of a list of strings, as [str(list(d.keys()))] prints it. *)
Definition repr_list (l : list string) : string :=
  "[" +:+ join ", " (repr <$> l) +:+ "]".

(** [needle in hay] for two strings: [needle] occurs in [hay]. *)
Fixpoint contains_str (needle hay : string) : bool :=
  match hay with
  | EmptyString => String.prefix needle EmptyString
  | String _ hay' => String.prefix needle hay || contains_str needle hay'
  end.

(** [s.lstrip()], [s.rstrip()] and [s.strip()], with the whitespace of
    [isspace]. *)
Fixpoint lstrip (s : string) : string :=
  match s with
  | EmptyString => EmptyString
  | String c s' => if isspace c then lstrip s' else s
  end.

Fixpoint rstrip (s : string) : string :=
  match s with
  | EmptyString => EmptyString
  | String c s' =>
      match rstrip s' with
      | EmptyString => if isspace c then EmptyString else String c EmptyString
      | r => String c r
      end
  end.

Definition strip (s : string) : string := rstrip (lstrip s).

End PyStr.

(** ** Python values and exceptions *)

Module Py.

(** A float is carried by its [repr] and its truncation: floating point
    arithmetic itself is not modelled. *)
Inductive pyfloat :=
| Finite (repr : string) (trunc : Z)
| Inf (negative : bool)
| NaN.

Inductive value :=
| VStr (s : string)
| VNone
| VInt (z : Z)
| VBool (b : bool)
| VFloat (f : pyfloat).

Inductive exn :=
| ValueError (msg : string)
| IndexError (msg : string)
| KeyError (key : string)
| RuntimeError (msg : string)
| OverflowError (msg : string)
| AttributeError (msg : string)
| SqliteError (msg : string)
| OtherError (msg : string).

(** [str(e)]; a [KeyError] prints the [repr] of its key. *)
Definition str_exn (e : exn) : string :=
  match e with
  | ValueError m | IndexError m | RuntimeError m | OverflowError m
  | AttributeError m | SqliteError m | OtherError m => m
  | KeyError k => PyStr.repr k
  end.

Definition result (A : Type) : Type := exn + A.
Definition Ok {A} (a : A) : result A := inr a.
Definition Raise {A} (e : exn) : result A := inl e.

Definition bind {A B} (r : result A) (k : A → result B) : result B :=
  match r with inl e => inl e | inr a => k a end.

(** [try: body  except Exception as e: handler(e)]. *)
Definition try_except {A} (body : result A) (handler : exn → result A)
  : result A :=
  match body with inl e => handler e | inr a => inr a end.

Definition str_float (f : pyfloat) : string :=
  match f with
  | Finite r _ => r
  | Inf false => "inf"
  | Inf true => "-inf"
  | NaN => "nan"
  end.

(** [str(v)]. *)
Definition str (v : value) : string :=
  match v with
  | VStr s => s
  | VNone => "None"
  | VInt z => PyStr.str_of_Z z
  | VBool true => "True"
  | VBool false => "False"
  | VFloat f => str_float f
  end.

(** [int(v)] on the numeric values. *)
Definition int_of_float (f : pyfloat) : result Z :=
  match f with
  | Finite _ t => Ok t
  | Inf _ => Raise (OverflowError "cannot convert float infinity to integer")
  | NaN => Raise (ValueError "cannot convert float NaN to integer")
  end.

(** A computation of a method over an object state [S]: it reads and
    updates the state and returns a value or raises.  The state reached
    when an exception is raised is kept: assignments made before a [raise]
    are not undone. *)
Definition M (S A : Type) : Type := S → result A * S.

Definition ret {S A} (a : A) : M S A := λ st, (Ok a, st).
Definition raise {S A} (e : exn) : M S A := λ st, (Raise e, st).
Definition lift {S A} (r : result A) : M S A := λ st, (r, st).
Definition bindM {S A B} (c : M S A) (k : A → M S B) : M S B :=
  λ st, match c st with
        | (inl e, st') => (inl e, st')
        | (inr a, st') => k a st'
        end.

(** [try: body  except Exception as e: handler(e)] around a method body. *)
Definition try_exceptM {S A} (body : M S A) (handler : exn → M S A) : M S A :=
  λ st, match body st with
        | (inl e, st') => handler e st'
        | (inr a, st') => (inr a, st')
        end.

(** [for x in xs: body(x)]. *)
Fixpoint for_each {S A} (xs : list A) (body : A → M S unit) : M S unit :=
  match xs with
  | [] => ret tt
  | x :: xs' => bindM (body x) (λ _, for_each xs' body)
  end.

(** [with cm: body], for a context manager whose [__exit__] returns [None]:
    [__exit__] runs whether [body] returns or raises, and an exception of
    [body] is raised again after it. *)
Definition with_context {S A} (enter exit_ : M S unit) (body : M S A) : M S A :=
  λ st, match enter st with
        | (inl e, st1) => (inl e, st1)
        | (inr _, st1) =>
            match body st1 with
            | (r, st2) =>
                match exit_ st2 with
                | (inl e, st3) => (inl e, st3)
                | (inr _, st3) => (r, st3)
                end
            end
        end.

(** A [dict] with string keys, in insertion order: [d[k] = v] replaces the
    value of a key that is present and keeps its place, and appends a new
    key. *)
Fixpoint dict_set {V} (k : string) (v : V) (d : list (string * V))
  : list (string * V) :=
  match d with
  | [] => [(k, v)]
  | (k', v') :: d' =>
      if decide (k' = k) then (k, v) :: d' else (k', v') :: dict_set k v d'
  end.

Fixpoint dict_get {V} (d : list (string * V)) (k : string) : option V :=
  match d with
  | [] => None
  | (k', v) :: d' => if decide (k' = k) then Some v else dict_get d' k
  end.

End Py.

Import Py.

Notation "x <~ c1 ;; c2" := (bindM c1 (λ x, c2))
  (at level 100, c1 at next level, right associativity).
Notation "c1 ;;; c2" := (bindM c1 (λ _, c2))
  (at level 100, right associativity).

(** ** The data model: one WikiSQL example *)

(** A table as the dataset provides it, with its three keys.  A table that
    lacks one of them, on which the subscripts of the code raise a
    [KeyError], is not represented. *)
Record Table := {
  header : list string;
  types : list string;
  rows : list (list value)
}.

Record Sql := {
  human_readable : option string;
  table_id : option string
}.

(** Keys read with a subscript and no presence test ([question], [header],
  [types], [rows]) are fields; keys tested with [in] are options. *)
Record Example := {
  ex_id : option value;
  question : string;
  table : option Table;
  sql : option Sql
}.

(** ** [SQLiteConverter] (src/data_manager/sqlite_converter.py) *)

Module SQLiteConverter.

Import PyStr.

(** The class attribute [TYPE_MAP]. *)
Definition TYPE_MAP : gmap string string :=
  <["text" := "TEXT"]> (<["number" := "INTEGER"]>
    (<["real" := "REAL"]> (<["date" := "TEXT"]> ∅))).

(** [TYPE_MAP.get(wikisql_type.lower(), 'TEXT')]. *)
Definition _get_sql_type (wikisql_type : string) : string :=
  default "TEXT" (TYPE_MAP !! lower wikisql_type).

(** [example['table']]: a [KeyError] when the key is absent. *)
Definition get_table (example : Example) : result Table :=
  match table example with
  | Some t => Ok t
  | None => Raise (KeyError "table")
  end.

Definition get_sql (example : Example) : result Sql :=
  match sql example with
  | Some q => Ok q
  | None => Raise (KeyError "sql")
  end.

(** The list [columns] built by the loop of [generate_create_table_sql]:
    [for i, (header, col_type) in enumerate(zip(headers, types))]. *)
Definition column_definitions (headers types : list string) : list string :=
  imap (λ i '(h, col_type),
          let sql_type := _get_sql_type col_type in
          if decide (i = 0%nat ∧ lower col_type = "number")
          then dq +:+ h +:+ dq +:+ " " +:+ sql_type +:+ " PRIMARY KEY"
          else dq +:+ h +:+ dq +:+ " " +:+ sql_type)
       (zip headers types).

Definition generate_create_table_sql (example : Example) (table_name : string)
  : result string :=
  bind (get_table example) (λ t,
    let columns := column_definitions (header t) (types t) in
    Ok ("CREATE TABLE IF NOT EXISTS " +:+ dq +:+ table_name +:+ dq +:+ " ("
          +:+ nl +:+ "  "
          +:+ join ("," +:+ nl +:+ "  ") columns
          +:+ nl +:+ ");")).

(** One value of a row, as the inner loop of [generate_insert_sql] prints it. *)
Definition sql_literal (v : value) : string :=
  match v with
  | VStr s => sq +:+ replace s "'" "''" +:+ sq
  | VNone => "NULL"
  | _ => str v
  end.

Definition insert_statement (headers : list string) (table_name : string)
    (row : list value) : string :=
  let values := sql_literal <$> row in
  let headers_str := join ", " ((λ h, dq +:+ h +:+ dq) <$> headers) in
  let values_str := join ", " values in
  "INSERT INTO " +:+ dq +:+ table_name +:+ dq +:+ " (" +:+ headers_str
    +:+ ") VALUES (" +:+ values_str +:+ ");".

Definition generate_insert_sql (example : Example) (table_name : string)
  : result (list string) :=
  bind (get_table example) (λ t,
    Ok (insert_statement (header t) table_name <$> rows t)).

(** *** The relational store

    SQLite itself is outside the repository.  It is modelled by what the
    three statements of [convert_example] do to the table they name: a
    table is the text of the statement that created it and the rows
    inserted so far, in insertion order. *)

Record TableState := {
  ts_schema : string;
  ts_rows : list (list value)
}.

Abbreviation tables := (gmap string TableState).

(** [disk] is the database file at [db_path]; [conn] is [self.conn], the
    open connection's view of it, if any. *)
Record State := {
  db_path : string;
  disk : tables;
  conn : option tables
}.

Definition set_conn (c : option tables) (st : State) : State :=
  {| db_path := db_path st; disk := disk st; conn := c |}.

Record SqliteInfo := {
  table_name : string;
  info_db_path : string;
  create_sql : string;
  sample_query : string;
  target_sql : option string
}.

Record ConversionResult := {
  raw_data : Example;
  sqlite_info : SqliteInfo
}.

(** [__enter__]: [self.conn = sqlite3.connect(self.db_path)], a new
    connection whether or not one is open. *)
Definition __enter__ : M State unit :=
  λ st, (Ok tt, set_conn (Some (disk st)) st).

(** [__exit__]: [if self.conn: self.conn.close(); self.conn = None]. *)
Definition __exit__ : M State unit :=
  λ st, (Ok tt, set_conn None st).

Section Engine.

(** Python's built-in [hash] on a tuple of strings. *)
Variable hash : list string → Z.

(** The engine's verdict on a CREATE or INSERT statement: it depends on
    the text of the statement and on the current state of the table the
    statement names (syntax, duplicate columns, arity, key constraints). *)
Variable rejects : string → option TableState → bool.

Definition generate_table_name (example : Example) : result string :=
  bind (get_table example) (λ t,
    let headers := header t in
    let keywords := take 3 (split (question example)) in
    Ok ("ex_" +:+ str_of_Z (Z.abs (hash (headers ++ keywords)) `mod` 10000))).

Definition _connect_if_needed : M State unit :=
  λ st, match conn st with
        | None => (Ok tt, set_conn (Some (disk st)) st)
        | Some _ => (Ok tt, st)
        end.

(** [cursor.execute(...)] acts on the connection's view; without a
    connection [self.conn.cursor()] raises. *)
Definition on_conn (f : tables → result tables) : M State unit :=
  λ st, match conn st with
        | None =>
            (Raise (AttributeError
                      "'NoneType' object has no attribute 'cursor'"), st)
        | Some v =>
            match f v with
            | inl e => (inl e, st)
            | inr v' => (Ok tt, set_conn (Some v') st)
            end
        end.

(** [DROP TABLE IF EXISTS "name";].  The store is keyed by the name as it
    is written.  SQLite takes two names that differ only in the case of
    ASCII letters as one, so the statement is the engine's on a store that
    holds no such variant of [name]. *)
Definition exec_drop (name : string) (v : tables) : result tables :=
  Ok (delete name v).

(** [CREATE TABLE IF NOT EXISTS "name" (...);] *)
Definition exec_create (name stmt : string) (v : tables) : result tables :=
  if rejects stmt (v !! name) then Raise (SqliteError stmt)
  else match v !! name with
       | Some _ => Ok v
       | None => Ok (<[name := {| ts_schema := stmt; ts_rows := [] |}]> v)
       end.

(** [INSERT INTO "name" (...) VALUES (...);] carrying [row]. *)
Definition exec_insert (name stmt : string) (row : list value) (v : tables)
  : result tables :=
  if rejects stmt (v !! name) then Raise (SqliteError stmt)
  else match v !! name with
       | None => Raise (SqliteError ("no such table: " +:+ name))
       | Some ts =>
           Ok (<[name := {| ts_schema := ts_schema ts;
                            ts_rows := ts_rows ts ++ [row] |}]> v)
       end.

(** [self.conn.commit()].  In this model the file changes at the commit
    only.  Python's [sqlite3] runs DROP TABLE and CREATE TABLE outside the
    implicit transaction, so after a conversion that raises the real file
    may already have lost the old table: [disk] is the file's content after
    a conversion that returned. *)
Definition commit : M State unit :=
  λ st, match conn st with
        | None =>
            (Raise (AttributeError
                      "'NoneType' object has no attribute 'commit'"), st)
        | Some v =>
            (Ok tt, {| db_path := db_path st; disk := v; conn := Some v |})
        end.

Definition convert_example (example : Example) : M State ConversionResult :=
  _connect_if_needed ;;;
  table_name <~ lift (generate_table_name example) ;;
  create_sql <~ lift (generate_create_table_sql example table_name) ;;
  insert_sqls <~ lift (generate_insert_sql example table_name) ;;
  t <~ lift (get_table example) ;;
  on_conn (exec_drop table_name) ;;;
  on_conn (exec_create table_name create_sql) ;;;
  for_each (zip insert_sqls (rows t))
    (λ '(insert_sql, row), on_conn (exec_insert table_name insert_sql row)) ;;;
  commit ;;;
  let sample_query :=
    "SELECT * FROM " +:+ dq +:+ table_name +:+ dq +:+ " LIMIT 5;" in
  q <~ lift (get_sql example) ;;
  let target_sql :=
    match human_readable q with
    | Some raw_sql => Some (replace raw_sql "table" table_name)
    | None => None
    end in
  path <~ (λ st, (Ok (db_path st), st)) ;;
  ret {| raw_data := example;
         sqlite_info := {| table_name := table_name;
                           info_db_path := path;
                           create_sql := create_sql;
                           sample_query := sample_query;
                           target_sql := target_sql |} |}.

(** [convert_examples]: the loop, stopping at the first exception. *)
Fixpoint convert_examples (examples : list Example)
  : M State (list ConversionResult) :=
  match examples with
  | [] => ret []
  | example :: rest =>
      r <~ convert_example example ;;
      rs <~ convert_examples rest ;;
      ret (r :: rs)
  end.

End Engine.

End SQLiteConverter.

(** ** [WikiSQLSchemaLoader] (src/schema_loader/wikisql_loader.py) *)

Module WikiSQLSchemaLoader.

Import PyStr.

Record ColumnSchema := {
  col_name : string;
  col_type : string;
  not_null : bool;
  is_primary_key : bool
}.

Record ForeignKeyEdge := {
  fk_column : string;
  referenced_table : string;
  referenced_column : string
}.

Record TableSchema := {
  name : string;
  columns : list ColumnSchema;
  foreign_keys : list ForeignKeyEdge
}.

Record SchemaDocument := { tables : list TableSchema }.

(** The loader object: its attribute [self.example]. *)
Record Loader := { example : option Example }.

Definition __init__ (example : option Example) : Loader :=
  {| example := example |}.

(** The local dictionary [type_map] of [_wikisql_type_to_sqlite]. *)
Definition type_map : gmap string string :=
  <["text" := "TEXT"]> (<["number" := "INTEGER"]>
    (<["real" := "REAL"]> (<["date" := "TEXT"]> ∅))).

Definition _wikisql_type_to_sqlite (wikisql_type : string) : string :=
  default "TEXT" (type_map !! lower wikisql_type).

Definition _get_column_info (self : Loader) : result (list ColumnSchema) :=
  match example self with
  | None => Raise (ValueError "無效的 WikiSQL 資料範例或範例缺少表格資訊")
  | Some ex =>
      match table ex with
      | None => Raise (ValueError "無效的 WikiSQL 資料範例或範例缺少表格資訊")
      | Some t =>
          let headers := header t in
          let types := types t in
          Ok (imap (λ i '(h, col_type),
                      let sqlite_type := _wikisql_type_to_sqlite col_type in
                      let is_primary_key :=
                        bool_decide (i = 0%nat ∧ lower col_type = "number") in
                      {| col_name := h;
                         col_type := sqlite_type;
                         not_null := true;
                         is_primary_key := is_primary_key |})
                   (zip headers types))
      end
  end.

Definition load_schema (self : Loader) : result SchemaDocument :=
  match example self with
  | None =>
      Raise (ValueError
        "尚未提供 WikiSQL 資料範例，請使用 load_schema_from_example 方法")
  | Some ex =>
      bind (_get_column_info self) (λ columns,
        let table_name :=
          match sql ex with
          | Some q =>
              match table_id q with
              | Some tid => tid
              | None => "table"
              end
          | None => "table"
          end in
        Ok {| tables := [ {| name := table_name;
                             columns := columns;
                             foreign_keys := [] |} ] |})
  end.

(** [load_schema_from_example] stores the example, then loads. *)
Definition load_schema_from_example (self : Loader) (ex : Example)
  : result SchemaDocument * Loader :=
  let self' := {| example := Some ex |} in
  (load_schema self', self').

End WikiSQLSchemaLoader.

(** ** [WikiSQLDataset] (src/data_manager/wikisql_dataset.py) *)

Module WikiSQLDataset.

Import PyStr.

(** A [DatasetDict]: split names, in the provider's order, with their
    examples. *)
Abbreviation DatasetDict := (list (string * list Example)).

(** [hf_split in dataset_dict] and [dataset_dict[hf_split]]. *)
Fixpoint lookup_split (d : DatasetDict) (k : string) : option (list Example) :=
  match d with
  | [] => None
  | (k', items) :: d' => if decide (k' = k) then Some items else lookup_split d' k
  end.

(** [list(dataset_dict.keys())]. *)
Definition keys (d : DatasetDict) : list string := d.*1.

(** The list objects handed out by [load_split] live in a heap; a
    reference is an index into it, so that two results can be compared for
    identity and not only for content. *)
Definition ref := nat.

Record State := {
  _dataset : option DatasetDict;
  data_cache : gmap string ref;
  heap : list (list Example);
  hub_calls : nat
}.

(** The attributes set by [__init__]. *)
Definition __init__ : State :=
  {| _dataset := None; data_cache := ∅; heap := []; hub_calls := 0 |}.

(** The [id] coercion applied to every example that is handed out:
    [if 'id' in example and isinstance(example['id'], (int, float)):
       example['id'] = str(int(example['id']))].
    [bool] is a subclass of [int]. *)
Definition set_id (ex : Example) (v : value) : Example :=
  {| ex_id := Some v; question := question ex;
     table := table ex; sql := sql ex |}.

Definition normalize_id (ex : Example) : result Example :=
  match ex_id ex with
  | Some (VInt z) => Ok (set_id ex (VStr (str_of_Z z)))
  | Some (VBool b) => Ok (set_id ex (VStr (str_of_Z (if b then 1 else 0))))
  | Some (VFloat f) =>
      bind (int_of_float f) (λ z, Ok (set_id ex (VStr (str_of_Z z))))
  | _ => Ok ex
  end.

(** The loop [for item in split_dataset: ... data.append(example)]. *)
Fixpoint normalize_all (items : list Example) : result (list Example) :=
  match items with
  | [] => Ok []
  | item :: rest =>
      bind (normalize_id item) (λ ex,
        bind (normalize_all rest) (λ data, Ok (ex :: data)))
  end.

(** [f"{limit}"] for an [Optional[int]]. *)
Definition str_limit (limit : option Z) : string :=
  match limit with
  | None => "None"
  | Some n => str_of_Z n
  end.

Definition cache_key (split : string) (limit : option Z) : string :=
  split +:+ "_" +:+ str_limit limit.

Definition hf_split_of (split : string) : string :=
  if decide (split = "dev") then "validation" else split.

Definition invalid_split_message (split hf_split : string) (d : DatasetDict)
  : string :=
  "無效的分割名稱: " +:+ split +:+ " (HF: " +:+ hf_split +:+ ")" +:+ nl
    +:+ "有效的分割為: " +:+ repr_list (keys d).

Definition index_message (split : string) (index : Z) (n : nat) : string :=
  "索引 " +:+ str_of_Z index +:+ " 超出範圍" +:+ nl
    +:+ split +:+ " 資料集有 " +:+ str_of_Z (Z.of_nat n) +:+ " 個範例".

Section Provider.

(** The external [datasets.load_dataset]: the outcome of its [n]-th call
    by this instance. *)
Variable load_dataset : nat → result DatasetDict.

Definition _load_dataset : M State DatasetDict :=
  λ st, match _dataset st with
        | Some d => (Ok d, st)
        | None =>
            let st' := {| _dataset := None; data_cache := data_cache st;
                          heap := heap st; hub_calls := S (hub_calls st) |} in
            match load_dataset (hub_calls st) with
            | inr d =>
                (Ok d, {| _dataset := Some d; data_cache := data_cache st;
                          heap := heap st; hub_calls := S (hub_calls st) |})
            | inl e =>
                (Raise (RuntimeError
                          ("載入 WikiSQL 資料集失敗: " +:+ str_exn e)), st')
            end
        end.

(** [self.data_cache[cache_key] = data; return data] for a new list. *)
Definition store_in_cache (key : string) (data : list Example) : M State ref :=
  λ st, let r := length (heap st) in
        (Ok r, {| _dataset := _dataset st;
                  data_cache := <[key := r]> (data_cache st);
                  heap := heap st ++ [data];
                  hub_calls := hub_calls st |}).

Definition load_split (split : string) (limit : option Z) : M State ref :=
  λ st,
    let key := cache_key split limit in
    match data_cache st !! key with
    | Some r => (Ok r, st)
    | None =>
        let hf_split := hf_split_of split in
        try_exceptM
          (dataset_dict <~ _load_dataset ;;
           match lookup_split dataset_dict hf_split with
           | None =>
               raise (ValueError
                        (invalid_split_message split hf_split dataset_dict))
           | Some split_dataset =>
               let split_dataset :=
                 match limit with
                 | Some n =>
                     take (Z.to_nat (Z.min n (Z.of_nat (length split_dataset))))
                          split_dataset
                 | None => split_dataset
                 end in
               data <~ lift (normalize_all split_dataset) ;;
               store_in_cache key data
           end)
          (λ e, raise (RuntimeError
                         ("載入 " +:+ split +:+ " 分割失敗: " +:+ str_exn e)))
          st
    end.

Definition get_example (split : string) (index : Z) : M State Example :=
  let hf_split := hf_split_of split in
  try_exceptM
    (dataset_dict <~ _load_dataset ;;
     match lookup_split dataset_dict hf_split with
     | None =>
         raise (ValueError
                  (invalid_split_message split hf_split dataset_dict))
     | Some items =>
         if decide (index < 0 ∨ index >= Z.of_nat (length items))
         then raise (IndexError (index_message split index (length items)))
         else
           match items !! Z.to_nat index with
           | Some item => lift (normalize_id item)
           | None => raise (IndexError "list index out of range")
           end
     end)
    (λ e, match e with
          | ValueError _ | IndexError _ => raise e
          | _ => raise (RuntimeError ("取得範例失敗: " +:+ str_exn e))
          end).

(** The attribute [_data_files] of a split of the provider: [None] when the
    attribute is absent, otherwise the file names of its entries. *)
Variable data_files : string → option (list string).

(** The exception of the provider on [dataset[0]] for a split without
    examples. *)
Variable empty_split_error : exn.

(** The outcome of removing the cache directory
    ([datasets.utils.filesystem.rm_tree]). *)
Variable rm_tree : result unit.

(** [keyword.lower() in example['question'].lower()]. *)
Definition filter_fn (keyword : string) (example : Example) : bool :=
  contains_str (lower keyword) (lower (question example)).

Definition search_examples (keyword split : string) (limit : Z)
  : M State (list Example) :=
  try_exceptM
    (let hf_split := hf_split_of split in
     dataset_dict <~ _load_dataset ;;
     match lookup_split dataset_dict hf_split with
     | None =>
         raise (ValueError
                  (invalid_split_message split hf_split dataset_dict))
     | Some split_dataset =>
         let filtered := filter (λ ex, filter_fn keyword ex = true)
                           split_dataset in
         (* the loop stops at the first index [i >= limit] *)
         lift (normalize_all (take (Z.to_nat limit) filtered))
     end)
    (λ e, match e with
          | ValueError _ => raise e
          | _ => raise (RuntimeError ("搜索範例失敗: " +:+ str_exn e))
          end).

(** [dataset_dict[split][0]]. *)
Definition first_item (items : list Example) : result Example :=
  match items with
  | item :: _ => Ok item
  | [] => Raise empty_split_error
  end.

(** The cache file of a split: the first entry of [_data_files], when the
    attribute is present and not empty. *)
Definition cache_file_of (split : string) : option string :=
  match data_files split with
  | Some (file :: _) => Some file
  | _ => None
  end.

Record SplitInfo := {
  examples : nat;
  status : string;
  hf_split : string;
  cache_file : option string
}.

(** The loop of [get_splits_info] over [dataset_dict.keys()]. *)
Fixpoint splits_info_loop (dataset_dict : DatasetDict)
    (info : list (string * SplitInfo)) : list (string * SplitInfo) :=
  match dataset_dict with
  | [] => info
  | (split, items) :: rest =>
      let api_split := if decide (split = "validation") then "dev" else split in
      let status :=
        match first_item items with
        | inr _ => "downloaded"
        | inl _ => "loading_error"
        end in
      splits_info_loop rest
        (dict_set api_split
           {| examples := length items; status := status;
              hf_split := split; cache_file := cache_file_of split |} info)
  end.

Definition get_splits_info : M State (list (string * SplitInfo)) :=
  try_exceptM
    (dataset_dict <~ _load_dataset ;;
     ret (splits_info_loop dataset_dict []))
    (λ e, raise (RuntimeError ("獲取資料集資訊失敗: " +:+ str_exn e))).

(** The loop of [download_dataset] over [splits_to_download]; every name
    is a key of [dataset_dict] when the loop is reached. *)
Fixpoint download_loop (dataset_dict : DatasetDict) (splits : list string)
    (results : list (string * string)) : result (list (string * string)) :=
  match splits with
  | [] => Ok results
  | split :: rest =>
      match lookup_split dataset_dict split with
      | None => Raise (KeyError split)
      | Some items =>
          bind (first_item items) (λ _,
            let path := match cache_file_of split with
                        | Some file => file
                        | None => "<內部快取>/" +:+ split
                        end in
            download_loop dataset_dict rest (dict_set split path results))
      end
  end.

Definition invalid_splits_message (invalid : list string) (d : DatasetDict)
  : string :=
  "無效的分割名稱: " +:+ repr_list invalid +:+ nl
    +:+ "有效的分割為: " +:+ repr_list (keys d).

(** [download_dataset(splits, force_redownload)]; [has_data_root] tells
    whether the instance was built with a [data_root]. *)
Definition download_dataset (has_data_root : bool)
    (splits : option (list string)) (force_redownload : bool)
  : M State (list (string * string)) :=
  try_exceptM
    ((if force_redownload && has_data_root
      then
        lift rm_tree ;;;
        (λ st, (Ok tt, {| _dataset := None; data_cache := data_cache st;
                          heap := heap st; hub_calls := hub_calls st |}))
      else ret tt) ;;;
     dataset_dict <~ _load_dataset ;;
     splits_to_download <~
       match splits with
       | None => ret (keys dataset_dict)
       | Some names =>
           let invalid_splits :=
             filter (λ name, lookup_split dataset_dict name = None) names in
           match invalid_splits with
           | [] => ret names
           | _ => raise (ValueError
                           (invalid_splits_message invalid_splits dataset_dict))
           end
       end ;;
     lift (download_loop dataset_dict splits_to_download []))
    (λ e, raise (RuntimeError ("下載 WikiSQL 資料集失敗: " +:+ str_exn e))).

End Provider.

End WikiSQLDataset.

(** ** [SQLGenerator] (src/agent/core.py) *)

Module SQLGenerator.

(** The generator object: its [chain], which sends the formatted prompt to
    the completion service and returns the text or raises. *)
Record Generator := {
  chain_invoke : string → string → result string
}.

(** [__init__], given the module constant [OPENAI_API_KEY] (the
    environment variable, [None] when unset) and the chain built from the
    [llm] argument.  [not OPENAI_API_KEY] holds for [None] and for the
    empty string. *)
Definition __init__ (OPENAI_API_KEY : option string)
    (chain : string → string → result string) : result Generator :=
  match OPENAI_API_KEY with
  | None | Some EmptyString =>
      Raise (ValueError
        "OPENAI_API_KEY is not configured. Please set it in your .env file.")
  | Some _ => Ok {| chain_invoke := chain |}
  end.

Definition generate (self : Generator) (question schema : string)
  : result string :=
  try_except
    (bind (chain_invoke self question schema) (λ sql_query, Ok sql_query))
    (λ e, Ok ("Error generating SQL: " +:+ str_exn e)).

End SQLGenerator.

(** ** [DataManager] (src/data_manager/manager.py) *)

Module DataManager.

(** The manager object: its [dataset] and its [converter]. *)
Record State := {
  dataset : WikiSQLDataset.State;
  converter : SQLiteConverter.State
}.

(** An entry of the lists [load_examples] returns:
    [{'raw_data': ..., 'sqlite_info': ...}], with [None] for [sqlite_info]
    when nothing was converted. *)
Record LoadedExample := {
  le_raw_data : Example;
  le_sqlite_info : option SQLiteConverter.SqliteInfo
}.

(** A method of [self.dataset] or of [self.converter], run on the manager. *)
Definition on_dataset {A} (c : M WikiSQLDataset.State A) : M State A :=
  λ st, let '(r, d) := c (dataset st) in
        (r, {| dataset := d; converter := converter st |}).

Definition on_converter {A} (c : M SQLiteConverter.State A) : M State A :=
  λ st, let '(r, c') := c (converter st) in
        (r, {| dataset := dataset st; converter := c' |}).

(** The list object behind a reference returned by [load_split]. *)
Definition deref (r : WikiSQLDataset.ref) : M State (list Example) :=
  λ st, match WikiSQLDataset.heap (dataset st) !! r with
        | Some examples => (Ok examples, st)
        | None => (Raise (OtherError "dangling reference"), st)
        end.

Definition of_conversion (c : SQLiteConverter.ConversionResult)
  : LoadedExample :=
  {| le_raw_data := SQLiteConverter.raw_data c;
     le_sqlite_info := Some (SQLiteConverter.sqlite_info c) |}.

Section Manager.

Variable load_dataset : nat → result WikiSQLDataset.DatasetDict.
Variable hash : list string → Z.
Variable rejects : string → option SQLiteConverter.TableState → bool.

Definition load_examples (split : string) (limit : option Z)
    (convert_to_sqlite : bool) : M State (list LoadedExample) :=
  r <~ on_dataset (WikiSQLDataset.load_split load_dataset split limit) ;;
  examples <~ deref r ;;
  if convert_to_sqlite
  then
    results <~ on_converter
      (with_context SQLiteConverter.__enter__ SQLiteConverter.__exit__
         (SQLiteConverter.convert_examples hash rejects examples)) ;;
    ret (of_conversion <$> results)
  else
    ret ((λ example, {| le_raw_data := example; le_sqlite_info := None |})
           <$> examples).

Definition get_example_with_conversion (split : string) (index : Z)
  : M State LoadedExample :=
  example <~ on_dataset
    (WikiSQLDataset.get_example load_dataset split index) ;;
  result <~ on_converter
    (with_context SQLiteConverter.__enter__ SQLiteConverter.__exit__
       (SQLiteConverter.convert_example hash rejects example)) ;;
  ret (of_conversion result).

End Manager.

End DataManager.

(** ** The evaluation script (scripts/evaluate.py) *)

Module Evaluate.

Import PyStr.

(** The dictionary [table_data]: its keys ['header'] and ['types'], either
    of which may be absent. *)
Record TableData := {
  td_header : option (list string);
  td_types : option (list string)
}.

(** The local dictionary [type_mapping] of [format_schema]. *)
Definition type_mapping : gmap string string :=
  <["text" := "TEXT"]> (<["real" := "REAL"]> (<["number" := "NUMBER"]> ∅)).

Definition column_def (col_name col_type : string) : string :=
  let sanitized_col_name := dq +:+ col_name +:+ dq in
  let sql_type := default "TEXT" (type_mapping !! col_type) in
  "    " +:+ sanitized_col_name +:+ " " +:+ sql_type.

(** [format_schema(table_data)]; [None] stands for a missing or empty
    [table_data]. *)
Definition format_schema (table_data : option TableData) : string :=
  match table_data with
  | None => "Error: Invalid table data format."
  | Some td =>
      match td_header td, td_types td with
      | Some header, Some types =>
          if decide (length header ≠ length types)
          then "Error: Header and types length mismatch."
          else
            let column_defs :=
              (λ '(col_name, col_type), column_def col_name col_type)
                <$> zip header types in
            "CREATE TABLE table (" +:+ nl
              +:+ join ("," +:+ nl) column_defs +:+ nl +:+ ");"
      | _, _ => "Error: Invalid table data format."
      end
  end.

(** The normal form under which the evaluation loop compares the predicted
    and the gold query:
    [' '.join(sql.lower().replace('\n', ' ').split()).strip()]. *)
Definition normalize_sql (sql : string) : string :=
  strip (join " " (split (replace (lower sql) nl " "))).

(** [normalized_pred == normalized_gold]. *)
Definition is_correct (predicted_sql gold_sql : string) : bool :=
  bool_decide (normalize_sql predicted_sql = normalize_sql gold_sql).

End Evaluate.

(** ** Vocabulary of the specification

  Definitions that follow the words of the specification, to be compared
  with the functions above. *)

Module Spec.

Import PyStr.

(** The fixed type table
    [{text→TEXT, number→INTEGER, real→REAL, date→TEXT, default→TEXT}],
    read case-insensitively. *)
Definition mapped_type (tag : string) : string :=
  let t := lower tag in
  if decide (t = "text") then "TEXT"
  else if decide (t = "number") then "INTEGER"
  else if decide (t = "real") then "REAL"
  else if decide (t = "date") then "TEXT"
  else "TEXT".

(** [sub] occurs in [s]. *)
Definition contains (s sub : string) : Prop :=
  ∃ pre post, s = pre +:+ sub +:+ post.

Definition endswith (s suffix : string) : Prop :=
  ∃ pre, s = pre +:+ suffix.

(** The type tag is [number], case-insensitively. *)
Definition is_number_tag (tag : string) : Prop := lower tag = "number".

(** The last character of a string. *)
Fixpoint last_char (s : string) : option ascii :=
  match s with
  | EmptyString => None
  | String c EmptyString => Some c
  | String _ s' => last_char s'
  end.

(** Every single quote doubled: ['] becomes ['']. *)
Fixpoint double_single_quotes (s : string) : string :=
  match s with
  | EmptyString => EmptyString
  | String c s' =>
      if Ascii.eqb c "'" then String "'" (String "'" (double_single_quotes s'))
      else String c (double_single_quotes s')
  end.

(** The example of the concrete scenario of the specification. *)
Definition scenario_example : Example :=
  {| ex_id := None;
     question := "how many entries have an amount above 100";
     table := Some {| header := ["id"; "name"; "amount"; "date"];
                      types := ["number"; "text"; "real"; "text"];
                      rows := [[VStr "1"; VStr "Alice"; VStr "120.5";
                                VStr "2025-04-01"]] |};
     sql := Some {| human_readable :=
                      Some "SELECT COUNT(id) FROM table WHERE amount > 100";
                    table_id := None |} |}.

(** The columns of the schema of a table, as the specification words them:
    name, mapped type, [not_null] always true, primary key only for index 0
    with a [number] tag. *)
Definition columns_of (t : Table) : list WikiSQLSchemaLoader.ColumnSchema :=
  imap (λ i '(h, ty),
          {| WikiSQLSchemaLoader.col_name := h;
             WikiSQLSchemaLoader.col_type := mapped_type ty;
             WikiSQLSchemaLoader.not_null := true;
             WikiSQLSchemaLoader.is_primary_key := bool_decide (i = 0%nat ∧ is_number_tag ty) |})
       (zip (header t) (types t)).

(** An example whose header is longer than its types. *)
Definition mismatched_example : Example :=
  {| ex_id := None;
     question := "which row";
     table := Some {| header := ["a"; "b"; "c"]; types := ["number"; "text"];
                      rows := [] |};
     sql := None |}.

(** An identifier character: a letter, a digit or an underscore. *)
Definition is_ident_char (c : ascii) : bool :=
  let n := nat_of_ascii c in
  (((48 <=? n) && (n <=? 57)) || ((65 <=? n) && (n <=? 90))
   || ((97 <=? n) && (n <=? 122)) || (n =? 95))%nat.

Definition next_is_ident (k : nat) (s : string) : bool :=
  match String.get k s with
  | Some c => is_ident_char c
  | None => false
  end.

(** Replacement of [word] by [new] only where [word] stands alone: the
    character before it and the character after it, if any, are not
    identifier characters.  [prev] tells whether the character just passed
    is an identifier character. *)
Fixpoint replace_word_go (word new : string) (prev : bool) (skip : nat)
    (s : string) : string :=
  match s with
  | EmptyString => EmptyString
  | String c s' =>
      match skip with
      | S k => replace_word_go word new (is_ident_char c) k s'
      | O =>
          if String.prefix word s && negb prev
             && negb (next_is_ident (String.length word) s)
          then new +:+ replace_word_go word new (is_ident_char c)
                         (String.length word - 1) s'
          else String c (replace_word_go word new (is_ident_char c) 0 s')
      end
  end.

Definition replace_word (s word new : string) : string :=
  replace_word_go word new false 0 s.

(** An example whose query names a column [tablet]. *)
Definition tablet_example : Example :=
  {| ex_id := None;
     question := "which tablet sold most";
     table := Some {| header := ["tablet"; "units"];
                      types := ["text"; "number"];
                      rows := [[VStr "T1"; VStr "7"]] |};
     sql := Some {| human_readable := Some "SELECT tablet FROM table";
                    table_id := None |} |}.

(** A store with no table and no open connection. *)
Definition empty_store : SQLiteConverter.State :=
  {| SQLiteConverter.db_path := "data/wikisql_samples.sqlite";
     SQLiteConverter.disk := ∅;
     SQLiteConverter.conn := None |}.

(** The statements of [convert_example] after the DROP, on the
    connection's view alone: the CREATE, then the INSERTs in order,
    stopping at the first statement the engine rejects. *)
Fixpoint run_inserts (rejects : string → option SQLiteConverter.TableState → bool)
    (name : string) (stmts : list (string * list value))
    (v : gmap string SQLiteConverter.TableState)
  : result unit * gmap string SQLiteConverter.TableState :=
  match stmts with
  | [] => (Ok tt, v)
  | (stmt, row) :: rest =>
      match SQLiteConverter.exec_insert rejects name stmt row v with
      | inl e => (inl e, v)
      | inr v' => run_inserts rejects name rest v'
      end
  end.

Definition fill_table (rejects : string → option SQLiteConverter.TableState → bool)
    (name create : string) (stmts : list (string * list value))
    (v : gmap string SQLiteConverter.TableState)
  : result unit * gmap string SQLiteConverter.TableState :=
  match SQLiteConverter.exec_create rejects name create v with
  | inl e => (inl e, v)
  | inr v' => run_inserts rejects name stmts v'
  end.

(** The engine accepts the statements of a conversion: the CREATE statement
    on a table that does not exist, and every INSERT statement whatever the
    table holds by then. *)
Definition accepted (rejects : string → option SQLiteConverter.TableState → bool)
    (create : string) (inserts : list string) : Prop :=
  rejects create None = false ∧
  ∀ stmt ts, stmt ∈ inserts → rejects stmt (Some ts) = false.

(** The provider's dataset as this instance sees it: already held in
    [_dataset], or returned by the next call of [load_dataset]. *)
Definition available (load_dataset : nat → result WikiSQLDataset.DatasetDict)
    (st : WikiSQLDataset.State) (d : WikiSQLDataset.DatasetDict) : Prop :=
  WikiSQLDataset._dataset st = Some d ∨
  (WikiSQLDataset._dataset st = None ∧
   load_dataset (WikiSQLDataset.hub_calls st) = Ok d).

(** The first [limit] examples of a split; all of them without a limit. *)
Definition limited (limit : option Z) (items : list Example) : list Example :=
  match limit with
  | Some n => take (Z.to_nat (Z.min n (Z.of_nat (length items)))) items
  | None => items
  end.

(** The cache of an instance whose lists were all stored by [load_split]:
    every cached reference points into the heap, two keys never share a
    list object, and the list under the key of [(split, limit)] holds the
    examples of that split, cut at the limit and with their [id] coerced. *)
Record cache_ok (st : WikiSQLDataset.State) : Prop := {
  cache_bound : ∀ k r,
    WikiSQLDataset.data_cache st !! k = Some r →
    (r < length (WikiSQLDataset.heap st))%nat;
  cache_distinct : ∀ k1 k2 r,
    WikiSQLDataset.data_cache st !! k1 = Some r →
    WikiSQLDataset.data_cache st !! k2 = Some r → k1 = k2;
  cache_content : ∀ split limit r,
    WikiSQLDataset.data_cache st !! WikiSQLDataset.cache_key split limit
      = Some r →
    ∃ d items data,
      WikiSQLDataset._dataset st = Some d ∧
      WikiSQLDataset.lookup_split d (WikiSQLDataset.hf_split_of split)
        = Some items ∧
      WikiSQLDataset.normalize_all (limited limit items) = Ok data ∧
      WikiSQLDataset.heap st !! r = Some data
}.

(** A provider with the three usual splits. *)
Definition question_only (q : string) (i : option value) : Example :=
  {| ex_id := i; question := q; table := None; sql := None |}.

Definition three_splits : WikiSQLDataset.DatasetDict :=
  [("train", [question_only "q0" None;
              question_only "q1" (Some (VInt 7));
              question_only "q2" (Some (VFloat (Finite "2.5" 2)))]);
   ("validation", [question_only "v0" None; question_only "v1" None;
                   question_only "v2" None; question_only "v3" None]);
   ("test", [])].

Definition hub (n : nat) : result WikiSQLDataset.DatasetDict := Ok three_splits.

(** A completion service that is down. *)
Definition failing_chain (question schema : string) : result string :=
  Raise (OtherError "Connection error.").

End Spec.

(** ** Further vocabulary

    Notions used to state properties of the functions above. *)

Module Notions.

Import PyStr.

(** Reading a single-quoted SQL string literal: after the opening quote,
    two quotes stand for one quote and a single quote closes the literal.
    [read_quoted] starts after the opening quote and returns the value and
    the text that follows the literal. *)
Fixpoint read_quoted (s : string) : option (string * string) :=
  match s with
  | EmptyString => None
  | String c s' =>
      if Ascii.eqb c "'"
      then match s' with
           | String c' s'' =>
               if Ascii.eqb c' "'"
               then (λ '(v, rest), (String "'" v, rest)) <$> read_quoted s''
               else Some (EmptyString, s')
           | EmptyString => Some (EmptyString, EmptyString)
           end
      else (λ '(v, rest), (String c v, rest)) <$> read_quoted s'
  end.

Definition read_sql_string (s : string) : option (string * string) :=
  match s with
  | String c s' => if Ascii.eqb c "'" then read_quoted s' else None
  | EmptyString => None
  end.

(** The table an example is materialized as. *)
Definition table_of (create : string) (t : Table) : SQLiteConverter.TableState :=
  {| SQLiteConverter.ts_schema := create;
     SQLiteConverter.ts_rows := rows t |}.

(** The connection's view of the store: that of the open connection, or the
    file's content when no connection is open. *)
Definition view (st : SQLiteConverter.State)
  : gmap string SQLiteConverter.TableState :=
  default (SQLiteConverter.disk st) (SQLiteConverter.conn st).

(** The [id] of an example is an [int], a [bool] or a [float]. *)
Definition has_numeric_id (ex : Example) : bool :=
  match ex_id ex with
  | Some (VInt _) | Some (VBool _) | Some (VFloat _) => true
  | _ => false
  end.

(** The name under which [get_splits_info] reports a split of the
    provider. *)
Definition api_split_of (split : string) : string :=
  if decide (split = "validation") then "dev" else split.

(** The entry [get_splits_info] writes for a split. *)
Definition split_report (data_files : string → option (list string))
    (split : string) (items : list Example) : WikiSQLDataset.SplitInfo :=
  {| WikiSQLDataset.examples := length items;
     WikiSQLDataset.status :=
       match items with [] => "loading_error" | _ => "downloaded" end;
     WikiSQLDataset.hf_split := split;
     WikiSQLDataset.cache_file :=
       WikiSQLDataset.cache_file_of data_files split |}.

(** The path [download_dataset] reports for a split. *)
Definition download_path (data_files : string → option (list string))
    (split : string) : string :=
  match WikiSQLDataset.cache_file_of data_files split with
  | Some file => file
  | None => "<內部快取>/" +:+ split
  end.

(** The cache files of a provider: one for the train split, none for the
    others. *)
Definition files (split : string) : option (list string) :=
  if decide (split = "train") then Some ["train.arrow"] else None.

(** The names [download_dataset] goes through: the given ones, or all the
    splits of the provider. *)
Definition requested (d : WikiSQLDataset.DatasetDict) (splits : option (list string))
  : list string :=
  match splits with Some names => names | None => WikiSQLDataset.keys d end.

(** A provider that cannot be reached. *)
Definition offline (n : nat) : result WikiSQLDataset.DatasetDict :=
  Raise (OtherError "offline").

(** An instance that holds the dataset of [Spec.hub]. *)
Definition loaded : WikiSQLDataset.State :=
  (WikiSQLDataset.get_example Spec.hub "train" 0 WikiSQLDataset.__init__).2.

(** Table data that [format_schema] accepts: both keys present, and as
    many types as column names. *)
Definition valid_table_data (table_data : option Evaluate.TableData) : Prop :=
  ∃ header types,
    table_data = Some {| Evaluate.td_header := Some header;
                         Evaluate.td_types := Some types |} ∧
    length header = length types.

(** The type table of [format_schema], read as it is written: the tag is
    compared as it stands, and [number] gives [NUMBER]. *)
Definition script_type (tag : string) : string :=
  if decide (tag = "text") then "TEXT"
  else if decide (tag = "real") then "REAL"
  else if decide (tag = "number") then "NUMBER"
  else "TEXT".

(** A string holds a whitespace character. *)
Fixpoint has_space (s : string) : bool :=
  match s with
  | EmptyString => false
  | String c s' => isspace c || has_space s'
  end.

(** A word: not empty, and without whitespace. *)
Definition word (w : string) : Prop := w ≠ "" ∧ has_space w = false.

(** [s.isascii()]: every character of [s] is below 128.  On such text the
    string functions of [PyStr] are those of Python. *)
Fixpoint is_ascii (s : string) : bool :=
  match s with
  | EmptyString => true
  | String c s' => (nat_of_ascii c <? 128)%nat && is_ascii s'
  end.

(** Every character of [s] is a printable ASCII character (32 to 126): the
    characters [repr] writes as they are, or behind a backslash. *)
Fixpoint printable (s : string) : bool :=
  match s with
  | EmptyString => true
  | String c s' =>
      ((32 <=? nat_of_ascii c) && (nat_of_ascii c <=? 126))%nat && printable s'
  end.


(** A provider whose examples carry tables. *)
Definition shop (n : nat) : result WikiSQLDataset.DatasetDict :=
  Ok [("train", [Spec.tablet_example]);
      ("validation", [Spec.scenario_example; Spec.tablet_example]);
      ("test", [])].

(** A manager that has loaded nothing and converted nothing. *)
Definition fresh_manager : DataManager.State :=
  {| DataManager.dataset := WikiSQLDataset.__init__;
     DataManager.converter := Spec.empty_store |}.

End Notions.

(** * Properties *)

(** ** Strings *)

Section StringFacts.

Import Spec.

(** [String.app] does not unfold under [simpl]; its two equations. *)
Lemma string_app_nil_l (b : string) : "" +:+ b = b.
Proof. reflexivity. Qed.

Lemma string_app_cons (x : ascii) (a b : string) :
  String x a +:+ b = String x (a +:+ b).
Proof. reflexivity. Qed.

Lemma string_app_assoc (a b c : string) : (a +:+ b) +:+ c = a +:+ (b +:+ c).
Proof.
  induction a as [|x a IH]; [done |].
  by rewrite !string_app_cons, IH.
Qed.

Lemma string_app_nil_r (a : string) : a +:+ "" = a.
Proof.
  induction a as [|x a IH]; [done |]. by rewrite string_app_cons, IH.
Qed.

Lemma string_length_app (a b : string) :
  String.length (a +:+ b) = (String.length a + String.length b)%nat.
Proof.
  induction a as [|x a IH]; [done |].
  rewrite string_app_cons. simpl. by rewrite IH.
Qed.

Lemma last_char_app (a b : string) :
  b ≠ "" → last_char (a +:+ b) = last_char b.
Proof.
  intros Hb. induction a as [|x a IH]; [done |].
  rewrite string_app_cons. rewrite <- IH. simpl.
  destruct (a +:+ b) eqn:E; [| done].
  destruct a; [by rewrite string_app_nil_l in E |].
  by rewrite string_app_cons in E.
Qed.

Lemma last_char_app_Some (a b : string) c :
  last_char b = Some c → last_char (a +:+ b) = Some c.
Proof.
  intros Hb. rewrite last_char_app; [done |]. by intros ->.
Qed.

Lemma prefix_app (p s : string) : String.prefix p (p +:+ s) = true.
Proof.
  induction p as [|x p IH]; [by destruct s |].
  rewrite string_app_cons. simpl.
  destruct (ascii_dec x x); [done | congruence].
Qed.

Lemma prefix_nil (s : string) : String.prefix "" s = true.
Proof. by destruct s. Qed.

Lemma prefix_cons (c1 c2 : ascii) (s1 s2 : string) :
  String.prefix (String c1 s1) (String c2 s2) =
    if Ascii.eqb c1 c2 then String.prefix s1 s2 else false.
Proof.
  cbn [String.prefix]. destruct (ascii_dec c1 c2) as [-> | Hne].
  - by rewrite Ascii.eqb_refl.
  - by apply Ascii.eqb_neq in Hne as ->.
Qed.

Lemma prefix_cons_nil (c : ascii) (s : string) :
  String.prefix (String c s) "" = false.
Proof. reflexivity. Qed.

(** The equations of the scanning loop of [replace]. *)
Lemma replace_go_skip old new k c s :
  PyStr.replace_go old new (S k) (String c s) = PyStr.replace_go old new k s.
Proof. reflexivity. Qed.

Lemma replace_go_scan old new c s :
  PyStr.replace_go old new 0 (String c s) =
    if String.prefix old (String c s)
    then new +:+ PyStr.replace_go old new (String.length old - 1) s
    else String c (PyStr.replace_go old new 0 s).
Proof. reflexivity. Qed.

Lemma string_app_eq_nil (a b : string) : a +:+ b = "" → a = "" ∧ b = "".
Proof. destruct a; [by rewrite string_app_nil_l | by rewrite string_app_cons]. Qed.

Lemma prefix_split (p s : string) :
  String.prefix p s = true → ∃ rest, s = p +:+ rest.
Proof.
  revert s. induction p as [| c p IH]; intros s Hp.
  - by exists s.
  - destruct s as [| d s]; [by rewrite prefix_cons_nil in Hp |].
    rewrite prefix_cons in Hp.
    destruct (Ascii.eqb c d) eqn:E; [| done].
    apply Ascii.eqb_eq in E as ->.
    destruct (IH s Hp) as [rest ->]. by exists rest.
Qed.

Lemma join_singleton sep p : PyStr.join sep [p] = p.
Proof. reflexivity. Qed.

Lemma join_cons_cons sep p q l :
  PyStr.join sep (p :: q :: l) = p +:+ sep +:+ PyStr.join sep (q :: l).
Proof. reflexivity. Qed.

(** Prepending a character to the first piece. *)
Lemma join_push sep c p l :
  PyStr.join sep (String c p :: l) = String c (PyStr.join sep (p :: l)).
Proof. destruct l; [done |]. by rewrite !join_cons_cons, string_app_cons. Qed.

Lemma join_head sep p l : ∃ tail, PyStr.join sep (p :: l) = p +:+ tail.
Proof.
  destruct l as [| q l].
  - exists "". by rewrite join_singleton, string_app_nil_r.
  - eexists. apply join_cons_cons.
Qed.

Lemma replace_go_drop old new u rest :
  PyStr.replace_go old new (String.length u) (u +:+ rest)
  = PyStr.replace_go old new 0 rest.
Proof.
  induction u as [| c u IH]; [done |].
  rewrite string_app_cons. cbn [String.length]. by rewrite replace_go_skip.
Qed.

Lemma replace_go_match c old new rest :
  PyStr.replace_go (String c old) new 0 (String c old +:+ rest)
  = new +:+ PyStr.replace_go (String c old) new 0 rest.
Proof.
  rewrite string_app_cons, replace_go_scan.
  rewrite <- string_app_cons, prefix_app.
  cbn [String.length]. rewrite Nat.sub_1_r. cbn [Nat.pred].
  by rewrite replace_go_drop.
Qed.

Lemma not_contains_nil old : old ≠ "" → ¬ contains "" old.
Proof.
  intros Hold (pre & post & E). symmetry in E.
  apply string_app_eq_nil in E as [_ E].
  apply string_app_eq_nil in E as [E _]. done.
Qed.

(** The scan cuts the string at the occurrences of [old]: the pieces
    between them hold no occurrence, the input is the pieces joined by
    [old] and the output the same pieces joined by [new]. *)
Lemma replace_go_pieces old new :
  old ≠ "" →
  ∀ n s, (String.length s ≤ n)%nat →
    ∃ p ps, s = PyStr.join old (p :: ps) ∧
            PyStr.replace_go old new 0 s = PyStr.join new (p :: ps) ∧
            Forall (λ x, ¬ contains x old) (p :: ps).
Proof.
  intros Hold n. induction n as [| n IH]; intros s Hlen.
  - destruct s; [| simpl in Hlen; lia].
    exists "", []. repeat split; [done.. |].
    constructor; [by apply not_contains_nil | constructor].
  - destruct s as [| c s].
    { exists "", []. repeat split; [done.. |].
      constructor; [by apply not_contains_nil | constructor]. }
    destruct (String.prefix old (String c s)) eqn:Hp.
    + destruct (prefix_split _ _ Hp) as [rest Hrest].
      destruct old as [| c0 old]; [done |].
      destruct (IH rest) as (p & ps & Hs & Hr & Hall).
      { apply (f_equal String.length) in Hrest.
        rewrite string_length_app in Hrest. simpl in Hrest, Hlen. lia. }
      exists "", (p :: ps). split; [| split].
      * rewrite join_cons_cons, string_app_nil_l, <- Hs. exact Hrest.
      * rewrite Hrest, replace_go_match, Hr.
        by rewrite join_cons_cons, string_app_nil_l.
      * constructor; [by apply not_contains_nil | done].
    + destruct (IH s) as (p & ps & Hs & Hr & Hall).
      { simpl in Hlen. lia. }
      exists (String c p), ps. split; [| split].
      * by rewrite join_push, <- Hs.
      * by rewrite replace_go_scan, Hp, Hr, join_push.
      * apply Forall_cons in Hall as [Hhead Htail].
        constructor; [| done].
        intros (pre & post & E).
        destruct pre as [| d pre].
        -- rewrite string_app_nil_l in E.
           destruct (join_head old p ps) as [tail Htl].
           rewrite Hs, Htl, <- string_app_cons, E, string_app_assoc in Hp.
           by rewrite prefix_app in Hp.
        -- rewrite string_app_cons in E. injection E as _ E.
           apply Hhead. by exists pre, post.
Qed.

Lemma replace_pieces s old new :
  old ≠ "" →
  ∃ pieces, s = PyStr.join old pieces ∧
            PyStr.replace s old new = PyStr.join new pieces ∧
            Forall (λ x, ¬ contains x old) pieces.
Proof.
  intros Hold.
  destruct (replace_go_pieces old new Hold (String.length s) s)
    as (p & ps & Hs & Hr & Hall); [done |].
  exists (p :: ps). split; [done |]. split; [| done].
  unfold PyStr.replace. by destruct old.
Qed.

End StringFacts.

(** ** The CREATE and INSERT generators *)

Section Generators.

Import PyStr SQLiteConverter Spec.

Lemma get_sql_type_mapped tag : _get_sql_type tag = mapped_type tag.
Proof.
  unfold _get_sql_type, TYPE_MAP, mapped_type. cbv zeta.
  generalize (lower tag). intros t.
  rewrite !lookup_insert, lookup_empty.
  repeat case_decide; subst; try done.
Qed.

Lemma length_column_definitions hs ts :
  length (column_definitions hs ts) = (length hs `min` length ts)%nat.
Proof. unfold column_definitions. by rewrite length_imap, length_zip. Qed.

Lemma lookup_column_definitions hs ts i h ty :
  hs !! i = Some h → ts !! i = Some ty →
  column_definitions hs ts !! i =
    Some (dq +:+ h +:+ dq +:+ " " +:+ mapped_type ty +:+
          (if decide (i = 0%nat ∧ is_number_tag ty) then " PRIMARY KEY" else "")).
Proof.
  intros Hh Ht. unfold column_definitions.
  rewrite list_lookup_imap.
  assert (zip hs ts !! i = Some (h, ty)) as -> by by apply lookup_zip_Some.
  simpl. rewrite get_sql_type_mapped. unfold is_number_tag.
  case_decide; [done |]. by rewrite string_app_nil_r.
Qed.

Lemma mapped_type_cases tag :
  mapped_type tag = "TEXT" ∨ mapped_type tag = "INTEGER" ∨ mapped_type tag = "REAL".
Proof. unfold mapped_type. cbv zeta. repeat case_decide; auto. Qed.

(** A column definition without the key clause does not end in it. *)
Lemma plain_column_not_key h ty :
  ¬ endswith (dq +:+ h +:+ dq +:+ " " +:+ mapped_type ty) " PRIMARY KEY".
Proof.
  intros [pre E]. apply (f_equal last_char) in E.
  rewrite (last_char_app pre) in E by done.
  assert (∃ c, last_char (mapped_type ty) = Some c ∧ c ≠ "Y"%char)
    as (c & Hc & Hne).
  { destruct (mapped_type_cases ty) as [-> | [-> | ->]]; eexists; by split. }
  rewrite (last_char_app_Some dq _ c) in E.
  - simpl in E. congruence.
  - do 3 apply last_char_app_Some. exact Hc.
Qed.

(** C3: with [len(header) == len(types) == N] the CREATE statement starts
    with [CREATE TABLE IF NOT EXISTS] and is built from exactly [N] column
    definitions, in header order; the definition at position [i] holds the
    double-quoted header name followed by the type given by the fixed type
    table, and the definition at position 0 ends in [PRIMARY KEY] exactly
    when its type tag is [number], case-insensitively. *)
Theorem create_table_sql_columns (ex : Example) (t : Table) (name : string)
    (N : nat) :
  table ex = Some t → length (header t) = N → length (types t) = N →
  ∃ sql cols,
    generate_create_table_sql ex name = Ok sql ∧
    startswith sql "CREATE TABLE IF NOT EXISTS" = true ∧
    sql = "CREATE TABLE IF NOT EXISTS " +:+ dq +:+ name +:+ dq +:+ " ("
            +:+ nl +:+ "  " +:+ join ("," +:+ nl +:+ "  ") cols
            +:+ nl +:+ ");" ∧
    length cols = N ∧
    ∀ i h ty, header t !! i = Some h → types t !! i = Some ty →
      ∃ c, cols !! i = Some c ∧
           contains c (dq +:+ h +:+ dq) ∧
           c = dq +:+ h +:+ dq +:+ " " +:+ mapped_type ty +:+
                 (if decide (i = 0%nat ∧ is_number_tag ty)
                  then " PRIMARY KEY" else "") ∧
           (endswith c " PRIMARY KEY" ↔ i = 0%nat ∧ is_number_tag ty).
Proof.
  intros Ht Hh Hty.
  exists ("CREATE TABLE IF NOT EXISTS " +:+ dq +:+ name +:+ dq +:+ " ("
            +:+ nl +:+ "  "
            +:+ join ("," +:+ nl +:+ "  ")
                  (column_definitions (header t) (types t))
            +:+ nl +:+ ");"),
         (column_definitions (header t) (types t)).
  split; [| split; [| split; [| split]]].
  - unfold generate_create_table_sql, get_table. rewrite Ht. reflexivity.
  - unfold startswith.
    change ("CREATE TABLE IF NOT EXISTS " +:+ ?r)
      with ("CREATE TABLE IF NOT EXISTS" +:+ (" " +:+ r)).
    apply prefix_app.
  - reflexivity.
  - rewrite length_column_definitions. lia.
  - intros i h ty Hi Hi'.
    eexists. split; [exact (lookup_column_definitions _ _ i h ty Hi Hi') |].
    split; [| split; [reflexivity |]].
    + exists "", (" " +:+ mapped_type ty +:+
                    (if decide (i = 0%nat ∧ is_number_tag ty)
                     then " PRIMARY KEY" else "")).
      rewrite string_app_nil_l. rewrite !string_app_assoc. reflexivity.
    + case_decide as Hd.
      * split; [intros _; exact Hd |]. intros _.
        exists (dq +:+ h +:+ dq +:+ " " +:+ mapped_type ty).
        rewrite !string_app_assoc. reflexivity.
      * rewrite string_app_nil_r. split; [| tauto].
        intros He. by apply plain_column_not_key in He.
Qed.

Lemma create_table_sql_columns_witness :
  ∃ sql cols,
    generate_create_table_sql scenario_example "t" = Ok sql ∧
    startswith sql "CREATE TABLE IF NOT EXISTS" = true ∧
    sql = "CREATE TABLE IF NOT EXISTS " +:+ dq +:+ "t" +:+ dq +:+ " ("
            +:+ nl +:+ "  " +:+ join ("," +:+ nl +:+ "  ") cols
            +:+ nl +:+ ");" ∧
    length cols = 4%nat ∧
    ∀ i h ty,
      ["id"; "name"; "amount"; "date"] !! i = Some h →
      ["number"; "text"; "real"; "text"] !! i = Some ty →
      ∃ c, cols !! i = Some c ∧
           contains c (dq +:+ h +:+ dq) ∧
           c = dq +:+ h +:+ dq +:+ " " +:+ mapped_type ty +:+
                 (if decide (i = 0%nat ∧ is_number_tag ty)
                  then " PRIMARY KEY" else "") ∧
           (endswith c " PRIMARY KEY" ↔ i = 0%nat ∧ is_number_tag ty).
Proof.
  apply (create_table_sql_columns scenario_example
           {| header := ["id"; "name"; "amount"; "date"];
              types := ["number"; "text"; "real"; "text"];
              rows := [[VStr "1"; VStr "Alice"; VStr "120.5";
                        VStr "2025-04-01"]] |} "t" 4);
    reflexivity.
Defined.

Lemma replace_single_quote s : replace s "'" "''" = double_single_quotes s.
Proof.
  unfold replace.
  induction s as [|c s IH]; [done |].
  rewrite replace_go_scan, prefix_cons, prefix_nil.
  cbn [double_single_quotes]. rewrite (Ascii.eqb_sym c).
  destruct (Ascii.eqb "'" c); cbn [String.length Nat.sub]; by rewrite IH.
Qed.

(** C4: the INSERT generator emits one statement per row, in row order;
    in each, a string value is wrapped in single quotes with its single
    quotes doubled, [None] becomes [NULL] and every other value is printed
    by [str]; on the scenario example the statement is the one the
    specification gives, for every table name. *)
Theorem insert_sql_rows (ex : Example) (t : Table) (name : string) :
  table ex = Some t →
  (∃ stmts,
      generate_insert_sql ex name = Ok stmts ∧
      length stmts = length (rows t) ∧
      ∀ i row, rows t !! i = Some row →
        stmts !! i =
          Some ("INSERT INTO " +:+ dq +:+ name +:+ dq +:+ " ("
                  +:+ join ", " ((λ h, dq +:+ h +:+ dq) <$> header t)
                  +:+ ") VALUES (" +:+ join ", " (sql_literal <$> row)
                  +:+ ");")) ∧
  (∀ s, sql_literal (VStr s) = "'" +:+ double_single_quotes s +:+ "'") ∧
  sql_literal VNone = "NULL" ∧
  (∀ v, (∀ s, v ≠ VStr s) → v ≠ VNone → sql_literal v = str v) ∧
  (∀ name',
      generate_insert_sql scenario_example name' =
        Ok ["INSERT INTO " +:+ dq +:+ name' +:+ dq +:+ " ("
              +:+ dq +:+ "id" +:+ dq +:+ ", " +:+ dq +:+ "name" +:+ dq
              +:+ ", " +:+ dq +:+ "amount" +:+ dq +:+ ", "
              +:+ dq +:+ "date" +:+ dq
              +:+ ") VALUES ('1', 'Alice', '120.5', '2025-04-01');"]).
Proof.
  intros Ht. split; [| split; [| split; [| split]]].
  - eexists. split; [| split].
    + unfold generate_insert_sql, get_table. rewrite Ht. reflexivity.
    + by rewrite length_fmap.
    + intros i row Hrow. rewrite list_lookup_fmap, Hrow. reflexivity.
  - intros s. unfold sql_literal. by rewrite replace_single_quote.
  - reflexivity.
  - intros [s| |z|b|f] Hs Hn; try reflexivity; [by destruct (Hs s) | done].
  - intros name'. unfold generate_insert_sql, get_table. simpl.
    unfold insert_statement. do 5 f_equal.
Qed.

Lemma insert_sql_rows_witness :
  (∃ stmts,
      generate_insert_sql scenario_example "t" = Ok stmts ∧
      length stmts = 1%nat ∧
      ∀ i row,
        [[VStr "1"; VStr "Alice"; VStr "120.5"; VStr "2025-04-01"]] !! i
          = Some row →
        stmts !! i =
          Some ("INSERT INTO " +:+ dq +:+ "t" +:+ dq +:+ " ("
                  +:+ join ", " ((λ h, dq +:+ h +:+ dq)
                                   <$> ["id"; "name"; "amount"; "date"])
                  +:+ ") VALUES (" +:+ join ", " (sql_literal <$> row)
                  +:+ ");")) ∧
  sql_literal (VStr "O'Brien") = "'O''Brien'".
Proof.
  destruct (insert_sql_rows scenario_example
              {| header := ["id"; "name"; "amount"; "date"];
                 types := ["number"; "text"; "real"; "text"];
                 rows := [[VStr "1"; VStr "Alice"; VStr "120.5";
                           VStr "2025-04-01"]] |} "t" eq_refl)
    as (Hrows & Hstr & _).
  split; [exact Hrows | exact (Hstr "O'Brien")].
Defined.

End Generators.

(** ** The schema loader *)

Section SchemaLoader.

Import PyStr SQLiteConverter WikiSQLSchemaLoader Spec.

Lemma wikisql_type_mapped tag : _wikisql_type_to_sqlite tag = mapped_type tag.
Proof.
  unfold _wikisql_type_to_sqlite, type_map, mapped_type. cbv zeta.
  generalize (lower tag). intros t.
  rewrite !lookup_insert, lookup_empty.
  repeat case_decide; subst; try done.
Qed.

Lemma get_column_info_columns ex t :
  table ex = Some t →
  _get_column_info {| example := Some ex |} = Ok (columns_of t).
Proof.
  intros Ht. unfold _get_column_info. simpl. rewrite Ht.
  unfold columns_of. f_equal. apply imap_ext.
  intros i [h ty] _. simpl. by rewrite wikisql_type_mapped.
Qed.

Lemma length_columns_of t :
  length (columns_of t) = (length (header t) `min` length (types t))%nat.
Proof. unfold columns_of. by rewrite length_imap, length_zip. Qed.

Lemma lookup_columns_of t i c :
  columns_of t !! i = Some c ↔
  ∃ h ty, header t !! i = Some h ∧ types t !! i = Some ty ∧
          c = {| col_name := h;
                 col_type := mapped_type ty;
                 not_null := true;
                 is_primary_key := bool_decide (i = 0%nat ∧ is_number_tag ty) |}.
Proof.
  unfold columns_of. rewrite list_lookup_imap_Some. split.
  - intros ([h ty] & Hz & ->). apply lookup_zip_Some in Hz as [??]. eauto.
  - intros (h & ty & Hh & Ht & ->). exists (h, ty).
    split; [by apply lookup_zip_Some | done].
Qed.

Lemma load_schema_from_example_eq self ex t :
  table ex = Some t →
  load_schema_from_example self ex =
    (Ok {| tables :=
             [ {| name := match sql ex with
                          | Some q => default "table" (table_id q)
                          | None => "table"
                          end;
                  columns := columns_of t;
                  foreign_keys := [] |} ] |},
     {| example := Some ex |}).
Proof.
  intros Ht. unfold load_schema_from_example, load_schema.
  cbn [example]. rewrite (get_column_info_columns ex t Ht).
  cbn [bind Ok].
  destruct (sql ex) as [q|]; [| done]. by destruct (table_id q).
Qed.

(** C6: for an example with a table whose header and types have the same
    length, the schema has one table; column [i] has the name [header[i]],
    the type the fixed type table gives for [types[i]], [not_null] true and
    [is_primary_key] true exactly for index 0 with a [number] tag;
    [foreign_keys] is empty; the table name is [sql.table_id] when present
    and ["table"] otherwise. *)
Theorem load_schema_from_example_spec (self : Loader) (ex : Example)
    (t : Table) :
  table ex = Some t → length (header t) = length (types t) →
  ∃ ts,
    load_schema_from_example self ex
      = (Ok {| tables := [ts] |}, {| example := Some ex |}) ∧
    length (columns ts) = length (header t) ∧
    (∀ i h ty, header t !! i = Some h → types t !! i = Some ty →
       ∃ c, columns ts !! i = Some c ∧
            col_name c = h ∧ col_type c = mapped_type ty ∧
            not_null c = true ∧
            (is_primary_key c = true ↔ i = 0%nat ∧ is_number_tag ty)) ∧
    (∀ c, c ∈ columns ts → not_null c = true) ∧
    foreign_keys ts = [] ∧
    (∀ q tid, sql ex = Some q → table_id q = Some tid → name ts = tid) ∧
    (sql ex = None ∨ (∃ q, sql ex = Some q ∧ table_id q = None) →
     name ts = "table").
Proof.
  intros Ht Hlen. eexists. split; [by apply load_schema_from_example_eq |].
  cbn [columns name foreign_keys].
  split; [| split; [| split; [| split; [| split]]]].
  - rewrite length_columns_of. lia.
  - intros i h ty Hh Hty. eexists. split.
    + apply lookup_columns_of. eauto.
    + cbn. split; [done |]. split; [done |]. split; [done |].
      apply bool_decide_eq_true.
  - intros c [i Hi]%list_elem_of_lookup.
    apply lookup_columns_of in Hi as (h & ty & _ & _ & ->). done.
  - done.
  - intros q tid -> Htid. by rewrite Htid.
  - intros [-> | (q & -> & Htid)]; [done |]. by rewrite Htid.
Qed.

Lemma load_schema_from_example_spec_witness :
  ∃ ts,
    load_schema_from_example (__init__ None) scenario_example
      = (Ok {| tables := [ts] |}, {| example := Some scenario_example |}) ∧
    length (columns ts) = 4%nat ∧
    name ts = "table".
Proof.
  destruct (load_schema_from_example_spec (__init__ None) scenario_example
              {| header := ["id"; "name"; "amount"; "date"];
                 types := ["number"; "text"; "real"; "text"];
                 rows := [[VStr "1"; VStr "Alice"; VStr "120.5";
                           VStr "2025-04-01"]] |} eq_refl eq_refl)
    as (ts & Heq & Hlen & _ & _ & _ & _ & Hname).
  exists ts. split; [exact Heq |]. split; [exact Hlen |].
  apply Hname. right. eexists. split; reflexivity.
Defined.

(** C10: when the header and the types have different lengths, both the
    CREATE generator and the schema loader return normally; each emits
    [min(len(header), len(types))] columns, the column at position [i]
    made from [header[i]] and [types[i]]; the entries beyond the shorter
    sequence are dropped. *)
Theorem mismatched_lengths_truncate (self : Loader) (ex : Example)
    (t : Table) (table_name : string) :
  table ex = Some t → length (header t) ≠ length (types t) →
  (∃ cols,
      generate_create_table_sql ex table_name
        = Ok ("CREATE TABLE IF NOT EXISTS " +:+ dq +:+ table_name +:+ dq
                +:+ " (" +:+ nl +:+ "  "
                +:+ join ("," +:+ nl +:+ "  ") cols +:+ nl +:+ ");") ∧
      length cols = (length (header t) `min` length (types t))%nat ∧
      ∀ i c, cols !! i = Some c →
        ∃ h ty, header t !! i = Some h ∧ types t !! i = Some ty ∧
                c = dq +:+ h +:+ dq +:+ " " +:+ mapped_type ty +:+
                      (if decide (i = 0%nat ∧ is_number_tag ty)
                       then " PRIMARY KEY" else "")) ∧
  (∃ ts,
      load_schema_from_example self ex
        = (Ok {| tables := [ts] |}, {| example := Some ex |}) ∧
      length (columns ts) = (length (header t) `min` length (types t))%nat ∧
      ∀ i c, columns ts !! i = Some c →
        ∃ h ty, header t !! i = Some h ∧ types t !! i = Some ty ∧
                col_name c = h ∧ col_type c = mapped_type ty).
Proof.
  intros Ht _. split.
  - exists (column_definitions (header t) (types t)).
    split; [| split].
    + unfold generate_create_table_sql, get_table. rewrite Ht. reflexivity.
    + apply length_column_definitions.
    + intros i c Hc.
      assert (i < length (column_definitions (header t) (types t)))%nat
        as Hi by (by eapply lookup_lt_Some).
      rewrite length_column_definitions in Hi.
      destruct (lookup_lt_is_Some_2 (header t) i) as [h Hh]; [lia |].
      destruct (lookup_lt_is_Some_2 (types t) i) as [ty Hty]; [lia |].
      exists h, ty. split; [done |]. split; [done |].
      rewrite (lookup_column_definitions _ _ i h ty Hh Hty) in Hc.
      congruence.
  - eexists. split; [by apply load_schema_from_example_eq |].
    cbn [columns]. split; [apply length_columns_of |].
    intros i c (h & ty & Hh & Hty & ->)%lookup_columns_of.
    exists h, ty. done.
Qed.

Lemma mismatched_lengths_truncate_witness :
  (∃ sql, generate_create_table_sql mismatched_example "t" = Ok sql) ∧
  (∃ ts,
      load_schema_from_example (__init__ None) mismatched_example
        = (Ok {| tables := [ts] |}, {| example := Some mismatched_example |}) ∧
      length (columns ts) = 2%nat).
Proof.
  destruct (mismatched_lengths_truncate (__init__ None) mismatched_example
              {| header := ["a"; "b"; "c"]; types := ["number"; "text"];
                 rows := [] |} "t" eq_refl)
    as [(cols & Hsql & _) (ts & Hts & Hlen & _)].
  - simpl. lia.
  - split; [eauto | eauto].
Defined.

End SchemaLoader.

(** ** Materialization *)

Section Materialization.

Import PyStr SQLiteConverter Spec.

Variable hash : list string → Z.
Variable rejects : string → option TableState → bool.

Lemma for_each_inserts name xs p d v :
  for_each xs (λ '(stmt, row), on_conn (exec_insert rejects name stmt row))
    {| db_path := p; disk := d; conn := Some v |}
  = (let '(r, v') := run_inserts rejects name xs v in
     (r, {| db_path := p; disk := d; conn := Some v' |})).
Proof.
  revert v. induction xs as [| [stmt row] xs IH]; intros v; [done |].
  cbn [for_each run_inserts]. unfold bindM at 1. unfold on_conn at 1.
  cbn [conn]. destruct (exec_insert rejects name stmt row v) as [e | v'];
    [done |].
  unfold set_conn. cbn [db_path disk]. apply IH.
Qed.

Lemma convert_example_no_table ex st :
  table ex = None →
  convert_example hash rejects ex st
  = (Raise (KeyError "table"),
     {| db_path := db_path st; disk := disk st;
        conn := Some (default (disk st) (conn st)) |}).
Proof.
  intros Ht. unfold convert_example, bindM, lift, _connect_if_needed.
  unfold generate_table_name, get_table. rewrite Ht.
  destruct st as [p d [v |]]; reflexivity.
Qed.

Lemma convert_example_run ex st t :
  table ex = Some t →
  ∃ name create,
    generate_table_name hash ex = Ok name ∧
    generate_create_table_sql ex name = Ok create ∧
    convert_example hash rejects ex st
    = match fill_table rejects name create
              (zip (insert_statement (header t) name <$> rows t) (rows t))
              (delete name (default (disk st) (conn st))) with
      | (inl e, v') =>
          (inl e, {| db_path := db_path st; disk := disk st;
                     conn := Some v' |})
      | (inr _, v') =>
          (bind (get_sql ex) (λ q,
             Ok {| raw_data := ex;
                   sqlite_info :=
                     {| table_name := name;
                        info_db_path := db_path st;
                        create_sql := create;
                        sample_query :=
                          "SELECT * FROM " +:+ dq +:+ name +:+ dq
                            +:+ " LIMIT 5;";
                        target_sql :=
                          (λ raw_sql, replace raw_sql "table" name)
                            <$> human_readable q |} |}),
           {| db_path := db_path st; disk := v'; conn := Some v' |})
      end.
Proof.
  intros Ht. eexists _, _. split; [| split].
  - unfold generate_table_name, get_table. rewrite Ht. reflexivity.
  - unfold generate_create_table_sql, get_table. rewrite Ht. reflexivity.
  - unfold convert_example, generate_table_name, generate_create_table_sql,
      generate_insert_sql, get_table. rewrite Ht. cbn [bind Ok].
    set (name := "ex_" +:+ _).
    set (create := "CREATE TABLE IF NOT EXISTS " +:+ _).
    set (stmts := zip _ _).
    unfold fill_table.
    assert (∀ p d v,
      (on_conn (exec_drop name) ;;;
       on_conn (exec_create rejects name create) ;;;
       for_each stmts
         (λ '(insert_sql, row),
            on_conn (exec_insert rejects name insert_sql row)) ;;;
       commit ;;;
       q <~ lift (get_sql ex) ;;
       path <~ (λ st, (Ok (db_path st), st)) ;;
       ret {| raw_data := ex;
              sqlite_info :=
                {| table_name := name;
                   info_db_path := path;
                   create_sql := create;
                   sample_query :=
                     "SELECT * FROM " +:+ dq +:+ name +:+ dq +:+ " LIMIT 5;";
                   target_sql :=
                     match human_readable q with
                     | Some raw_sql => Some (replace raw_sql "table" name)
                     | None => None
                     end |} |})
        {| db_path := p; disk := d; conn := Some v |}
      = match
          match exec_create rejects name create (delete name v) with
          | inl e => (inl e, delete name v)
          | inr v' => run_inserts rejects name stmts v'
          end
        with
        | (inl e, v') => (inl e, {| db_path := p; disk := d; conn := Some v' |})
        | (inr _, v') =>
            (bind (get_sql ex) (λ q,
               Ok {| raw_data := ex;
                     sqlite_info :=
                       {| table_name := name;
                          info_db_path := p;
                          create_sql := create;
                          sample_query :=
                            "SELECT * FROM " +:+ dq +:+ name +:+ dq
                              +:+ " LIMIT 5;";
                          target_sql :=
                            (λ raw_sql, replace raw_sql "table" name)
                              <$> human_readable q |} |}),
             {| db_path := p; disk := v'; conn := Some v' |})
        end) as Hbody.
    { intros p d v. unfold bindM at 1. unfold on_conn at 1, exec_drop.
      cbn [conn Ok]. unfold set_conn. cbn [db_path disk].
      unfold bindM at 1. unfold on_conn at 1. cbn [conn].
      destruct (exec_create rejects name create (delete name v)) as [e | v1];
        [done |].
      unfold set_conn. cbn [db_path disk].
      unfold bindM at 1. rewrite for_each_inserts.
      destruct (run_inserts rejects name stmts v1) as [[e | []] v2]; [done |].
      unfold bindM, commit, lift, ret, get_sql. cbn [conn db_path disk].
      destruct (sql ex) as [q |]; [| done]. cbn [bind Ok].
      by destruct (human_readable q). }
    unfold bindM at 1. unfold _connect_if_needed.
    destruct st as [p d [v |]]; cbn [conn disk db_path default from_option id];
      unfold bindM at 1 2 3 4, lift; unfold set_conn; cbn [conn disk db_path];
      apply Hbody.
Qed.

Lemma exec_insert_frame name stmt row v v' :
  exec_insert rejects name stmt row v = inr v' →
  delete name v' = delete name v.
Proof.
  unfold exec_insert. destruct (rejects stmt (v !! name)); [done |].
  destruct (v !! name) as [ts |]; [| done].
  intros [= <-]. apply delete_insert_eq.
Qed.

Lemma run_inserts_frame name xs v :
  delete name (run_inserts rejects name xs v).2 = delete name v.
Proof.
  revert v. induction xs as [| [stmt row] xs IH]; intros v; [done |].
  cbn [run_inserts].
  destruct (exec_insert rejects name stmt row v) as [e | v'] eqn:E; [done |].
  rewrite IH. by eapply exec_insert_frame.
Qed.

Lemma fill_table_frame name create xs v :
  delete name (fill_table rejects name create xs v).2 = delete name v.
Proof.
  unfold fill_table, exec_create.
  destruct (rejects create (v !! name)); [done |].
  destruct (v !! name); unfold Ok; rewrite run_inserts_frame; [done |].
  apply delete_insert_eq.
Qed.

Lemma run_inserts_rows name xs v v' ts :
  v !! name = Some ts →
  run_inserts rejects name xs v = (Ok tt, v') →
  v' !! name = Some {| ts_schema := ts_schema ts;
                       ts_rows := ts_rows ts ++ xs.*2 |}.
Proof.
  revert v ts. induction xs as [| [stmt row] xs IH]; intros v ts Hv.
  - intros [= <-]. rewrite app_nil_r. by destruct ts.
  - cbn [run_inserts]. unfold exec_insert. rewrite Hv.
    destruct (rejects stmt (Some ts)); [done |].
    intros Hrun. eapply IH in Hrun; [| apply lookup_insert_eq].
    rewrite Hrun. cbn [ts_schema ts_rows fmap list_fmap].
    by rewrite <- app_assoc.
Qed.

Lemma fill_table_rows name create xs v v' :
  v !! name = None →
  fill_table rejects name create xs v = (Ok tt, v') →
  v' !! name = Some {| ts_schema := create; ts_rows := xs.*2 |}.
Proof.
  intros Hv. unfold fill_table, exec_create. rewrite Hv.
  destruct (rejects create None); [done |].
  intros Hrun. eapply run_inserts_rows in Hrun; [| apply lookup_insert_eq].
  exact Hrun.
Qed.

Lemma run_inserts_accepted name xs v ts :
  v !! name = Some ts →
  (∀ stmt ts', stmt ∈ xs.*1 → rejects stmt (Some ts') = false) →
  (run_inserts rejects name xs v).1 = Ok tt.
Proof.
  revert v ts. induction xs as [| [stmt row] xs IH]; intros v ts Hv Hacc;
    [done |].
  cbn [run_inserts]. unfold exec_insert. rewrite Hv.
  rewrite (Hacc stmt ts) by (cbn; by left).
  eapply IH; [apply lookup_insert_eq |].
  intros stmt' ts' Hin. apply Hacc. cbn. by right.
Qed.

Lemma fill_table_accepted name create xs v :
  v !! name = None →
  accepted rejects create xs.*1 →
  (fill_table rejects name create xs v).1 = Ok tt.
Proof.
  intros Hv [Hcreate Hinserts]. unfold fill_table, exec_create.
  rewrite Hv, Hcreate. eapply run_inserts_accepted; [apply lookup_insert_eq |].
  done.
Qed.

(** C5: converting an example a second time, in the state the first
    conversion left, returns the same result and leaves the store as it
    was, whatever the example and the initial store; after a successful
    conversion the table named in the result holds the CREATE statement as
    its schema and the rows of the example, in order, both in the
    connection's view and on disk.  And the conversion does succeed, with
    the generated name and statement in its result, for every example with
    a table and an [sql] entry whose statements the engine accepts. *)
Theorem convert_example_idempotent (ex : Example) (st st1 : State)
    (r1 : result ConversionResult) :
  convert_example hash rejects ex st = (r1, st1) →
  convert_example hash rejects ex st1 = (r1, st1) ∧
  (∀ res t, r1 = Ok res → table ex = Some t →
     ∃ ts, conn st1 = Some (disk st1) ∧
           disk st1 !! table_name (sqlite_info res) = Some ts ∧
           ts_schema ts = create_sql (sqlite_info res) ∧
           ts_rows ts = rows t) ∧
  (∀ name create inserts,
     is_Some (table ex) → is_Some (sql ex) →
     generate_table_name hash ex = Ok name →
     generate_create_table_sql ex name = Ok create →
     generate_insert_sql ex name = Ok inserts →
     accepted rejects create inserts →
     ∃ res, r1 = Ok res ∧
            table_name (sqlite_info res) = name ∧
            create_sql (sqlite_info res) = create).
Proof.
  intros H1. destruct (table ex) as [t |] eqn:Ht.
  - destruct (convert_example_run ex st t Ht) as (name & create & Hn & Hc & E).
    destruct (convert_example_run ex st1 t Ht)
      as (name' & create' & Hn' & Hc' & E').
    assert (name' = name) as -> by (unfold Ok in *; congruence).
    assert (create' = create) as -> by (unfold Ok in *; congruence).
    rewrite E in H1. rewrite E'. clear E E'.
    set (xs := zip _ _) in *.
    pose proof (fill_table_frame name create xs
                  (delete name (default (disk st) (conn st)))) as Hframe.
    rewrite delete_delete_eq in Hframe.
    pose proof (fill_table_rows name create xs
                  (delete name (default (disk st) (conn st)))) as Hrows.
    pose proof (fill_table_accepted name create xs
                  (delete name (default (disk st) (conn st)))
                  (lookup_delete_eq _ _)) as Hacc.
    assert (xs.*1 = insert_statement (header t) name <$> rows t) as Hxs
      by (unfold xs; apply fst_zip; by rewrite length_fmap).
    destruct (fill_table rejects name create xs
                (delete name (default (disk st) (conn st))))
      as [[e | []] v'] eqn:Hfill; cbn [snd] in Hframe;
      injection H1 as <- <-; cbn [conn disk db_path default from_option id];
      rewrite Hframe, Hfill.
    + split; [done |]. split; [intros res t' [=] |].
      intros name0 create0 inserts _ _ Hn0 Hc0 Hi0 Hok.
      assert (name0 = name) as -> by (unfold Ok in *; congruence).
      assert (create0 = create) as -> by (unfold Ok in *; congruence).
      unfold generate_insert_sql, get_table in Hi0. rewrite Ht in Hi0.
      cbn [bind Ok] in Hi0. injection Hi0 as <-.
      rewrite <- Hxs in Hok. by specialize (Hacc Hok).
    + split; [done |]. split.
      * intros res t' Hres [= <-].
        exists {| ts_schema := create; ts_rows := xs.*2 |}.
        split; [done |].
        destruct (get_sql ex) as [e | q]; [done |].
        cbn [bind Ok] in Hres. injection Hres as <-.
        cbn [sqlite_info table_name create_sql ts_schema ts_rows].
        split; [apply Hrows; [apply lookup_delete_eq | done] |].
        split; [done |].
        unfold xs. apply snd_zip. by rewrite length_fmap.
      * intros name0 create0 inserts _ [q Hq] Hn0 Hc0 _ _.
        assert (name0 = name) as -> by (unfold Ok in *; congruence).
        assert (create0 = create) as -> by (unfold Ok in *; congruence).
        unfold get_sql. rewrite Hq. cbn [bind Ok]. by eexists.
  - rewrite (convert_example_no_table ex st Ht) in H1.
    injection H1 as <- <-.
    rewrite (convert_example_no_table ex _ Ht). cbn [conn disk db_path default from_option id].
    split; [done |]. split; [intros res t [=] |].
    by intros name create inserts [t Ht'].
Qed.

(** C2, as the code has it: when the example has a human-readable query,
    [target_sql] is that query with every occurrence of the text [table]
    replaced by the table name, wherever it occurs: the query is cut at
    the occurrences, the pieces between them hold none, and the result is
    the same pieces joined by the table name. *)
Theorem target_sql_replaces_every_occurrence (ex : Example) (st st1 : State)
    (res : ConversionResult) (q : Sql) (raw : string) :
  convert_example hash rejects ex st = (Ok res, st1) →
  sql ex = Some q → human_readable q = Some raw →
  ∃ pieces,
    raw = join "table" pieces ∧
    target_sql (sqlite_info res)
      = Some (join (table_name (sqlite_info res)) pieces) ∧
    Forall (λ p, ¬ contains p "table") pieces.
Proof.
  intros H Hq Hraw. destruct (table ex) as [t |] eqn:Ht.
  - destruct (convert_example_run ex st t Ht) as (name & create & _ & _ & E).
    rewrite E in H. clear E.
    destruct (fill_table _ _ _ _ _) as [[e | []] v']; [done |].
    unfold get_sql in H. rewrite Hq in H. cbn [bind Ok] in H.
    injection H as <- _. cbn [sqlite_info target_sql table_name].
    rewrite Hraw.
    destruct (replace_pieces raw "table" name) as (pieces & Hcut & Hrep & Hall);
      [done |].
    exists pieces. split; [exact Hcut |]. split; [| exact Hall].
    rewrite <- Hrep. reflexivity.
  - by rewrite (convert_example_no_table ex st Ht) in H.
Qed.

End Materialization.

Section MaterializationExamples.

Import PyStr SQLiteConverter Spec.

Lemma convert_example_idempotent_witness :
  ∃ res st1 ts,
    convert_example (λ _, 0) (λ _ _, false) scenario_example empty_store
      = (Ok res, st1) ∧
    convert_example (λ _, 0) (λ _ _, false) scenario_example st1
      = (Ok res, st1) ∧
    table_name (sqlite_info res) = "ex_0" ∧
    disk st1 !! "ex_0" = Some ts ∧
    ts_schema ts = create_sql (sqlite_info res) ∧
    ts_rows ts = [[VStr "1"; VStr "Alice"; VStr "120.5"; VStr "2025-04-01"]].
Proof.
  set (p := convert_example (λ _, 0) (λ _ _, false) scenario_example
              empty_store).
  assert (p = (p.1, p.2)) as E by (by destruct p).
  destruct (convert_example_idempotent (λ _, 0) (λ _ _, false)
              scenario_example empty_store p.2 p.1 E)
    as (Hagain & Htable & Hsuccess).
  destruct (Hsuccess "ex_0" _ _ (ex_intro _ _ eq_refl) (ex_intro _ _ eq_refl)
              eq_refl eq_refl eq_refl (conj eq_refl (λ _ _ _, eq_refl)))
    as (res & Hres & Hname & Hcreate).
  destruct (Htable res _ Hres eq_refl) as (ts & _ & Hts & Hschema & Hrows).
  exists res, p.2, ts. rewrite <- Hres.
  split; [exact E |]. split; [exact Hagain |]. split; [exact Hname |].
  split; [by rewrite <- Hname |]. split; [exact Hschema | exact Hrows].
Defined.

Lemma target_sql_replaces_every_occurrence_witness :
  ∃ res st1 pieces,
    convert_example (λ _, 0) (λ _ _, false) tablet_example empty_store
      = (Ok res, st1) ∧
    "SELECT tablet FROM table" = join "table" pieces ∧
    target_sql (sqlite_info res)
      = Some (join (table_name (sqlite_info res)) pieces).
Proof.
  destruct (convert_example (λ _, 0) (λ _ _, false) tablet_example
              empty_store) as [[e | res] st1] eqn:E;
    [vm_compute in E; discriminate |].
  destruct (target_sql_replaces_every_occurrence (λ _, 0) (λ _ _, false)
              tablet_example empty_store st1 res
              {| human_readable := Some "SELECT tablet FROM table";
                 table_id := None |}
              "SELECT tablet FROM table" E eq_refl eq_refl)
    as (pieces & Hraw & Htarget & _).
  exists res, st1, pieces. split; [reflexivity |]. split; assumption.
Defined.

(** C2, as stated, fails: the column name [tablet] holds the text [table]
    inside a longer identifier, and the conversion rewrites it too, where
    a replacement of the standalone word leaves it alone. *)
Lemma target_sql_standalone_word_counterexample :
  ∃ res st1,
    convert_example (λ _, 0) (λ _ _, false) tablet_example empty_store
      = (Ok res, st1) ∧
    table_name (sqlite_info res) = "ex_0" ∧
    target_sql (sqlite_info res) = Some "SELECT ex_0t FROM ex_0" ∧
    replace_word "SELECT tablet FROM table" "table" "ex_0"
      = "SELECT tablet FROM ex_0" ∧
    target_sql (sqlite_info res)
      ≠ Some (replace_word "SELECT tablet FROM table" "table"
                (table_name (sqlite_info res))).
Proof.
  destruct (convert_example (λ _, 0) (λ _ _, false) tablet_example
              empty_store) as [[e | res] st1] eqn:E;
    [vm_compute in E; discriminate |].
  exists res, st1. split; [reflexivity |].
  vm_compute in E. injection E as <- _.
  repeat split; try reflexivity. vm_compute. discriminate.
Qed.

End MaterializationExamples.

(** ** The dataset access layer *)

Section Dataset.

Import PyStr WikiSQLDataset Spec.

Variable load_dataset : nat → result DatasetDict.

(** *** Cache keys *)

Lemma to_int_proper z : Z.to_int z ≠ Decimal.Pos Decimal.Nil ∧ Z.to_int z ≠ Decimal.Neg Decimal.Nil.
Proof.
  destruct z as [| p | p]; simpl; split; try done;
    intros [= H]; by apply DecimalPos.Unsigned.to_uint_nonnil in H.
Qed.

Lemma int_of_str_of_Z z :
  NilZero.int_of_string (str_of_Z z) = Some (Z.to_int z).
Proof. destruct (to_int_proper z). by apply NilZero.isi. Qed.

Lemma str_of_Z_inj z1 z2 : str_of_Z z1 = str_of_Z z2 → z1 = z2.
Proof.
  intros E. apply DecimalZ.to_int_inj.
  pose proof (int_of_str_of_Z z1) as H1. rewrite E, int_of_str_of_Z in H1.
  congruence.
Qed.

Lemma str_limit_inj l1 l2 : str_limit l1 = str_limit l2 → l1 = l2.
Proof.
  destruct l1 as [z1 |], l2 as [z2 |]; cbn [str_limit]; intros E.
  - f_equal. by apply str_of_Z_inj.
  - pose proof (int_of_str_of_Z z1) as H. rewrite E in H. discriminate.
  - pose proof (int_of_str_of_Z z2) as H. rewrite <- E in H. discriminate.
  - done.
Qed.

Lemma uint_no_underscore d :
  contains_char "_" (NilEmpty.string_of_uint d) = false.
Proof. induction d; cbn; done. Qed.

Lemma str_of_Z_no_underscore z : contains_char "_" (str_of_Z z) = false.
Proof.
  unfold str_of_Z, NilZero.string_of_int, NilZero.string_of_uint.
  destruct (Z.to_int z) as [d | d]; destruct d;
    try done; cbn [contains_char Ascii.eqb Bool.eqb];
    apply uint_no_underscore.
Qed.

Lemma str_limit_no_underscore l : contains_char "_" (str_limit l) = false.
Proof. destruct l; [apply str_of_Z_no_underscore | done]. Qed.

Lemma contains_char_app c x y : contains_char c (x +:+ String c y) = true.
Proof.
  induction x as [| d x IH].
  - rewrite string_app_nil_l. cbn. by rewrite Ascii.eqb_refl.
  - rewrite string_app_cons. cbn [contains_char]. rewrite IH.
    by destruct (Ascii.eqb c d).
Qed.

Lemma underscore_cons a : "_" +:+ a = String "_" a.
Proof. reflexivity. Qed.

Lemma key_parts_inj s1 s2 a b :
  contains_char "_" a = false → contains_char "_" b = false →
  s1 +:+ "_" +:+ a = s2 +:+ "_" +:+ b → s1 = s2 ∧ a = b.
Proof.
  intros Ha Hb. rewrite !underscore_cons. revert s2.
  induction s1 as [| c s1 IH]; intros [| d s2];
    rewrite ?string_app_nil_l, ?string_app_cons; intros E.
  - by injection E.
  - injection E as <- E. rewrite E in Ha.
    by rewrite contains_char_app in Ha.
  - injection E as -> E. rewrite <- E in Hb.
    by rewrite contains_char_app in Hb.
  - injection E as -> E. destruct (IH _ E) as [-> ->]. done.
Qed.

Lemma cache_key_inj s1 l1 s2 l2 :
  cache_key s1 l1 = cache_key s2 l2 → s1 = s2 ∧ l1 = l2.
Proof.
  unfold cache_key. intros E.
  apply key_parts_inj in E as [-> E]; try apply str_limit_no_underscore.
  split; [done |]. by apply str_limit_inj.
Qed.

(** *** The steps of [load_split] and [get_example] *)

Lemma load_dataset_available st d :
  available load_dataset st d →
  ∃ n, _load_dataset load_dataset st
       = (Ok d, {| _dataset := Some d; data_cache := data_cache st;
                   heap := heap st; hub_calls := n |}).
Proof.
  unfold _load_dataset. intros [H | [H1 H2]].
  - rewrite H. exists (hub_calls st). destruct st. by simplify_eq/=.
  - rewrite H1, H2. by eexists.
Qed.

Lemma load_dataset_inv st d st' :
  _load_dataset load_dataset st = (Ok d, st') →
  available load_dataset st d ∧
  ∃ n, st' = {| _dataset := Some d; data_cache := data_cache st;
                heap := heap st; hub_calls := n |}.
Proof.
  unfold _load_dataset, available.
  destruct (_dataset st) as [d0 |] eqn:Hd.
  - intros [= <- <-]. split; [by left |]. exists (hub_calls st).
    destruct st. by simplify_eq/=.
  - destruct (load_dataset (hub_calls st)) as [e | d0] eqn:Hl; [done |].
    intros [= <- <-]. split; [by right |]. by eexists.
Qed.

Lemma load_split_hit split limit st r :
  data_cache st !! cache_key split limit = Some r →
  load_split load_dataset split limit st = (Ok r, st).
Proof. intros H. unfold load_split. by rewrite H. Qed.

Lemma load_split_miss split limit st r st1 :
  data_cache st !! cache_key split limit = None →
  load_split load_dataset split limit st = (Ok r, st1) →
  ∃ d items data n,
    available load_dataset st d ∧
    lookup_split d (hf_split_of split) = Some items ∧
    normalize_all (limited limit items) = Ok data ∧
    r = length (heap st) ∧
    st1 = {| _dataset := Some d;
             data_cache := <[cache_key split limit := r]> (data_cache st);
             heap := heap st ++ [data];
             hub_calls := n |}.
Proof.
  intros Hmiss. unfold load_split. rewrite Hmiss.
  unfold try_exceptM, bindM.
  destruct (_load_dataset load_dataset st) as [[e | d] st'] eqn:Hl; [done |].
  apply load_dataset_inv in Hl as [Hav [n ->]].
  destruct (lookup_split d (hf_split_of split)) as [items |] eqn:Hitems;
    [| done].
  unfold lift. fold (limited limit items).
  destruct (normalize_all (limited limit items)) as [e | data] eqn:Hn;
    [done |].
  unfold store_in_cache. cbn [heap data_cache _dataset hub_calls].
  intros [= <- <-]. by exists d, items, data, n.
Qed.

Lemma load_split_keeps_cache_ok split limit st r st1 :
  cache_ok st →
  load_split load_dataset split limit st = (Ok r, st1) →
  cache_ok st1 ∧ data_cache st1 !! cache_key split limit = Some r.
Proof.
  intros Hok Hload.
  destruct (data_cache st !! cache_key split limit) as [r0 |] eqn:Hc.
  - rewrite (load_split_hit _ _ _ _ Hc) in Hload.
    injection Hload as <- <-. done.
  - apply load_split_miss in Hload
      as (d & items & data & n & Hav & Hitems & Hdata & -> & ->); [| done].
    split; [| apply lookup_insert_eq].
    split; cbn [data_cache heap _dataset].
    + intros k r. rewrite lookup_insert. case_decide.
      * intros [= <-]. rewrite length_app. simpl. lia.
      * intros Hk%(cache_bound st Hok). rewrite length_app. lia.
    + intros k1 k2 r. rewrite !lookup_insert.
      repeat case_decide; subst; try done.
      * intros [= <-] Hk%(cache_bound st Hok). lia.
      * intros Hk%(cache_bound st Hok) [= <-]. lia.
      * apply (cache_distinct st Hok).
    + intros split' limit' r. rewrite lookup_insert. case_decide as Hkey.
      * apply cache_key_inj in Hkey as [<- <-]. intros [= <-].
        exists d, items, data. split; [done |]. split; [done |].
        split; [done |]. by rewrite lookup_app_r, Nat.sub_diag.
      * intros Hk.
        destruct (cache_content st Hok _ _ _ Hk)
          as (d0 & items0 & data0 & Hd0 & Hi0 & Hn0 & Hh0).
        assert (d0 = d) as ->.
        { destruct Hav as [H' | [H' _]]; congruence. }
        exists d, items0, data0. split; [done |]. split; [done |].
        split; [done |]. by apply lookup_app_l_Some.
Qed.

Lemma cache_ok_init : cache_ok __init__.
Proof. split; intros *; cbn [data_cache __init__]; by rewrite lookup_empty. Qed.

Lemma available_inj st d1 d2 :
  available load_dataset st d1 → available load_dataset st d2 → d1 = d2.
Proof. unfold available, Ok. intros [? | [??]] [? | [??]]; congruence. Qed.

Lemma normalize_all_lookup items data i item :
  normalize_all items = Ok data → items !! i = Some item →
  ∃ e, normalize_id item = Ok e ∧ data !! i = Some e.
Proof.
  revert data i. induction items as [| x items IH]; intros data i; [done |].
  cbn [normalize_all]. unfold bind at 1.
  destruct (normalize_id x) as [err | e] eqn:Hx; [done |].
  unfold bind at 1.
  destruct (normalize_all items) as [err | data'] eqn:Hrest; [done |].
  intros [= <-]. destruct i as [| i]; cbn.
  - intros [= <-]. eauto.
  - intros Hi. by apply IH.
Qed.

Lemma get_example_out_of_range split index st d items :
  available load_dataset st d →
  lookup_split d (hf_split_of split) = Some items →
  index < 0 ∨ index >= Z.of_nat (length items) →
  ∃ st', get_example load_dataset split index st
         = (Raise (IndexError (index_message split index (length items))),
            st').
Proof.
  intros Hav Hitems Hout.
  destruct (load_dataset_available st d Hav) as [n Hl].
  unfold get_example, try_exceptM, bindM. cbv zeta. rewrite Hl. cbn [Ok]. rewrite Hitems.
  rewrite decide_True by done. by eexists.
Qed.

Lemma get_example_in_range split index st d items item e :
  available load_dataset st d →
  lookup_split d (hf_split_of split) = Some items →
  items !! Z.to_nat index = Some item → 0 ≤ index →
  normalize_id item = Ok e →
  ∃ st', get_example load_dataset split index st = (Ok e, st').
Proof.
  intros Hav Hitems Hitem Hpos He.
  destruct (load_dataset_available st d Hav) as [n Hl].
  unfold get_example, try_exceptM, bindM. cbv zeta. rewrite Hl. cbn [Ok]. rewrite Hitems.
  apply lookup_lt_Some in Hitem as Hlt.
  rewrite decide_False by lia. rewrite Hitem. unfold lift. rewrite He.
  by eexists.
Qed.

(** [cache_ok] is an invariant of the instance: it holds after [__init__]
    and every call of [load_split] or [get_example] keeps it, whatever the
    call returns. *)
Lemma load_dataset_keeps_cache_ok st r st' :
  cache_ok st → _load_dataset load_dataset st = (r, st') → cache_ok st'.
Proof.
  intros Hok. unfold _load_dataset.
  destruct (_dataset st) as [d |] eqn:Hd; [by intros [= <- <-] |].
  assert (∀ split limit r0,
            data_cache st !! cache_key split limit = Some r0 → False) as Hno.
  { intros split limit r0 Hk.
    destruct (cache_content st Hok _ _ _ Hk) as (d0 & ? & ? & Hd0 & _).
    congruence. }
  destruct (load_dataset (hub_calls st)) as [e | d]; intros [= <- <-];
    (split; cbn [data_cache heap _dataset];
     [apply (cache_bound st Hok) | apply (cache_distinct st Hok) |
      intros split limit r0 Hk; by destruct (Hno _ _ _ Hk)]).
Qed.

Lemma get_example_keeps_cache_ok split index st r st' :
  cache_ok st → get_example load_dataset split index st = (r, st') →
  cache_ok st'.
Proof.
  intros Hok. unfold get_example, try_exceptM, bindM. cbv zeta.
  destruct (_load_dataset load_dataset st) as [[e | d] st0] eqn:Hl.
  - apply load_dataset_keeps_cache_ok in Hl; [| done].
    destruct e; by intros [= <- <-].
  - apply load_dataset_keeps_cache_ok in Hl; [| done].
    destruct (lookup_split d (hf_split_of split)) as [items |];
      [| by intros [= <- <-]].
    case_decide; [by intros [= <- <-] |].
    destruct (items !! Z.to_nat index) as [item |]; [| by intros [= <- <-]].
    unfold lift. destruct (normalize_id item) as [e | ex];
      [destruct e |]; by intros [= <- <-].
Qed.

Lemma load_split_failure_keeps_cache_ok split limit st e st' :
  cache_ok st → load_split load_dataset split limit st = (Raise e, st') →
  cache_ok st'.
Proof.
  intros Hok. unfold load_split.
  destruct (data_cache st !! cache_key split limit); [done |].
  unfold try_exceptM, bindM. cbv zeta.
  destruct (_load_dataset load_dataset st) as [[e0 | d] st0] eqn:Hl;
    apply load_dataset_keeps_cache_ok in Hl; try done.
  - by intros [= <- <-].
  - destruct (lookup_split d (hf_split_of split)) as [items |];
      [| by intros [= <- <-]].
    unfold lift.
    destruct (normalize_all _) as [e0 | data]; [by intros [= <- <-] |].
    unfold store_in_cache. done.
Qed.

(** The list a successful [load_split] without a limit returns. *)
Lemma load_split_all_content split st r st1 d items data :
  cache_ok st → available load_dataset st d →
  lookup_split d (hf_split_of split) = Some items →
  load_split load_dataset split None st = (Ok r, st1) →
  heap st1 !! r = Some data →
  normalize_all items = Ok data.
Proof.
  intros Hok Hav Hitems Hload Hheap.
  destruct (data_cache st !! cache_key split None) as [r0 |] eqn:Hc.
  - rewrite (load_split_hit _ _ _ _ Hc) in Hload. injection Hload as <- <-.
    destruct (cache_content st Hok _ _ _ Hc)
      as (d0 & items0 & data0 & Hd0 & Hi0 & Hn0 & Hh0).
    assert (d0 = d) as -> by (apply (available_inj st); [by left | done]).
    cbn [limited] in Hn0. congruence.
  - apply load_split_miss in Hload
      as (d0 & items0 & data0 & n & Hav0 & Hi0 & Hn0 & -> & ->); [| done].
    assert (d0 = d) as -> by by apply (available_inj st).
    cbn [heap] in Hheap. rewrite lookup_app_r, Nat.sub_diag in Hheap by done.
    cbn [limited] in Hn0. simplify_eq/=. congruence.
Qed.

(** C8: for a split with [N] examples, [get_example] with an index outside
    [0, N) raises an [IndexError] whose message gives the index and the
    number [N] of examples, and the exception is not wrapped; with an index
    inside the range it returns the element at that position of the list
    that [load_split] without a limit returns. *)
Theorem get_example_bounds (st : State) (d : DatasetDict) (split : string)
    (items : list Example) (index : Z) :
  cache_ok st → available load_dataset st d →
  lookup_split d (hf_split_of split) = Some items →
  (index < 0 ∨ index >= Z.of_nat (length items) →
     ∃ st', get_example load_dataset split index st
            = (Raise (IndexError (index_message split index (length items))),
               st') ∧
            contains (index_message split index (length items))
                     (str_of_Z (Z.of_nat (length items)))) ∧
  (0 ≤ index < Z.of_nat (length items) →
     ∀ r st1 data,
       load_split load_dataset split None st = (Ok r, st1) →
       heap st1 !! r = Some data →
       ∃ e st', get_example load_dataset split index st = (Ok e, st') ∧
                data !! Z.to_nat index = Some e).
Proof.
  intros Hok Hav Hitems. split.
  - intros Hout.
    destruct (get_example_out_of_range split index st d items Hav Hitems Hout)
      as [st' H].
    exists st'. split; [exact H |].
    unfold index_message.
    exists ("索引 " +:+ str_of_Z index +:+ " 超出範圍" +:+ nl +:+ split
              +:+ " 資料集有 "), " 個範例".
    rewrite !string_app_assoc. reflexivity.
  - intros Hin r st1 data Hload Hheap.
    pose proof (load_split_all_content split st r st1 d items data
                  Hok Hav Hitems Hload Hheap) as Hdata.
    destruct (lookup_lt_is_Some_2 items (Z.to_nat index)) as [item Hitem];
      [lia |].
    destruct (normalize_all_lookup items data _ item Hdata Hitem)
      as (e & He & Hde).
    destruct (get_example_in_range split index st d items item e
                Hav Hitems Hitem ltac:(lia) He) as [st' H].
    by exists e, st'.
Qed.

(** C7: after a successful [load_split(split, limit)] the list is cached
    under the key [f"{split}_{limit}"]; the same call again returns the
    same list object and changes nothing, so nothing is fetched; a call
    with another limit returns another list object, stored under its own
    key, and leaves the first entry and its list as they were. *)
Theorem load_split_cached (st st1 : State) (split : string)
    (limit limit' : option Z) (r : ref) :
  cache_ok st → limit ≠ limit' →
  load_split load_dataset split limit st = (Ok r, st1) →
  cache_key split limit = split +:+ "_" +:+ str_limit limit ∧
  data_cache st1 !! cache_key split limit = Some r ∧
  load_split load_dataset split limit st1 = (Ok r, st1) ∧
  ∀ r' st2,
    load_split load_dataset split limit' st1 = (Ok r', st2) →
    r' ≠ r ∧
    cache_key split limit' ≠ cache_key split limit ∧
    data_cache st2 !! cache_key split limit' = Some r' ∧
    data_cache st2 !! cache_key split limit = Some r ∧
    heap st2 !! r = heap st1 !! r ∧
    load_split load_dataset split limit st2 = (Ok r, st2).
Proof.
  intros Hok Hne Hload.
  destruct (load_split_keeps_cache_ok _ _ _ _ _ Hok Hload) as [Hok1 Hc1].
  split; [done |]. split; [done |].
  split; [by apply load_split_hit |].
  intros r' st2 Hload'.
  assert (cache_key split limit' ≠ cache_key split limit) as Hkeys.
  { intros [_ E]%cache_key_inj. congruence. }
  destruct (load_split_keeps_cache_ok _ _ _ _ _ Hok1 Hload') as [Hok2 Hc2].
  assert (data_cache st2 !! cache_key split limit = Some r
          ∧ heap st2 !! r = heap st1 !! r) as [Hc2' Hheap].
  { destruct (data_cache st1 !! cache_key split limit') as [r0 |] eqn:Hc.
    - rewrite (load_split_hit _ _ _ _ Hc) in Hload'.
      by injection Hload' as <- <-.
    - apply load_split_miss in Hload'
        as (d & items & data & n & _ & _ & _ & -> & ->); [| done].
      cbn [data_cache heap]. split; [by rewrite lookup_insert_ne |].
      apply lookup_app_l. by eapply (cache_bound st1). }
  split.
  { intros ->. apply Hkeys. by eapply (cache_distinct st2). }
  split; [done |]. split; [done |]. split; [done |]. split; [done |].
  by apply load_split_hit.
Qed.

(** C1, as the code has it: with a split name that is not among the
    provider's splits, [load_split] builds the [ValueError] that lists the
    valid splits, but its own handler catches it: the caller receives a
    [RuntimeError] whose message wraps that of the [ValueError].
    [get_example], on the same split name, lets the [ValueError] through. *)
Theorem load_split_unknown_split_wrapped (st : State) (d : DatasetDict)
    (split : string) (limit : option Z) (index : Z) :
  data_cache st !! cache_key split limit = None →
  available load_dataset st d →
  lookup_split d (hf_split_of split) = None →
  (∃ st', load_split load_dataset split limit st
          = (Raise (RuntimeError
                      ("載入 " +:+ split +:+ " 分割失敗: "
                         +:+ invalid_split_message split (hf_split_of split) d)),
             st')) ∧
  (∃ st', get_example load_dataset split index st
          = (Raise (ValueError
                      (invalid_split_message split (hf_split_of split) d)),
             st')) ∧
  contains (invalid_split_message split (hf_split_of split) d)
           (repr_list (keys d)).
Proof.
  intros Hmiss Hav Hnone.
  destruct (load_dataset_available st d Hav) as [n Hl].
  split; [| split].
  - unfold load_split. rewrite Hmiss.
    unfold try_exceptM, bindM. cbv zeta. rewrite Hl. cbn [Ok]. rewrite Hnone. by eexists.
  - unfold get_example, try_exceptM, bindM. cbv zeta.
    rewrite Hl. cbn [Ok]. rewrite Hnone. by eexists.
  - unfold invalid_split_message.
    exists ("無效的分割名稱: " +:+ split +:+ " (HF: " +:+ hf_split_of split
              +:+ ")" +:+ nl +:+ "有效的分割為: "), "".
    rewrite string_app_nil_r, !string_app_assoc. reflexivity.
Qed.

End Dataset.

Section DatasetExamples.

Import PyStr WikiSQLDataset Spec.

Lemma load_split_unknown_split_wrapped_witness :
  (∃ st', load_split hub "nonexistent" None __init__
          = (Raise (RuntimeError
                      ("載入 nonexistent 分割失敗: "
                         +:+ invalid_split_message "nonexistent" "nonexistent"
                               three_splits)),
             st')) ∧
  (∃ st', get_example hub "nonexistent" 0 __init__
          = (Raise (ValueError
                      (invalid_split_message "nonexistent" "nonexistent"
                         three_splits)),
             st')) ∧
  contains (invalid_split_message "nonexistent" "nonexistent" three_splits)
           "['train', 'validation', 'test']".
Proof.
  apply (load_split_unknown_split_wrapped hub __init__ three_splits
           "nonexistent" None 0).
  - reflexivity.
  - right. split; reflexivity.
  - reflexivity.
Defined.

Lemma load_split_cached_witness :
  let st1 := (load_split hub "dev" (Some 2) __init__).2 in
  cache_key "dev" (Some 2) = "dev_2" ∧
  data_cache st1 !! "dev_2" = Some 0%nat ∧
  load_split hub "dev" (Some 2) st1 = (Ok 0%nat, st1) ∧
  ∀ r' st2,
    load_split hub "dev" (Some 3) st1 = (Ok r', st2) →
    r' ≠ 0%nat ∧
    "dev_3" ≠ "dev_2" ∧
    data_cache st2 !! "dev_3" = Some r' ∧
    data_cache st2 !! "dev_2" = Some 0%nat ∧
    heap st2 !! 0%nat = heap st1 !! 0%nat ∧
    load_split hub "dev" (Some 2) st2 = (Ok 0%nat, st2).
Proof.
  intros st1.
  apply (load_split_cached hub __init__ st1 "dev" (Some 2) (Some 3) 0%nat).
  - apply cache_ok_init.
  - discriminate.
  - reflexivity.
Defined.

Lemma get_example_bounds_witness :
  (∃ st', get_example hub "train" 5 __init__
          = (Raise (IndexError (index_message "train" 5 3)), st') ∧
          contains (index_message "train" 5 3) "3") ∧
  (∀ r st1 data,
     load_split hub "train" None __init__ = (Ok r, st1) →
     heap st1 !! r = Some data →
     ∃ e st', get_example hub "train" 1 __init__ = (Ok e, st') ∧
              data !! 1%nat = Some e).
Proof.
  split.
  - apply (get_example_bounds hub __init__ three_splits "train"
             [question_only "q0" None;
              question_only "q1" (Some (VInt 7));
              question_only "q2" (Some (VFloat (Finite "2.5" 2)))] 5).
    + apply cache_ok_init.
    + right. split; reflexivity.
    + reflexivity.
    + right. simpl. lia.
  - apply (get_example_bounds hub __init__ three_splits "train"
             [question_only "q0" None;
              question_only "q1" (Some (VInt 7));
              question_only "q2" (Some (VFloat (Finite "2.5" 2)))] 1).
    + apply cache_ok_init.
    + right. split; reflexivity.
    + reflexivity.
    + simpl. lia.
Defined.

End DatasetExamples.

(** ** The SQL generator *)

Section Generator.

Import PyStr SQLGenerator Spec.

(** C9: constructing the generator without a credential raises a
    [ValueError]; and when the completion service raises, [generate]
    returns normally: its result is the text [Error generating SQL: ]
    followed by the message of the exception. *)
Theorem generator_failure_in_band (key : option string)
    (chain : string → string → result string) (self : Generator)
    (question schema : string) (e : exn) :
  (key = None ∨ key = Some "" →
     ∃ msg, __init__ key chain = Raise (ValueError msg)) ∧
  (chain_invoke self question schema = Raise e →
     generate self question schema
       = Ok ("Error generating SQL: " +:+ str_exn e) ∧
     startswith ("Error generating SQL: " +:+ str_exn e)
                "Error generating SQL: " = true) ∧
  (∃ text, generate self question schema = Ok text).
Proof.
  split; [| split].
  - intros [-> | ->]; by eexists.
  - intros H. unfold generate. rewrite H. split; [done |].
    apply prefix_app.
  - unfold generate.
    destruct (chain_invoke self question schema); by eexists.
Qed.

Lemma generator_failure_in_band_witness :
  (∃ msg, __init__ None failing_chain = Raise (ValueError msg)) ∧
  generate {| chain_invoke := failing_chain |} "how many rows" "CREATE TABLE t (id INTEGER);"
    = Ok "Error generating SQL: Connection error.".
Proof.
  destruct (generator_failure_in_band None failing_chain
              {| chain_invoke := failing_chain |}
              "how many rows" "CREATE TABLE t (id INTEGER);"
              (OtherError "Connection error."))
    as (Hinit & Hgen & _).
  split.
  - apply Hinit. by left.
  - apply Hgen. reflexivity.
Defined.

End Generator.

(** * Further properties *)

(** ** The converter: names, overwriting, batches *)

Section ConverterFacts.

Import PyStr SQLiteConverter Spec Notions.

Variable hash : list string → Z.
Variable rejects : string → option TableState → bool.

Lemma exec_insert_local name stmt row v1 v2 :
  v1 !! name = v2 !! name →
  match exec_insert rejects name stmt row v1,
        exec_insert rejects name stmt row v2 with
  | inl e1, inl e2 => e1 = e2
  | inr w1, inr w2 => w1 !! name = w2 !! name
  | _, _ => False
  end.
Proof.
  intros E. unfold exec_insert. rewrite <- E.
  destruct (rejects stmt (v1 !! name)); [done |].
  destruct (v1 !! name); [| done]. cbn. by rewrite !lookup_insert_eq.
Qed.

Lemma run_inserts_local name xs v1 v2 :
  v1 !! name = v2 !! name →
  (run_inserts rejects name xs v1).1 = (run_inserts rejects name xs v2).1 ∧
  (run_inserts rejects name xs v1).2 !! name
    = (run_inserts rejects name xs v2).2 !! name.
Proof.
  revert v1 v2. induction xs as [| [stmt row] xs IH]; intros v1 v2 E; [done |].
  cbn [run_inserts].
  pose proof (exec_insert_local name stmt row v1 v2 E) as H.
  destruct (exec_insert rejects name stmt row v1) as [e1 | w1],
           (exec_insert rejects name stmt row v2) as [e2 | w2]; try done.
  - by subst.
  - by apply IH.
Qed.

Lemma fill_table_local name create xs v1 v2 :
  v1 !! name = v2 !! name →
  (fill_table rejects name create xs v1).1
    = (fill_table rejects name create xs v2).1.
Proof.
  intros E. unfold fill_table, exec_create. rewrite <- E.
  destruct (rejects create (v1 !! name)); [done |].
  destruct (v1 !! name) eqn:E1; unfold Ok.
  - apply run_inserts_local. by rewrite E1.
  - apply run_inserts_local. by rewrite !lookup_insert_eq.
Qed.

Lemma fill_table_success_view name create xs v v' :
  v !! name = None →
  fill_table rejects name create xs v = (Ok tt, v') →
  v' = <[name := {| ts_schema := create; ts_rows := xs.*2 |}]> v.
Proof.
  intros Hv Hfill.
  pose proof (fill_table_frame rejects name create xs v) as Hframe.
  pose proof (fill_table_rows rejects name create xs v v' Hv Hfill) as Hrows.
  rewrite Hfill in Hframe. cbn [snd] in Hframe.
  apply map_eq. intros k. destruct (decide (k = name)) as [-> | Hne].
  - by rewrite Hrows, lookup_insert_eq.
  - rewrite lookup_insert_ne by done.
    apply (f_equal (λ m, m !! k)) in Hframe.
    by rewrite !lookup_delete_ne in Hframe.
Qed.

Lemma view_open p d v :
  view {| db_path := p; disk := d; conn := Some v |} = v.
Proof. reflexivity. Qed.

(** A successful conversion, whatever the store it starts from: the result,
    and the store it leaves. *)
Lemma convert_example_success ex st res st1 :
  convert_example hash rejects ex st = (Ok res, st1) →
  ∃ t name create,
    table ex = Some t ∧
    generate_table_name hash ex = Ok name ∧
    generate_create_table_sql ex name = Ok create ∧
    table_name (sqlite_info res) = name ∧
    create_sql (sqlite_info res) = create ∧
    raw_data res = ex ∧
    st1 = {| db_path := db_path st;
             disk := <[name := table_of create t]> (view st);
             conn := Some (<[name := table_of create t]> (view st)) |}.
Proof.
  intros H. destruct (table ex) as [t |] eqn:Ht.
  - destruct (convert_example_run hash rejects ex st t Ht)
      as (name & create & Hn & Hc & E).
    rewrite E in H. clear E.
    destruct (fill_table _ _ _ _ _) as [[e | []] v'] eqn:Hfill; [done |].
    apply fill_table_success_view in Hfill; [| apply lookup_delete_eq].
    rewrite insert_delete_eq in Hfill.
    rewrite snd_zip in Hfill by (by rewrite length_fmap).
    destruct (get_sql ex) as [e | q]; [done |].
    cbn [bind Ok] in H. injection H as <- <-.
    exists t, name, create. repeat split; try done.
    unfold view, table_of. by rewrite Hfill.
  - by rewrite (convert_example_no_table hash rejects ex st Ht) in H.
Qed.

(** Whether a conversion succeeds, and what it returns, does not depend on
    the tables in the store. *)
Lemma convert_example_any_store ex st res st1 st' :
  convert_example hash rejects ex st = (Ok res, st1) →
  db_path st' = db_path st →
  ∃ st1', convert_example hash rejects ex st' = (Ok res, st1').
Proof.
  intros H Hpath. destruct (table ex) as [t |] eqn:Ht.
  - destruct (convert_example_run hash rejects ex st t Ht)
      as (name & create & Hn & Hc & E).
    destruct (convert_example_run hash rejects ex st' t Ht)
      as (name' & create' & Hn' & Hc' & E').
    assert (name' = name) as -> by (unfold Ok in *; congruence).
    assert (create' = create) as -> by (unfold Ok in *; congruence).
    rewrite E in H. rewrite E'. clear E E'.
    set (xs := zip _ _) in *.
    pose proof (fill_table_local name create xs
                  (delete name (default (disk st) (conn st)))
                  (delete name (default (disk st') (conn st')))) as Hloc.
    rewrite !lookup_delete_eq in Hloc. specialize (Hloc eq_refl).
    destruct (fill_table rejects name create xs
                (delete name (default (disk st) (conn st))))
      as [[e | []] v1]; [done |].
    destruct (fill_table rejects name create xs
                (delete name (default (disk st') (conn st'))))
      as [[e | []] v1']; [done |].
    injection H as H _. rewrite Hpath. eexists.
    apply (f_equal2 pair); [exact H | reflexivity].
  - by rewrite (convert_example_no_table hash rejects ex st Ht) in H.
Qed.

(** X1: for an example with a table and a question in ASCII, the table
    name is [ex_] followed by a decimal number below 10000; it is computed
    from the header and the first three words of the question alone, so two
    such examples that agree on these get the same name, whatever their
    types, their rows and the rest of their questions. *)
Theorem table_name_shape (ex : Example) (t : Table) :
  table ex = Some t →
  is_ascii (question ex) = true →
  ∃ n, 0 ≤ n < 10000 ∧
       generate_table_name hash ex = Ok ("ex_" +:+ str_of_Z n) ∧
       ∀ ex' t', table ex' = Some t' → is_ascii (question ex') = true →
         header t' = header t →
         take 3 (split (question ex')) = take 3 (split (question ex)) →
         generate_table_name hash ex' = Ok ("ex_" +:+ str_of_Z n).
Proof.
  intros Ht _.
  exists (Z.abs (hash (header t ++ take 3 (split (question ex)))) `mod` 10000).
  split; [apply Z.mod_pos_bound; lia |]. split.
  - unfold generate_table_name, get_table. by rewrite Ht.
  - intros ex' t' Ht' _ Hh Hq. unfold generate_table_name, get_table.
    rewrite Ht'. cbn [bind Ok]. by rewrite Hh, Hq.
Qed.

(** X2: two examples with the same table name overwrite each other: after
    converting the first and then the second, the table holds the schema and
    the rows of the second only, and no other table has changed. *)
Theorem convert_example_last_writer_wins (ex1 ex2 : Example)
    (st st1 st2 : State) (r1 r2 : ConversionResult) (t2 : Table) :
  generate_table_name hash ex1 = generate_table_name hash ex2 →
  table ex2 = Some t2 →
  convert_example hash rejects ex1 st = (Ok r1, st1) →
  convert_example hash rejects ex2 st1 = (Ok r2, st2) →
  table_name (sqlite_info r1) = table_name (sqlite_info r2) ∧
  view st2 !! table_name (sqlite_info r2)
    = Some (table_of (create_sql (sqlite_info r2)) t2) ∧
  disk st2 = view st2 ∧
  ∀ k, k ≠ table_name (sqlite_info r2) → view st2 !! k = view st1 !! k.
Proof.
  intros Hname Ht2 H1 H2.
  apply convert_example_success in H1
    as (t & n1 & c1 & _ & Hn1 & _ & Hr1 & _ & _ & _).
  apply convert_example_success in H2
    as (t' & n2 & c2 & Ht' & Hn2 & _ & Hr2 & Hc2 & _ & ->).
  assert (t' = t2) as -> by congruence.
  assert (n1 = n2) as -> by (unfold Ok in *; congruence).
  rewrite Hr1, Hr2, Hc2, !view_open. cbn [disk].
  split; [done |]. split; [apply lookup_insert_eq |]. split; [done |].
  intros k Hk. by rewrite lookup_insert_ne.
Qed.


Lemma convert_examples_cons ex rest st :
  convert_examples hash rejects (ex :: rest) st
  = match convert_example hash rejects ex st with
    | (inl e, st1) => (inl e, st1)
    | (inr r, st1) =>
        match convert_examples hash rejects rest st1 with
        | (inl e, st2) => (inl e, st2)
        | (inr rs, st2) => (Ok (r :: rs), st2)
        end
    end.
Proof.
  cbn [convert_examples]. unfold bindM at 1.
  destruct (convert_example hash rejects ex st) as [[e | r] st1]; [done |].
  unfold bindM.
  by destruct (convert_examples hash rejects rest st1) as [[e | rs] st2].
Qed.

(** A successful batch: one result per example, in order. *)
Lemma convert_examples_results exs st rs st1 :
  convert_examples hash rejects exs st = (Ok rs, st1) →
  length rs = length exs ∧
  raw_data <$> rs = exs ∧
  ∀ i ex r, exs !! i = Some ex → rs !! i = Some r →
    raw_data r = ex ∧
    generate_table_name hash ex = Ok (table_name (sqlite_info r)).
Proof.
  revert st rs. induction exs as [| ex exs IH]; intros st rs.
  - intros [= <- <-]. done.
  - rewrite convert_examples_cons.
    destruct (convert_example hash rejects ex st) as [[e | r] sta] eqn:Hex;
      [done |].
    destruct (convert_examples hash rejects exs sta) as [[e | rs'] stb] eqn:Hrest;
      [done |].
    intros [= <- <-].
    destruct (IH _ _ Hrest) as (Hlen & Hraw & Hall).
    apply convert_example_success in Hex
      as (t & name & create & _ & Hn & _ & Hr & _ & Hrd & _).
    split; [cbn; by rewrite Hlen |].
    split; [cbn; by rewrite Hraw, Hrd |].
    intros [| i] ex' r'; cbn.
    + intros [= <-] [= <-]. by rewrite Hr.
    + apply Hall.
Qed.

(** X4: a batch that succeeds returns one result per example, in the order
    of the input; the result at position [i] carries example [i] as its
    [raw_data] and the table name of that example. *)
Theorem convert_examples_in_order (exs : list Example) (st st1 : State)
    (rs : list ConversionResult) :
  convert_examples hash rejects exs st = (Ok rs, st1) →
  length rs = length exs ∧
  raw_data <$> rs = exs ∧
  ∀ i ex r, exs !! i = Some ex → rs !! i = Some r →
    raw_data r = ex ∧
    generate_table_name hash ex = Ok (table_name (sqlite_info r)).
Proof. apply convert_examples_results. Qed.

(** X5: a batch stops at the first example whose conversion raises: the
    exception is that of this example, the store is the one this conversion
    left, and the examples after it are not converted. *)
Theorem convert_examples_aborts (xs ys : list Example) (ex : Example)
    (st st1 st2 : State) (rs : list ConversionResult) (e : exn) :
  convert_examples hash rejects xs st = (Ok rs, st1) →
  convert_example hash rejects ex st1 = (Raise e, st2) →
  convert_examples hash rejects (xs ++ ex :: ys) st = (Raise e, st2).
Proof.
  revert st rs. induction xs as [| x xs IH]; intros st rs.
  - intros [= <- <-] Hex. cbn [app]. rewrite convert_examples_cons.
    by rewrite Hex.
  - rewrite convert_examples_cons. cbn [app]. rewrite convert_examples_cons.
    destruct (convert_example hash rejects x st) as [[e0 | r] sta]; [done |].
    destruct (convert_examples hash rejects xs sta) as [[e0 | rs'] stb] eqn:Hxs;
      [done |].
    intros [= <- <-] Hex. by rewrite (IH _ _ Hxs Hex).
Qed.

(** What a successful batch does to any store with the same path: the same
    results, and the tables [M] it wrote laid over the view. *)
Lemma convert_examples_overlay exs st rs st1 :
  convert_examples hash rejects exs st = (Ok rs, st1) →
  ∃ M : gmap string TableState,
    (exs = [] → M = ∅) ∧
    ∀ st', db_path st' = db_path st →
      convert_examples hash rejects exs st'
      = (Ok rs,
         match exs with
         | [] => st'
         | _ => {| db_path := db_path st';
                   disk := M ∪ view st';
                   conn := Some (M ∪ view st') |}
         end).
Proof.
  revert st rs st1. induction exs as [| ex exs IH]; intros st rs st1.
  - intros [= <- <-]. by exists ∅.
  - rewrite convert_examples_cons.
    destruct (convert_example hash rejects ex st) as [[e | r] sta] eqn:Hex;
      [done |].
    destruct (convert_examples hash rejects exs sta) as [[e | rs'] stb] eqn:Hrest;
      [done |].
    intros [= <- <-].
    destruct (IH _ _ _ Hrest) as (M & Hnil & HM).
    pose proof Hex as Hshape.
    apply convert_example_success in Hshape
      as (t0 & name0 & create0 & Ht0 & Hn0 & Hc0 & _ & _ & _ & Hsta).
    exists (M ∪ {[name0 := table_of create0 t0]}).
    split; [done |]. intros st' Hpath.
    destruct (convert_example_any_store ex st r sta st' Hex Hpath)
      as [sta' Hex'].
    pose proof Hex' as Hshape'.
    apply convert_example_success in Hshape'
      as (t' & name' & create' & Ht' & Hn' & Hc' & _ & _ & _ & Hsta').
    assert (t' = t0) as -> by congruence.
    assert (name' = name0) as -> by (unfold Ok in *; congruence).
    assert (create' = create0) as -> by (unfold Ok in *; congruence).
    rewrite convert_examples_cons, Hex'.
    assert (db_path sta' = db_path sta) as Hpath'.
    { rewrite Hsta', Hsta. cbn. done. }
    rewrite (HM sta' Hpath').
    f_equal.
    assert (M ∪ <[name0 := table_of create0 t0]> (view st')
            = M ∪ {[name0 := table_of create0 t0]} ∪ view st') as Hmap.
    { by rewrite insert_union_singleton_l, (assoc_L (∪)). }
    destruct exs as [| ex' exs'].
    + (* the batch had one example: no overlay from the rest *)
      rewrite (Hnil eq_refl), (left_id_L ∅ (∪)).
      rewrite <- insert_union_singleton_l. by rewrite Hsta'.
    + rewrite Hsta', view_open. cbn [db_path]. by rewrite Hmap.
Qed.

(** X6: a batch that succeeded can be run again: in the store the first run
    left, the same batch returns the same results and leaves the store as
    it is. *)
Theorem convert_examples_idempotent (exs : list Example) (st st1 : State)
    (rs : list ConversionResult) :
  convert_examples hash rejects exs st = (Ok rs, st1) →
  convert_examples hash rejects exs st1 = (Ok rs, st1).
Proof.
  intros H. destruct (convert_examples_overlay exs st rs st1 H) as (M & _ & HM).
  pose proof (HM st eq_refl) as H0. rewrite H in H0.
  destruct exs as [| ex exs].
  - injection H0 as ->. by apply HM.
  - injection H0 as ->. rewrite HM by done. cbn [db_path].
    rewrite view_open. by rewrite (assoc_L (∪)), (idemp_L (∪)).
Qed.

End ConverterFacts.

Section ConverterExamples.

Import PyStr SQLiteConverter Spec Notions.

Lemma table_name_shape_witness :
  ∃ n, 0 ≤ n < 10000 ∧
       generate_table_name (λ _, 123456) scenario_example
         = Ok ("ex_" +:+ str_of_Z n) ∧
       generate_table_name (λ _, 123456) scenario_example = Ok "ex_3456".
Proof.
  destruct (table_name_shape (λ _, 123456) scenario_example
              {| header := ["id"; "name"; "amount"; "date"];
                 types := ["number"; "text"; "real"; "text"];
                 rows := [[VStr "1"; VStr "Alice"; VStr "120.5";
                           VStr "2025-04-01"]] |} eq_refl eq_refl)
    as (n & Hn & Hname & _).
  exists n. split; [exact Hn |]. split; [exact Hname | reflexivity].
Defined.

Lemma convert_example_last_writer_wins_witness :
  ∃ r1 st1 r2 st2,
    convert_example (λ _, 0) (λ _ _, false) scenario_example empty_store
      = (Ok r1, st1) ∧
    convert_example (λ _, 0) (λ _ _, false) tablet_example st1 = (Ok r2, st2) ∧
    table_name (sqlite_info r1) = table_name (sqlite_info r2) ∧
    ts_rows <$> (view st2 !! table_name (sqlite_info r2))
      = Some [[VStr "T1"; VStr "7"]].
Proof.
  destruct (convert_example (λ _, 0) (λ _ _, false) scenario_example
              empty_store) as [[e | r1] st1] eqn:E1;
    [vm_compute in E1; discriminate |].
  destruct (convert_example (λ _, 0) (λ _ _, false) tablet_example st1)
    as [[e | r2] st2] eqn:E2.
  { vm_compute in E1. injection E1 as _ <-. vm_compute in E2. discriminate. }
  destruct (convert_example_last_writer_wins (λ _, 0) (λ _ _, false)
              scenario_example tablet_example empty_store st1 st2 r1 r2
              {| header := ["tablet"; "units"]; types := ["text"; "number"];
                 rows := [[VStr "T1"; VStr "7"]] |}
              eq_refl eq_refl E1 E2) as (Hname & Hrows & _).
  exists r1, st1, r2, st2. split; [reflexivity |]. split; [exact E2 |].
  split; [exact Hname |]. rewrite Hrows. reflexivity.
Defined.


Lemma convert_examples_in_order_witness :
  ∃ rs st1,
    convert_examples (λ _, 0) (λ _ _, false)
      [scenario_example; tablet_example] empty_store = (Ok rs, st1) ∧
    length rs = 2%nat ∧
    raw_data <$> rs = [scenario_example; tablet_example].
Proof.
  destruct (convert_examples (λ _, 0) (λ _ _, false)
              [scenario_example; tablet_example] empty_store)
    as [[e | rs] st1] eqn:E; [vm_compute in E; discriminate |].
  destruct (convert_examples_in_order (λ _, 0) (λ _ _, false)
              [scenario_example; tablet_example] empty_store st1 rs E)
    as (Hlen & Hraw & _).
  exists rs, st1. split; [reflexivity |]. split; [exact Hlen | exact Hraw].
Defined.

Lemma convert_examples_aborts_witness :
  ∃ rs st1 st2,
    convert_examples (λ _, 0) (λ _ _, false) [scenario_example] empty_store
      = (Ok rs, st1) ∧
    convert_examples (λ _, 0) (λ _ _, false)
      ([scenario_example] ++ question_only "q" None :: [tablet_example])
      empty_store
    = (Raise (KeyError "table"), st2) ∧
    ts_rows <$> (view st2 !! "ex_0")
      = Some [[VStr "1"; VStr "Alice"; VStr "120.5"; VStr "2025-04-01"]].
Proof.
  destruct (convert_examples (λ _, 0) (λ _ _, false) [scenario_example]
              empty_store) as [[e | rs] st1] eqn:E;
    [vm_compute in E; discriminate |].
  set (p := convert_example (λ _, 0) (λ _ _, false) (question_only "q" None)
              st1).
  assert (p = (Raise (KeyError "table"), p.2)) as Ep.
  { unfold p. by rewrite (convert_example_no_table (λ _, 0) (λ _ _, false)). }
  exists rs, st1, p.2. split; [reflexivity |]. split.
  - exact (convert_examples_aborts (λ _, 0) (λ _ _, false) [scenario_example]
             [tablet_example] (question_only "q" None) empty_store st1 p.2 rs
             (KeyError "table") E Ep).
  - vm_compute in E. injection E as _ <-. reflexivity.
Defined.

Lemma convert_examples_idempotent_witness :
  ∃ rs st1,
    convert_examples (λ _, 0) (λ _ _, false)
      [scenario_example; tablet_example] empty_store = (Ok rs, st1) ∧
    convert_examples (λ _, 0) (λ _ _, false)
      [scenario_example; tablet_example] st1 = (Ok rs, st1).
Proof.
  destruct (convert_examples (λ _, 0) (λ _ _, false)
              [scenario_example; tablet_example] empty_store)
    as [[e | rs] st1] eqn:E; [vm_compute in E; discriminate |].
  exists rs, st1. split; [reflexivity |].
  exact (convert_examples_idempotent (λ _, 0) (λ _ _, false)
           [scenario_example; tablet_example] empty_store st1 rs E).
Defined.

End ConverterExamples.

(** ** String literals, and the two type tables *)

Section LiteralsAndSchemas.

Import PyStr SQLiteConverter WikiSQLSchemaLoader Spec Notions.

Lemma read_quoted_pair x :
  read_quoted (String "'" (String "'" x))
  = (λ '(v, rest), (String "'" v, rest)) <$> read_quoted x.
Proof. reflexivity. Qed.

Lemma read_quoted_char c x :
  Ascii.eqb c "'" = false →
  read_quoted (String c x) = (λ '(v, rest), (String c v, rest)) <$> read_quoted x.
Proof. intros H. cbn [read_quoted]. by rewrite H. Qed.

Lemma read_quoted_close rest :
  String.prefix "'" rest = false →
  read_quoted (String "'" rest) = Some (EmptyString, rest).
Proof.
  intros H. destruct rest as [| c rest]; [done |].
  rewrite prefix_cons, prefix_nil in H.
  change (read_quoted (String "'" (String c rest)))
    with (if Ascii.eqb c "'"
          then (λ '(v, r), (String "'" v, r)) <$> read_quoted rest
          else Some (EmptyString, String c rest)).
  rewrite (Ascii.eqb_sym c). by destruct (Ascii.eqb "'" c).
Qed.

Lemma read_quoted_doubled s rest :
  String.prefix "'" rest = false →
  read_quoted (double_single_quotes s +:+ "'" +:+ rest) = Some (s, rest).
Proof.
  intros Hrest. induction s as [| c s IH].
  - rewrite string_app_nil_l.
    change ("'" +:+ rest) with (String "'" rest).
    by apply read_quoted_close.
  - cbn [double_single_quotes]. set (R := "'" +:+ rest) in *.
    destruct (Ascii.eqb c "'") eqn:Hc.
    + apply Ascii.eqb_eq in Hc as ->.
      rewrite !string_app_cons, read_quoted_pair. by rewrite IH.
    + rewrite string_app_cons, read_quoted_char by done. by rewrite IH.
Qed.

(** X7: the literal written for a string value reads back as that value:
    read as a single-quoted SQL literal, with two quotes standing for one,
    it ends at its closing quote and nowhere before it, whatever quotes the
    value holds and whatever follows, as long as no quote follows directly
    (in an INSERT statement a comma or a parenthesis does). *)
Theorem sql_literal_round_trip (s rest : string) :
  String.prefix "'" rest = false →
  read_sql_string (sql_literal (VStr s) +:+ rest) = Some (s, rest).
Proof.
  intros Hrest. unfold sql_literal, sq. rewrite replace_single_quote.
  rewrite !string_app_assoc.
  change ("'" +:+ ?x) with (String "'" x) at 1.
  cbn [read_sql_string]. rewrite Ascii.eqb_refl.
  by apply read_quoted_doubled.
Qed.

Lemma sql_literal_round_trip_witness :
  read_sql_string (sql_literal (VStr "O'Brien's ''x''") +:+ ", 'Bob');")
  = Some ("O'Brien's ''x''", ", 'Bob');").
Proof.
  apply (sql_literal_round_trip "O'Brien's ''x''" ", 'Bob');"). reflexivity.
Defined.

(** The text of a column of the CREATE statement, from its schema entry. *)
Lemma column_definitions_of_schema t :
  column_definitions (header t) (types t)
  = (λ c, dq +:+ col_name c +:+ dq +:+ " " +:+ col_type c +:+
            (if is_primary_key c then " PRIMARY KEY" else ""))
      <$> columns_of t.
Proof.
  unfold column_definitions, columns_of. rewrite fmap_imap.
  apply imap_ext. intros i [h ty] _. cbn.
  rewrite get_sql_type_mapped. unfold is_number_tag.
  case_decide as Hd.
  - by rewrite bool_decide_true.
  - rewrite bool_decide_false by done. by rewrite string_app_nil_r.
Qed.

(** X8: the schema loader and the converter agree: for an example with a
    table, the CREATE statement of the converter is the one written from the
    columns of the loader's schema, column by column: the quoted name, the
    type and, for a primary key, [PRIMARY KEY].  The [not_null] flag of the
    schema has no counterpart in the statement. *)
Theorem schema_matches_create_statement (self : Loader) (ex : Example)
    (t : Table) (table_name : string) :
  table ex = Some t →
  ∃ ts,
    load_schema_from_example self ex
      = (Ok {| tables := [ts] |}, {| example := Some ex |}) ∧
    generate_create_table_sql ex table_name
      = Ok ("CREATE TABLE IF NOT EXISTS " +:+ dq +:+ table_name +:+ dq
              +:+ " (" +:+ nl +:+ "  "
              +:+ join ("," +:+ nl +:+ "  ")
                    ((λ c, dq +:+ col_name c +:+ dq +:+ " " +:+ col_type c +:+
                             (if is_primary_key c then " PRIMARY KEY" else ""))
                       <$> columns ts)
              +:+ nl +:+ ");").
Proof.
  intros Ht. eexists. split; [by apply load_schema_from_example_eq |].
  cbn [columns].
  unfold generate_create_table_sql, get_table. rewrite Ht. cbn [bind Ok].
  by rewrite column_definitions_of_schema.
Qed.

Lemma schema_matches_create_statement_witness :
  ∃ ts,
    load_schema_from_example (__init__ None) scenario_example
      = (Ok {| tables := [ts] |}, {| example := Some scenario_example |}) ∧
    generate_create_table_sql scenario_example "t"
      = Ok ("CREATE TABLE IF NOT EXISTS " +:+ dq +:+ "t" +:+ dq
              +:+ " (" +:+ nl +:+ "  "
              +:+ join ("," +:+ nl +:+ "  ")
                    ((λ c, dq +:+ col_name c +:+ dq +:+ " " +:+ col_type c +:+
                             (if is_primary_key c then " PRIMARY KEY" else ""))
                       <$> columns ts)
              +:+ nl +:+ ");").
Proof.
  apply (schema_matches_create_statement (__init__ None) scenario_example
           {| header := ["id"; "name"; "amount"; "date"];
              types := ["number"; "text"; "real"; "text"];
              rows := [[VStr "1"; VStr "Alice"; VStr "120.5";
                        VStr "2025-04-01"]] |} "t").
  reflexivity.
Defined.

End LiteralsAndSchemas.

(** ** The dataset access layer: loading, ids, aliases *)

Section DatasetFacts.

Import PyStr WikiSQLDataset Spec Notions.

Variable load_dataset : nat → result DatasetDict.

Lemma load_dataset_held st d :
  _dataset st = Some d → _load_dataset load_dataset st = (Ok d, st).
Proof. intros H. unfold _load_dataset. by rewrite H. Qed.

Lemma load_dataset_failure st e :
  _dataset st = None → load_dataset (hub_calls st) = Raise e →
  _load_dataset load_dataset st
  = (Raise (RuntimeError ("載入 WikiSQL 資料集失敗: " +:+ str_exn e)),
     {| _dataset := None; data_cache := data_cache st; heap := heap st;
        hub_calls := S (hub_calls st) |}).
Proof. intros H1 H2. unfold _load_dataset. by rewrite H1, H2. Qed.

(** X10: once the dataset is held, the provider is not consulted again:
    [load_split] and [get_example], whatever they return, leave the held
    dataset and the number of calls to the provider as they are. *)
Theorem provider_consulted_once (st st' : State) (d : DatasetDict)
    (split : string) :
  _dataset st = Some d →
  (∀ limit r, load_split load_dataset split limit st = (r, st') →
     _dataset st' = Some d ∧ hub_calls st' = hub_calls st) ∧
  (∀ index r, get_example load_dataset split index st = (r, st') →
     st' = st).
Proof.
  intros Hd. pose proof (load_dataset_held st d Hd) as Hl. split.
  - intros limit r. unfold load_split.
    destruct (data_cache st !! cache_key split limit);
      [by intros [= _ <-] |].
    unfold try_exceptM, bindM. cbv zeta. rewrite Hl. cbn [Ok].
    destruct (lookup_split d (hf_split_of split)); [| by intros [= _ <-]].
    unfold lift. destruct (normalize_all _); [by intros [= _ <-] |].
    unfold store_in_cache. by intros [= _ <-].
  - intros index r. unfold get_example, try_exceptM, bindM. cbv zeta.
    rewrite Hl. cbn [Ok].
    destruct (lookup_split d (hf_split_of split)) as [items |];
      [| by intros [= _ <-]].
    case_decide; [by intros [= _ <-] |].
    destruct (items !! Z.to_nat index) as [item |]; [| by intros [= _ <-]].
    unfold lift. destruct (normalize_id item) as [e |]; [| by intros [= _ <-]].
    destruct e; by intros [= _ <-].
Qed.

(** X11: a failure of the provider is not remembered: the call raises a
    [RuntimeError] that wraps the provider's message twice, once in
    [_load_dataset] and once in the method, no dataset is held afterwards,
    and the next call consults the provider again. *)
Theorem provider_failure_not_held (st : State) (e : exn) (split : string) :
  _dataset st = None → load_dataset (hub_calls st) = Raise e →
  (∀ limit, data_cache st !! cache_key split limit = None →
     load_split load_dataset split limit st
     = (Raise (RuntimeError
                 ("載入 " +:+ split +:+ " 分割失敗: "
                    +:+ "載入 WikiSQL 資料集失敗: " +:+ str_exn e)),
        {| _dataset := None; data_cache := data_cache st; heap := heap st;
           hub_calls := S (hub_calls st) |})) ∧
  (∀ index,
     get_example load_dataset split index st
     = (Raise (RuntimeError
                 ("取得範例失敗: " +:+ "載入 WikiSQL 資料集失敗: "
                    +:+ str_exn e)),
        {| _dataset := None; data_cache := data_cache st; heap := heap st;
           hub_calls := S (hub_calls st) |})).
Proof.
  intros Hd He. pose proof (load_dataset_failure st e Hd He) as Hl. split.
  - intros limit Hmiss. unfold load_split. rewrite Hmiss.
    unfold try_exceptM, bindM. cbv zeta. by rewrite Hl.
  - intros index. unfold get_example, try_exceptM, bindM. cbv zeta.
    by rewrite Hl.
Qed.

Lemma normalize_all_length items data :
  normalize_all items = Ok data → length data = length items.
Proof.
  revert data. induction items as [| x items IH]; intros data.
  - by intros [= <-].
  - cbn [normalize_all]. unfold bind at 1.
    destruct (normalize_id x); [done |]. unfold bind at 1.
    destruct (normalize_all items) as [| data']; [done |].
    intros [= <-]. cbn. by rewrite (IH data').
Qed.

Lemma normalize_all_lookup_inv items data i e :
  normalize_all items = Ok data → data !! i = Some e →
  ∃ item, items !! i = Some item ∧ normalize_id item = Ok e.
Proof.
  intros Hn He.
  assert (i < length items)%nat as Hi.
  { rewrite <- (normalize_all_length _ _ Hn). by eapply lookup_lt_Some. }
  destruct (lookup_lt_is_Some_2 items i Hi) as [item Hitem].
  destruct (normalize_all_lookup items data i item Hn Hitem) as (e' & He' & Hd).
  exists item. split; [done |]. congruence.
Qed.

(** The list a successful [load_split] returns, for any limit. *)
Lemma load_split_content split limit st r st1 d items data :
  cache_ok st → available load_dataset st d →
  lookup_split d (hf_split_of split) = Some items →
  load_split load_dataset split limit st = (Ok r, st1) →
  heap st1 !! r = Some data →
  normalize_all (limited limit items) = Ok data.
Proof.
  intros Hok Hav Hitems Hload Hheap.
  destruct (data_cache st !! cache_key split limit) as [r0 |] eqn:Hc.
  - rewrite (load_split_hit load_dataset _ _ _ _ Hc) in Hload.
    injection Hload as <- <-.
    destruct (cache_content st Hok _ _ _ Hc)
      as (d0 & items0 & data0 & Hd0 & Hi0 & Hn0 & Hh0).
    assert (d0 = d) as ->
      by (apply (available_inj load_dataset st); [by left | done]).
    congruence.
  - apply load_split_miss in Hload
      as (d0 & items0 & data0 & n & Hav0 & Hi0 & Hn0 & -> & ->); [| done].
    assert (d0 = d) as -> by by apply (available_inj load_dataset st).
    cbn [heap] in Hheap. rewrite lookup_app_r, Nat.sub_diag in Hheap by done.
    simplify_eq/=. congruence.
Qed.

(** X12: the list [load_split] returns holds the first examples of the
    split, in the provider's order, each with its [id] coerced: all of them
    without a limit, [min(limit, N)] of them with a limit, and none when the
    limit is zero or negative. *)
Theorem load_split_content_and_length (st st1 : State) (d : DatasetDict)
    (split : string) (limit : option Z) (items data : list Example) (r : ref) :
  cache_ok st → available load_dataset st d →
  lookup_split d (hf_split_of split) = Some items →
  load_split load_dataset split limit st = (Ok r, st1) →
  heap st1 !! r = Some data →
  (limit = None → length data = length items) ∧
  (∀ n, limit = Some n →
     length data = Z.to_nat (Z.min n (Z.of_nat (length items))) ∧
     (n ≤ 0 → data = [])) ∧
  ∀ i e, data !! i = Some e →
    ∃ item, items !! i = Some item ∧ normalize_id item = Ok e.
Proof.
  intros Hok Hav Hitems Hload Hheap.
  pose proof (load_split_content split limit st r st1 d items data
                Hok Hav Hitems Hload Hheap) as Hn.
  pose proof (normalize_all_length _ _ Hn) as Hlen.
  split; [| split].
  - intros ->. by rewrite Hlen.
  - intros n ->. cbn [limited] in Hlen. rewrite length_take in Hlen.
    split; [lia |]. intros Hneg. apply nil_length_inv. lia.
  - intros i e He.
    destruct (normalize_all_lookup_inv _ _ i e Hn He) as (item & Hitem & Hid).
    exists item. split; [| done].
    destruct limit as [n |]; [| done].
    cbn [limited] in Hitem. by apply lookup_take_Some in Hitem as [? _].
Qed.

Lemma normalize_id_facts item e :
  normalize_id item = Ok e →
  has_numeric_id e = false ∧ normalize_id e = Ok e ∧
  question e = question item ∧ table e = table item ∧ sql e = sql item ∧
  (has_numeric_id item = false → e = item).
Proof.
  unfold normalize_id, has_numeric_id.
  destruct (ex_id item) as [[s | | z | b | f] |] eqn:Hid;
    try (intros [= <-]; rewrite ?Hid; cbn; by rewrite ?Hid).
  destruct f as [repr z | neg |]; try done.
  intros [= <-]. by cbn.
Qed.

(** X13: no example that is handed out has a numeric [id]: the examples of
    a list returned by [load_split] and the example returned by
    [get_example] have no [id], a string or [None]; the coercion changes no
    other field, leaves an example without a numeric [id] as it is, and
    applied again changes nothing. *)
Theorem handed_out_ids_are_text (st st' : State) (split : string) :
  (∀ item e, normalize_id item = Ok e →
     has_numeric_id e = false ∧ normalize_id e = Ok e ∧
     question e = question item ∧ table e = table item ∧ sql e = sql item ∧
     (has_numeric_id item = false → e = item)) ∧
  (∀ index e, get_example load_dataset split index st = (Ok e, st') →
     has_numeric_id e = false) ∧
  (∀ limit r data e,
     cache_ok st →
     load_split load_dataset split limit st = (Ok r, st') →
     heap st' !! r = Some data → e ∈ data → has_numeric_id e = false).
Proof.
  split; [apply normalize_id_facts |]. split.
  - intros index e. unfold get_example, try_exceptM, bindM. cbv zeta.
    destruct (_load_dataset load_dataset st) as [[err | d] st0]; [by destruct err |].
    destruct (lookup_split d (hf_split_of split)) as [items |]; [| done].
    case_decide; [done |].
    destruct (items !! Z.to_nat index) as [item |]; [| done].
    unfold lift. destruct (normalize_id item) as [err | e0] eqn:Hn;
      [by destruct err |].
    intros [= <- _]. by apply normalize_id_facts in Hn as [? _].
  - intros limit r data e Hok Hload Hheap [i Hi]%list_elem_of_lookup.
    destruct (load_split_keeps_cache_ok load_dataset _ _ _ _ _ Hok Hload)
      as [Hok' Hkey].
    destruct (cache_content st' Hok' _ _ _ Hkey)
      as (d & items & data' & _ & _ & Hn & Hh).
    assert (data' = data) as -> by congruence.
    destruct (normalize_all_lookup_inv _ _ i e Hn Hi) as (item & _ & Hid).
    by apply normalize_id_facts in Hid as [? _].
Qed.

(** X14: [dev] is another name of the split [validation], but not another
    name of its cache entry: after [load_split('dev', limit)] and
    [load_split('validation', limit)] the cache holds two entries, with two
    different list objects of equal content. *)
Theorem dev_and_validation_cached_apart (st st1 st2 : State)
    (limit : option Z) (r1 r2 : ref) :
  cache_ok st →
  load_split load_dataset "dev" limit st = (Ok r1, st1) →
  load_split load_dataset "validation" limit st1 = (Ok r2, st2) →
  r1 ≠ r2 ∧
  data_cache st2 !! cache_key "dev" limit = Some r1 ∧
  data_cache st2 !! cache_key "validation" limit = Some r2 ∧
  ∃ data, heap st2 !! r1 = Some data ∧ heap st2 !! r2 = Some data.
Proof.
  intros Hok H1 H2.
  destruct (load_split_keeps_cache_ok load_dataset _ _ _ _ _ Hok H1)
    as [Hok1 Hk1].
  destruct (load_split_keeps_cache_ok load_dataset _ _ _ _ _ Hok1 H2)
    as [Hok2 Hk2].
  assert (cache_key "validation" limit ≠ cache_key "dev" limit) as Hkeys.
  { intros [[=] _]%cache_key_inj. }
  assert (data_cache st2 !! cache_key "dev" limit = Some r1) as Hk1'.
  { destruct (data_cache st1 !! cache_key "validation" limit) as [r0 |] eqn:Hc.
    - rewrite (load_split_hit load_dataset _ _ _ _ Hc) in H2.
      by injection H2 as <- <-.
    - apply load_split_miss in H2
        as (d & items & data & n & _ & _ & _ & -> & ->); [| done].
      cbn [data_cache]. by rewrite lookup_insert_ne. }
  split.
  { intros ->. apply Hkeys. by eapply (cache_distinct st2). }
  split; [done |]. split; [done |].
  destruct (cache_content st2 Hok2 _ _ _ Hk1')
    as (d & items & data & Hd & Hi & Hn & Hh).
  destruct (cache_content st2 Hok2 _ _ _ Hk2)
    as (d' & items' & data' & Hd' & Hi' & Hn' & Hh').
  assert (d' = d) as -> by congruence.
  change (hf_split_of "dev") with "validation" in Hi.
  change (hf_split_of "validation") with "validation" in Hi'.
  assert (items' = items) as -> by congruence.
  assert (data' = data) as -> by (unfold Ok in *; congruence).
  by exists data.
Qed.

End DatasetFacts.

(** ** The dataset access layer: search, reports, downloads *)

Section DatasetTools.

Import PyStr WikiSQLDataset Spec Notions.

Variable load_dataset : nat → result DatasetDict.
Variable data_files : string → option (list string).
Variable empty_split_error : exn.
Variable rm_tree : result unit.

Lemma contains_str_spec needle hay :
  contains_str needle hay = true ↔ contains hay needle.
Proof.
  induction hay as [| c hay IH]; cbn [contains_str].
  - split.
    + intros H. destruct needle; [| done]. by exists "", "".
    + intros (pre & post & E). symmetry in E.
      apply string_app_eq_nil in E as [_ E].
      apply string_app_eq_nil in E as [-> _]. done.
  - rewrite orb_true_iff, IH. split.
    + intros [H | (pre & post & ->)].
      * apply prefix_split in H as [rest ->]. by exists "", rest.
      * by exists (String c pre), post.
    + intros (pre & post & E). destruct pre as [| c' pre].
      * left. rewrite string_app_nil_l in E. rewrite E. apply prefix_app.
      * right. rewrite string_app_cons in E. injection E as _ ->.
        by exists pre, post.
Qed.

Lemma load_dataset_keeps_lists st r st' :
  _load_dataset load_dataset st = (r, st') →
  data_cache st' = data_cache st ∧ heap st' = heap st.
Proof.
  unfold _load_dataset. destruct (_dataset st); [by intros [= _ <-] |].
  destruct (load_dataset (hub_calls st)); by intros [= _ <-].
Qed.

Lemma search_examples_run keyword split limit st d items :
  available load_dataset st d →
  lookup_split d (hf_split_of split) = Some items →
  ∃ st', data_cache st' = data_cache st ∧ heap st' = heap st ∧
    search_examples load_dataset keyword split limit st
    = (match normalize_all
               (take (Z.to_nat limit)
                  (filter (λ ex, filter_fn keyword ex = true) items)) with
       | inr res => Ok res
       | inl (ValueError m) => Raise (ValueError m)
       | inl e => Raise (RuntimeError ("搜索範例失敗: " +:+ str_exn e))
       end, st').
Proof.
  intros Hav Hitems.
  destruct (load_dataset_available load_dataset st d Hav) as [n Hl].
  eexists. split; [| split]; [| | unfold search_examples, try_exceptM, bindM;
    cbv zeta; rewrite Hl; cbn [Ok]; rewrite Hitems; unfold lift;
    destruct (normalize_all _) as [[] |]; reflexivity]; done.
Qed.

(** X15: for a keyword and a split whose questions are in ASCII, a search
    that returns gives the first [limit] examples of the split whose
    question contains the keyword, upper and lower case letters taken as
    equal, in the provider's order and with their [id] coerced; with fewer
    than [limit] results every matching example is among them; a limit of
    zero or less gives the empty list; the cache is neither read nor
    written. *)
Theorem search_examples_results (st st' : State) (d : DatasetDict)
    (keyword split : string) (limit : Z) (items res : list Example) :
  available load_dataset st d →
  lookup_split d (hf_split_of split) = Some items →
  is_ascii keyword = true →
  Forall (λ item, is_ascii (question item) = true) items →
  search_examples load_dataset keyword split limit st = (Ok res, st') →
  normalize_all (take (Z.to_nat limit)
                   (filter (λ ex, filter_fn keyword ex = true) items))
    = Ok res ∧
  (length res ≤ Z.to_nat limit)%nat ∧
  (limit ≤ 0 → res = []) ∧
  (∀ e, e ∈ res → contains (lower (question e)) (lower keyword)) ∧
  (∀ item, item ∈ items →
     contains (lower (question item)) (lower keyword) →
     (length res < Z.to_nat limit)%nat →
     ∃ e, normalize_id item = Ok e ∧ e ∈ res) ∧
  data_cache st' = data_cache st ∧ heap st' = heap st.
Proof.
  intros Hav Hitems _ _ Hsearch.
  destruct (search_examples_run keyword split limit st d items Hav Hitems)
    as (st0 & Hc & Hh & E).
  rewrite E in Hsearch. clear E.
  set (matches := filter (λ ex, filter_fn keyword ex = true) items) in *.
  destruct (normalize_all (take (Z.to_nat limit) matches)) as [e | res0] eqn:Hn;
    [by destruct e |].
  injection Hsearch as <- <-.
  pose proof (normalize_all_length _ _ Hn) as Hlen.
  rewrite length_take in Hlen.
  split; [done |]. split; [lia |]. split; [| split; [| split; [| done]]].
  - intros Hneg. apply nil_length_inv. lia.
  - intros e [i Hi]%list_elem_of_lookup.
    destruct (normalize_all_lookup_inv _ _ i e Hn Hi) as (item & Hitem & Hid).
    apply normalize_id_facts in Hid as (_ & _ & -> & _).
    apply lookup_take_Some in Hitem as [Hitem _].
    apply list_elem_of_lookup_2 in Hitem.
    apply list_elem_of_filter in Hitem as [Hm _].
    by apply contains_str_spec.
  - intros item Hin Hcontains Hfew.
    assert (item ∈ matches) as [i Hi]%list_elem_of_lookup.
    { apply list_elem_of_filter. split; [| done].
      by apply contains_str_spec. }
    assert (take (Z.to_nat limit) matches !! i = Some item) as Hi'.
    { rewrite take_ge by lia. done. }
    destruct (normalize_all_lookup _ _ i item Hn Hi') as (e & He & Hres).
    exists e. split; [done |]. by eapply list_elem_of_lookup_2.
Qed.

(** X16: [search_examples] with a split name that the provider does not
    have raises the [ValueError] that lists the valid splits, unchanged; and
    whatever it returns or raises, it leaves the cache and its lists as they
    are. *)
Theorem search_examples_errors (st st' : State) (keyword split : string)
    (limit : Z) (r : result (list Example)) :
  search_examples load_dataset keyword split limit st = (r, st') →
  data_cache st' = data_cache st ∧ heap st' = heap st ∧
  ∀ d, available load_dataset st d →
    lookup_split d (hf_split_of split) = None →
    r = Raise (ValueError (invalid_split_message split (hf_split_of split) d)).
Proof.
  unfold search_examples, try_exceptM, bindM. cbv zeta.
  destruct (_load_dataset load_dataset st) as [[e | d0] st0] eqn:Hl.
  - apply load_dataset_keeps_lists in Hl as Hkeep. destruct Hkeep as [Hc Hh].
    intros Hr.
    assert (st' = st0) as ->. { by destruct e; injection Hr as _ <-. }
    split; [done |]. split; [done |].
    intros d Hav _.
    destruct (load_dataset_available load_dataset st d Hav) as [n Hl'].
    rewrite Hl in Hl'. done.
  - apply load_dataset_keeps_lists in Hl as Hkeep. destruct Hkeep as [Hc Hh].
    apply load_dataset_inv in Hl as [Hav0 _].
    destruct (lookup_split d0 (hf_split_of split)) as [items |] eqn:Hitems.
    + unfold lift. intros Hr.
      assert (st' = st0) as ->.
      { destruct (normalize_all _) as [[] |]; by injection Hr as _ <-. }
      split; [done |]. split; [done |]. intros d Hav Hnone.
      assert (d = d0) as -> by by apply (available_inj load_dataset st).
      congruence.
    + intros [= <- <-]. split; [done |]. split; [done |]. intros d Hav _.
      by assert (d = d0) as -> by by apply (available_inj load_dataset st).
Qed.

(** *** Dictionaries in insertion order *)

Lemma dict_get_set {V} (k k' : string) (v : V) (l : list (string * V)) :
  dict_get (dict_set k v l) k' = if decide (k = k') then Some v else dict_get l k'.
Proof.
  induction l as [| [k0 v0] l IH]; cbn [dict_set dict_get].
  - done.
  - destruct (decide (k0 = k)) as [-> | Hne]; cbn [dict_get].
    + by destruct (decide (k = k')).
    + rewrite IH. destruct (decide (k0 = k')) as [-> | ?]; [| done].
      by rewrite decide_False.
Qed.

Lemma dict_set_fresh {V} (k : string) (v : V) (l : list (string * V)) :
  k ∉ l.*1 → dict_set k v l = l ++ [(k, v)].
Proof.
  induction l as [| [k0 v0] l IH]; [done |]. cbn.
  intros Hk%not_elem_of_cons. destruct Hk as [Hne Hk].
  rewrite decide_False by done. by rewrite IH.
Qed.

Lemma dict_get_elem {V} (k : string) (v : V) (l : list (string * V)) :
  NoDup l.*1 → (k, v) ∈ l → dict_get l k = Some v.
Proof.
  induction l as [| [k0 v0] l IH]; [by intros _ ?%elem_of_nil |].
  cbn. intros [Hk0 Hnd]%NoDup_cons [[= -> ->] | Hin]%elem_of_cons.
  - by rewrite decide_True.
  - rewrite decide_False; [by apply IH |].
    intros ->. apply Hk0. apply list_elem_of_fmap. by exists (k, v).
Qed.

Lemma lookup_split_elem k items (d : DatasetDict) :
  NoDup (keys d) → (k, items) ∈ d → lookup_split d k = Some items.
Proof.
  unfold keys.
  induction d as [| [k0 v0] d IH]; [by intros _ ?%elem_of_nil |].
  cbn. intros [Hk0 Hnd]%NoDup_cons [[= -> ->] | Hin]%elem_of_cons.
  - by rewrite decide_True.
  - rewrite decide_False; [by apply IH |].
    intros ->. apply Hk0. apply list_elem_of_fmap. by exists (k, items).
Qed.

Lemma api_split_of_round_trip k : k ≠ "dev" → hf_split_of (api_split_of k) = k.
Proof.
  intros Hk. unfold api_split_of, hf_split_of.
  destruct (decide (k = "validation")) as [-> | ?]; [done |].
  by rewrite decide_False.
Qed.

Lemma splits_info_loop_fresh (d : DatasetDict) info :
  NoDup (info.*1 ++ (api_split_of <$> keys d)) →
  splits_info_loop data_files empty_split_error d info
  = info ++ ((λ '(k, items), (api_split_of k, split_report data_files k items))
               <$> d).
Proof.
  revert info. induction d as [| [k items] d IH]; intros info Hnd.
  - by rewrite app_nil_r.
  - cbn [splits_info_loop fmap list_fmap].
    fold (api_split_of k).
    assert (api_split_of k ∉ info.*1) as Hfresh.
    { cbn in Hnd. apply NoDup_app in Hnd as (_ & Hdisj & _).
      intros Hin. apply (Hdisj _ Hin). by left. }
    rewrite dict_set_fresh by done.
    rewrite IH.
    + rewrite <- app_assoc. cbn. do 3 f_equal.
      unfold split_report. by destruct items.
    + rewrite fmap_app. cbn. rewrite <- app_assoc. exact Hnd.
Qed.

(** X17: for a provider whose split names are distinct and do not include
    [dev], [get_splits_info] reports every split once, in the provider's
    order, [validation] under the name [dev] and the others under their own
    name; the reported name leads back to the split when it is passed to
    [load_split] or [get_example]; the entry gives the number of examples,
    and its status is [downloaded] except for a split without examples,
    which is reported as [loading_error]. *)
Theorem splits_info_report (st : State) (d : DatasetDict) :
  available load_dataset st d → NoDup (keys d) → "dev" ∉ keys d →
  ∃ info st',
    get_splits_info load_dataset data_files empty_split_error st
      = (Ok info, st') ∧
    info.*1 = api_split_of <$> keys d ∧
    ∀ k items, (k, items) ∈ d →
      dict_get info (api_split_of k) = Some (split_report data_files k items) ∧
      hf_split_of (api_split_of k) = k ∧
      lookup_split d (hf_split_of (api_split_of k)) = Some items ∧
      (items = [] →
         status (split_report data_files k items) = "loading_error").
Proof.
  intros Hav Hnd Hdev.
  destruct (load_dataset_available load_dataset st d Hav) as [n Hl].
  assert (NoDup (api_split_of <$> keys d)) as Hnd'.
  { apply NoDup_fmap_2_strong; [| done].
    intros k1 k2 H1 H2 E.
    rewrite <- (api_split_of_round_trip k1), <- (api_split_of_round_trip k2);
      [by rewrite E | by intros -> | by intros ->]. }
  eexists _, _. split; [| split].
  - unfold get_splits_info, try_exceptM, bindM, ret. rewrite Hl. cbn [Ok].
    rewrite splits_info_loop_fresh by done. reflexivity.
  - rewrite app_nil_l. unfold keys. rewrite <- !list_fmap_compose.
    apply list_fmap_ext. by intros _ [k items] _.
  - intros k items Hin. rewrite app_nil_l.
    assert (k ≠ "dev") as Hk.
    { intros ->. apply Hdev. apply list_elem_of_fmap. by exists ("dev", items). }
    split; [| split; [by apply api_split_of_round_trip | split]].
    + apply dict_get_elem.
      * rewrite <- list_fmap_compose.
        assert ((fst ∘ (λ '(k, items),
                   (api_split_of k, split_report data_files k items)))
                  <$> d = api_split_of <$> keys d) as ->; [| done].
        unfold keys. rewrite <- list_fmap_compose.
        apply list_fmap_ext. by intros _ [??] _.
      * apply list_elem_of_fmap. by exists (k, items).
    + rewrite api_split_of_round_trip by done. by apply lookup_split_elem.
    + by intros ->.
Qed.

(** *** Downloads *)

Lemma filter_none {A} (P : A → Prop) `{∀ x, Decision (P x)} (l : list A) :
  (∀ x, x ∈ l → ¬ P x) → filter P l = [].
Proof.
  intros Hnone. destruct (filter P l) as [| x xs] eqn:E; [done |].
  assert (x ∈ filter P l) as Hx by (rewrite E; by left).
  apply list_elem_of_filter in Hx as [HP Hin]. by destruct (Hnone x Hin).
Qed.

Lemma download_loop_all_present (d : DatasetDict) names acc :
  (∀ n, n ∈ names → ∃ items, lookup_split d n = Some items ∧ items ≠ []) →
  ∃ res,
    download_loop data_files empty_split_error d names acc = Ok res ∧
    ∀ k, dict_get res k
         = if decide (k ∈ names) then Some (download_path data_files k)
           else dict_get acc k.
Proof.
  revert acc. induction names as [| n names IH]; intros acc Hall.
  - exists acc. split; [done |]. intros k.
    by rewrite decide_False by apply not_elem_of_nil.
  - destruct (Hall n) as (items & Hn & Hne); [by left |].
    cbn [download_loop]. rewrite Hn.
    destruct items as [| item items]; [done |]. cbn [first_item bind Ok].
    fold (download_path data_files n).
    destruct (IH (dict_set n (download_path data_files n) acc))
      as (res & Hres & Hget); [intros; apply Hall; by right |].
    exists res. split; [done |]. intros k. rewrite Hget, dict_get_set.
    destruct (decide (k ∈ names)) as [Hin | Hnin].
    + by rewrite decide_True by by right.
    + destruct (decide (n = k)) as [-> | Hne'].
      * by rewrite decide_True by by left.
      * rewrite decide_False; [done |].
        by intros [-> | ?]%elem_of_cons.
Qed.

Lemma download_loop_empty_split (d : DatasetDict) names acc :
  (∀ n, n ∈ names → is_Some (lookup_split d n)) →
  (∃ n, n ∈ names ∧ lookup_split d n = Some []) →
  download_loop data_files empty_split_error d names acc
  = Raise empty_split_error.
Proof.
  revert acc. induction names as [| n names IH]; intros acc Hall Hex.
  - destruct Hex as (n & Hn & _). by apply elem_of_nil in Hn.
  - destruct (Hall n) as [items Hn]; [by left |].
    cbn [download_loop]. rewrite Hn.
    destruct items as [| item items]; [done |]. cbn [first_item bind Ok].
    apply IH; [intros; apply Hall; by right |].
    destruct Hex as (n' & Hin & Hempty).
    apply elem_of_cons in Hin as [-> | Hin]; [congruence |]. eauto.
Qed.

Lemma lookup_split_keys (d : DatasetDict) k :
  k ∈ keys d → is_Some (lookup_split d k).
Proof.
  unfold keys. induction d as [| [k0 v0] d IH]; [by intros ?%elem_of_nil |].
  cbn. intros [-> | Hin]%elem_of_cons.
  - by rewrite decide_True.
  - destruct (decide (k0 = k)); [done |]. by apply IH.
Qed.

Lemma download_dataset_run has_data_root splits st d :
  available load_dataset st d →
  filter (λ n, lookup_split d n = None) (requested d splits) = [] →
  ∃ st',
    download_dataset load_dataset data_files empty_split_error rm_tree
      has_data_root splits false st
    = (match download_loop data_files empty_split_error d
               (requested d splits) [] with
       | inr res => Ok res
       | inl e => Raise (RuntimeError ("下載 WikiSQL 資料集失敗: " +:+ str_exn e))
       end, st').
Proof.
  intros Hav Hvalid.
  destruct (load_dataset_available load_dataset st d Hav) as [n Hl].
  unfold download_dataset, try_exceptM. cbn [andb].
  unfold bindM at 1 2. unfold ret at 1. rewrite Hl. cbn [Ok].
  unfold bindM, lift.
  destruct splits as [names |]; cbn [requested] in *.
  - rewrite Hvalid. unfold ret. cbn [Ok].
    destruct (download_loop _ _ _ _ _); by eexists.
  - unfold ret. cbn [Ok]. destruct (download_loop _ _ _ _ _); by eexists.
Qed.

(** X18: a download that is not forced succeeds when every requested split
    (every split of the provider, when none is named) exists and has at
    least one example; the result then maps each requested name, once, to
    the cache file of the split, or to a placeholder path when the provider
    names no file. *)
Theorem download_dataset_paths (st : State) (d : DatasetDict)
    (has_data_root : bool) (splits : option (list string)) :
  available load_dataset st d →
  (∀ n, n ∈ requested d splits →
     ∃ items, lookup_split d n = Some items ∧ items ≠ []) →
  ∃ res st',
    download_dataset load_dataset data_files empty_split_error rm_tree
      has_data_root splits false st = (Ok res, st') ∧
    ∀ k, dict_get res k
         = if decide (k ∈ requested d splits)
           then Some (download_path data_files k) else None.
Proof.
  intros Hav Hall.
  destruct (download_dataset_run has_data_root splits st d Hav) as [st' E].
  { apply filter_none. intros n Hn.
    destruct (Hall n Hn) as (items & -> & _). done. }
  destruct (download_loop_all_present d (requested d splits) [] Hall)
    as (res & Hres & Hget).
  rewrite Hres in E. by exists res, st'.
Qed.

(** X19: a download fails with a [RuntimeError] in two cases.  A requested
    name that is not a split of the provider, [dev] included since this
    method does not translate it, gives the message that lists the unknown
    names and the valid ones, wrapped; the text of the message is given for
    names, requested and valid, of printable ASCII characters.  A requested
    split without examples,
    all names being valid, gives the provider's error on its first example,
    wrapped; without named splits this happens as soon as the provider has
    one split without examples. *)
Theorem download_dataset_failures (st : State) (d : DatasetDict)
    (has_data_root : bool) :
  available load_dataset st d →
  (∀ names,
     Forall (λ n, printable n = true) (names ++ keys d) →
     filter (λ n, lookup_split d n = None) names ≠ [] →
     ∃ st', download_dataset load_dataset data_files empty_split_error rm_tree
              has_data_root (Some names) false st
            = (Raise (RuntimeError
                        ("下載 WikiSQL 資料集失敗: "
                           +:+ invalid_splits_message
                                 (filter (λ n, lookup_split d n = None) names)
                                 d)),
               st')) ∧
  (∀ names, "dev" ∈ names → lookup_split d "dev" = None →
     ∃ msg st', download_dataset load_dataset data_files empty_split_error
                  rm_tree has_data_root (Some names) false st
                = (Raise (RuntimeError msg), st')) ∧
  (∀ splits,
     (∀ n, n ∈ requested d splits → is_Some (lookup_split d n)) →
     (∃ n, n ∈ requested d splits ∧ lookup_split d n = Some []) →
     ∃ st', download_dataset load_dataset data_files empty_split_error rm_tree
              has_data_root splits false st
            = (Raise (RuntimeError
                        ("下載 WikiSQL 資料集失敗: "
                           +:+ str_exn empty_split_error)),
               st')).
Proof.
  intros Hav.
  destruct (load_dataset_available load_dataset st d Hav) as [n Hl].
  assert (∀ names,
     filter (λ n, lookup_split d n = None) names ≠ [] →
     ∃ st', download_dataset load_dataset data_files empty_split_error rm_tree
              has_data_root (Some names) false st
            = (Raise (RuntimeError
                        ("下載 WikiSQL 資料集失敗: "
                           +:+ invalid_splits_message
                                 (filter (λ n, lookup_split d n = None) names)
                                 d)),
               st')) as Hinvalid.
  { intros names Hbad.
    unfold download_dataset, try_exceptM. cbn [andb].
    unfold bindM at 1 2. unfold ret at 1. rewrite Hl. cbn [Ok].
    unfold bindM.
    destruct (filter (λ n, lookup_split d n = None) names) as [| bad rest];
      [done |].
    by eexists. }
  split; [intros names _; exact (Hinvalid names) |]. split.
  - intros names Hdev Hnone.
    destruct (Hinvalid names) as [st' E]; [| by eexists _, _].
    intros Hnil.
    assert ("dev" ∈ filter (λ n, lookup_split d n = None) names) as Hin
      by by apply list_elem_of_filter.
    rewrite Hnil in Hin. by apply elem_of_nil in Hin.
  - intros splits Hvalid Hempty.
    destruct (download_dataset_run has_data_root splits st d Hav) as [st' E].
    { apply filter_none. intros k Hk.
      destruct (Hvalid k Hk) as [items ->]. done. }
    rewrite (download_loop_empty_split d _ [] Hvalid Hempty) in E.
    by exists st'.
Qed.

(** X20: a forced download, on an instance built with a [data_root] and
    when the removal of the cache directory succeeds, consults the provider
    again even if a dataset is held, but leaves the cache of [load_split] as
    it is: every key that was cached still returns the list object stored
    before the download. *)
Theorem forced_download_keeps_cache (st st' : State)
    (splits : option (list string)) (r : result (list (string * string))) :
  rm_tree = Ok tt →
  download_dataset load_dataset data_files empty_split_error rm_tree
    true splits true st = (r, st') →
  hub_calls st' = S (hub_calls st) ∧
  data_cache st' = data_cache st ∧ heap st' = heap st ∧
  ∀ split limit r0,
    data_cache st !! cache_key split limit = Some r0 →
    load_split load_dataset split limit st' = (Ok r0, st').
Proof.
  intros Hrm. unfold download_dataset, try_exceptM. cbn [andb].
  unfold bindM at 1 2 3. unfold lift at 1. rewrite Hrm. cbn [Ok].
  unfold _load_dataset at 1. cbn [_dataset hub_calls data_cache heap].
  intros H.
  assert (hub_calls st' = S (hub_calls st) ∧
          data_cache st' = data_cache st ∧ heap st' = heap st) as (H1 & H2 & H3).
  { destruct (load_dataset (hub_calls st)) as [e | d].
    - by injection H as _ <-.
    - unfold bindM, lift, ret, raise in H. cbn [Ok] in H.
      destruct splits as [names |].
      + destruct (filter (λ name, lookup_split d name = None) names);
          [| by injection H as _ <-].
        cbn [Ok] in H.
        destruct (download_loop _ _ _ _ _); by injection H as _ <-.
      + cbn [Ok] in H.
        destruct (download_loop _ _ _ _ _); by injection H as _ <-. }
  split; [done |]. split; [done |]. split; [done |].
  intros split limit r0 Hk. apply load_split_hit. by rewrite H2.
Qed.

End DatasetTools.

Section DatasetToolsExamples.

Import PyStr WikiSQLDataset Spec Notions.

Lemma provider_consulted_once_witness :
  (get_example hub "dev" 1 loaded).2 = loaded ∧
  hub_calls (load_split hub "dev" (Some 2) loaded).2 = 1%nat.
Proof.
  destruct (provider_consulted_once hub loaded
              (get_example hub "dev" 1 loaded).2 three_splits "dev" eq_refl)
    as [_ Hget].
  destruct (provider_consulted_once hub loaded
              (load_split hub "dev" (Some 2) loaded).2 three_splits "dev"
              eq_refl) as [Hload _].
  split.
  - exact (Hget 1 _ (surjective_pairing _)).
  - exact (proj2 (Hload (Some 2) _ (surjective_pairing _))).
Defined.

Lemma provider_failure_not_held_witness :
  get_example offline "train" 0 __init__
  = (Raise (RuntimeError "取得範例失敗: 載入 WikiSQL 資料集失敗: offline"),
     {| _dataset := None; data_cache := ∅; heap := []; hub_calls := 1 |}).
Proof.
  exact (proj2 (provider_failure_not_held offline __init__
                  (OtherError "offline") "train" eq_refl eq_refl) 0).
Defined.

Lemma load_split_content_and_length_witness :
  heap (load_split hub "dev" (Some 2) __init__).2 !! 0%nat
    = Some [question_only "v0" None; question_only "v1" None] ∧
  length [question_only "v0" None; question_only "v1" None] = 2%nat ∧
  ∀ data,
    heap (load_split hub "dev" (Some (-1)) __init__).2 !! 0%nat = Some data →
    data = [].
Proof.
  split; [reflexivity |]. split.
  - destruct (load_split_content_and_length hub __init__
                (load_split hub "dev" (Some 2) __init__).2 three_splits
                "dev" (Some 2)
                [question_only "v0" None; question_only "v1" None;
                 question_only "v2" None; question_only "v3" None]
                [question_only "v0" None; question_only "v1" None]
                0%nat cache_ok_init (or_intror (conj eq_refl eq_refl))
                eq_refl eq_refl eq_refl) as (_ & Hlen & _).
    exact (proj1 (Hlen 2 eq_refl)).
  - intros data Hdata.
    destruct (load_split_content_and_length hub __init__
                (load_split hub "dev" (Some (-1)) __init__).2 three_splits
                "dev" (Some (-1))
                [question_only "v0" None; question_only "v1" None;
                 question_only "v2" None; question_only "v3" None]
                data 0%nat cache_ok_init (or_intror (conj eq_refl eq_refl))
                eq_refl eq_refl Hdata) as (_ & Hlen & _).
    apply (Hlen (-1) eq_refl). lia.
Defined.

Lemma handed_out_ids_are_text_witness :
  ∃ e st', get_example hub "train" 1 __init__ = (Ok e, st') ∧
           ex_id e = Some (VStr "7") ∧ has_numeric_id e = false.
Proof.
  destruct (get_example hub "train" 1 __init__) as [[err | e] st'] eqn:E;
    [vm_compute in E; discriminate |].
  destruct (handed_out_ids_are_text hub __init__ st' "train") as (_ & Hget & _).
  exists e, st'. split; [reflexivity |]. split.
  - vm_compute in E. by injection E as <- _.
  - exact (Hget 1 e E).
Defined.

Lemma dev_and_validation_cached_apart_witness :
  ∃ r1 st1 r2 st2,
    load_split hub "dev" (Some 2) __init__ = (Ok r1, st1) ∧
    load_split hub "validation" (Some 2) st1 = (Ok r2, st2) ∧
    r1 ≠ r2 ∧
    ∃ data, heap st2 !! r1 = Some data ∧ heap st2 !! r2 = Some data.
Proof.
  destruct (load_split hub "dev" (Some 2) __init__) as [[err | r1] st1] eqn:E1;
    [vm_compute in E1; discriminate |].
  destruct (load_split hub "validation" (Some 2) st1) as [[err | r2] st2] eqn:E2.
  { vm_compute in E1. injection E1 as _ <-. vm_compute in E2. discriminate. }
  destruct (dev_and_validation_cached_apart hub __init__ st1 st2 (Some 2)
              r1 r2 cache_ok_init E1 E2) as (Hne & _ & _ & Hdata).
  exists r1, st1, r2, st2. split; [reflexivity |]. split; [exact E2 |].
  split; [exact Hne | exact Hdata].
Defined.

Lemma search_examples_results_witness :
  ∃ res st',
    search_examples hub "Q" "train" 2 __init__ = (Ok res, st') ∧
    (length res ≤ 2)%nat ∧
    (∀ e, e ∈ res → contains (lower (question e)) "q") ∧
    data_cache st' = ∅.
Proof.
  destruct (search_examples hub "Q" "train" 2 __init__)
    as [[err | res] st'] eqn:E; [vm_compute in E; discriminate |].
  destruct (search_examples_results hub __init__ st' three_splits "Q" "train"
              2 [question_only "q0" None;
                 question_only "q1" (Some (VInt 7));
                 question_only "q2" (Some (VFloat (Finite "2.5" 2)))]
              res (or_intror (conj eq_refl eq_refl)) eq_refl eq_refl
              ltac:(repeat constructor) E)
    as (_ & Hlen & _ & Hall & _ & Hcache & _).
  exists res, st'. split; [reflexivity |]. split; [exact Hlen |].
  split; [exact Hall | exact Hcache].
Defined.

Lemma search_examples_errors_witness :
  (search_examples hub "q" "nonexistent" 5 __init__).1
  = Raise (ValueError
             (invalid_split_message "nonexistent" "nonexistent" three_splits)).
Proof.
  destruct (search_examples_errors hub __init__
              (search_examples hub "q" "nonexistent" 5 __init__).2
              "q" "nonexistent" 5
              (search_examples hub "q" "nonexistent" 5 __init__).1
              (surjective_pairing _)) as (_ & _ & Herr).
  apply (Herr three_splits); [right; split |]; reflexivity.
Defined.

Lemma three_splits_distinct :
  NoDup (keys three_splits) ∧ "dev" ∉ keys three_splits.
Proof.
  split.
  - apply (bool_decide_unpack _). vm_compute. exact I.
  - apply (bool_decide_unpack _). vm_compute. exact I.
Qed.

Lemma splits_info_report_witness :
  ∃ info st',
    get_splits_info hub files (IndexError "empty") __init__ = (Ok info, st') ∧
    info.*1 = ["train"; "dev"; "test"] ∧
    status <$> dict_get info "test" = Some "loading_error" ∧
    hf_split <$> dict_get info "dev" = Some "validation".
Proof.
  destruct (splits_info_report hub files (IndexError "empty") __init__
              three_splits (or_intror (conj eq_refl eq_refl))
              (proj1 three_splits_distinct) (proj2 three_splits_distinct))
    as (info & st' & E & Hkeys & Hall).
  exists info, st'. split; [exact E |]. split; [exact Hkeys |]. split.
  - destruct (Hall "test" []) as (Hget & _).
    { unfold three_splits. do 2 right. left. }
    change (api_split_of "test") with "test" in Hget.
    by rewrite Hget.
  - destruct (Hall "validation"
                [question_only "v0" None; question_only "v1" None;
                 question_only "v2" None; question_only "v3" None])
      as (Hget & _).
    { unfold three_splits. right. left. }
    change (api_split_of "validation") with "dev" in Hget.
    by rewrite Hget.
Defined.

Lemma download_dataset_paths_witness :
  ∃ res st',
    download_dataset hub files (IndexError "empty") (Ok tt) false
      (Some ["train"; "validation"; "train"]) false __init__ = (Ok res, st') ∧
    dict_get res "train" = Some "train.arrow" ∧
    dict_get res "validation" = Some "<內部快取>/validation" ∧
    dict_get res "test" = None.
Proof.
  destruct (download_dataset_paths hub files (IndexError "empty") (Ok tt)
              __init__ three_splits false
              (Some ["train"; "validation"; "train"])
              (or_intror (conj eq_refl eq_refl)))
    as (res & st' & E & Hget).
  { intros n Hn. cbn [requested] in Hn.
    apply elem_of_cons in Hn as [-> | Hn]; [eexists; by split |].
    apply elem_of_cons in Hn as [-> | Hn]; [eexists; by split |].
    apply list_elem_of_singleton in Hn as ->. eexists; by split. }
  exists res, st'. split; [exact E |].
  split; [| split]; rewrite Hget; reflexivity.
Defined.

Lemma download_dataset_failures_witness :
  (∃ st',
     download_dataset hub files (IndexError "empty") (Ok tt) false
       (Some ["train"; "dev"]) false __init__
     = (Raise (RuntimeError
                 ("下載 WikiSQL 資料集失敗: "
                    +:+ invalid_splits_message ["dev"] three_splits)),
        st')) ∧
  (∃ msg st',
     download_dataset hub files (IndexError "empty") (Ok tt) false
       (Some ["validation"; "dev"]) false __init__
     = (Raise (RuntimeError msg), st')) ∧
  (∃ st',
     download_dataset hub files (IndexError "empty") (Ok tt) false
       None false __init__
     = (Raise (RuntimeError "下載 WikiSQL 資料集失敗: empty"), st')).
Proof.
  destruct (download_dataset_failures hub files (IndexError "empty") (Ok tt)
              __init__ three_splits false (or_intror (conj eq_refl eq_refl)))
    as (Hinvalid & Hdev & Hempty).
  split; [| split].
  - apply (Hinvalid ["train"; "dev"]); [repeat constructor |].
    vm_compute. discriminate.
  - apply (Hdev ["validation"; "dev"]); [by right; left | reflexivity].
  - apply (Hempty None).
    + intros n Hn. by apply lookup_split_keys.
    + exists "test". split; [| reflexivity].
      apply (bool_decide_unpack _). vm_compute. exact I.
Defined.

Lemma forced_download_keeps_cache_witness :
  let st := (load_split hub "dev" (Some 2) __init__).2 in
  let st' := (download_dataset hub files (IndexError "empty") (Ok tt) true
                (Some ["train"]) true st).2 in
  hub_calls st' = 2%nat ∧
  load_split hub "dev" (Some 2) st' = (Ok 0%nat, st').
Proof.
  intros st st'.
  destruct (forced_download_keeps_cache hub files (IndexError "empty") (Ok tt)
              st st' (Some ["train"])
              (download_dataset hub files (IndexError "empty") (Ok tt) true
                 (Some ["train"]) true st).1
              eq_refl (surjective_pairing _)) as (Hcalls & _ & _ & Hserve).
  split; [exact Hcalls |].
  apply (Hserve "dev" (Some 2) 0%nat). reflexivity.
Defined.

End DatasetToolsExamples.

(** ** The evaluation script: schema text and query comparison *)

Section EvaluationFacts.

Import PyStr Evaluate Spec Notions.

Lemma script_type_lookup tag :
  default "TEXT" (type_mapping !! tag) = script_type tag.
Proof.
  unfold type_mapping, script_type.
  rewrite !lookup_insert, lookup_empty.
  repeat case_decide; subst; try done.
Qed.

(** X21: [format_schema] reports a problem in its result, and the report
    cannot be mistaken: the result starts with [Error:] exactly when a key is
    missing or the numbers of names and types differ, and with
    [CREATE TABLE table (] otherwise, whatever the column names are. *)
Theorem format_schema_error_prefix (table_data : option TableData) :
  (valid_table_data table_data →
     startswith (format_schema table_data) "CREATE TABLE table (" = true ∧
     startswith (format_schema table_data) "Error:" = false) ∧
  (¬ valid_table_data table_data →
     startswith (format_schema table_data) "Error:" = true ∧
     (format_schema table_data = "Error: Invalid table data format." ∨
      format_schema table_data = "Error: Header and types length mismatch.")).
Proof.
  split.
  - intros (header & types & -> & Hlen). unfold format_schema.
    cbn [td_header td_types]. rewrite decide_False by (intros ?; done).
    split; [apply prefix_app | reflexivity].
  - intros Hinvalid. destruct table_data as [[[header |] [types |]] |];
      try (split; [reflexivity | by left]).
    unfold format_schema. cbn [td_header td_types].
    destruct (decide (length header ≠ length types)) as [Hne | Heq].
    + split; [reflexivity | by right].
    + destruct Hinvalid. exists header, types. split; [done |].
      by destruct (decide (length header = length types)).
Qed.

Lemma format_schema_error_prefix_witness :
  startswith (format_schema
                (Some {| td_header := Some ["Error:"; "b"];
                         td_types := Some ["text"; "real"] |}))
             "Error:" = false ∧
  format_schema (Some {| td_header := Some ["a"; "b"];
                         td_types := Some ["text"] |})
  = "Error: Header and types length mismatch.".
Proof.
  split.
  - apply (format_schema_error_prefix
             (Some {| td_header := Some ["Error:"; "b"];
                      td_types := Some ["text"; "real"] |})).
    exists ["Error:"; "b"], ["text"; "real"]. by split.
  - reflexivity.
Defined.

(** X22: for valid table data the schema text has one line per column, in
    the order of the header: four spaces, the quoted name and the type of
    the script's own table, which reads the tag as it is written and gives
    [NUMBER] for [number]; nothing follows the type, and no column is
    dropped. *)
Theorem format_schema_columns (header types : list string) :
  length header = length types →
  ∃ defs,
    format_schema (Some {| td_header := Some header; td_types := Some types |})
    = "CREATE TABLE table (" +:+ nl +:+ join ("," +:+ nl) defs
        +:+ nl +:+ ");" ∧
    length defs = length header ∧
    ∀ i h ty, header !! i = Some h → types !! i = Some ty →
      defs !! i = Some ("    " +:+ dq +:+ h +:+ dq +:+ " " +:+ script_type ty).
Proof.
  intros Hlen. eexists. split; [| split].
  - unfold format_schema. cbn [td_header td_types].
    rewrite decide_False by (intros ?; done). reflexivity.
  - rewrite length_fmap, length_zip. lia.
  - intros i h ty Hh Hty. rewrite list_lookup_fmap.
    assert (zip header types !! i = Some (h, ty)) as ->
      by (apply lookup_zip_with_Some; by exists h, ty).
    cbn [fmap option_fmap option_map]. unfold column_def. cbv zeta.
    by rewrite script_type_lookup, !string_app_assoc.
Qed.

Lemma format_schema_columns_witness :
  ∃ defs,
    format_schema (Some {| td_header := Some ["id"; "when"];
                           td_types := Some ["number"; "Date"] |})
    = "CREATE TABLE table (" +:+ nl +:+ join ("," +:+ nl) defs
        +:+ nl +:+ ");" ∧
    length defs = 2%nat ∧
    defs !! 0%nat = Some ("    " +:+ dq +:+ "id" +:+ dq +:+ " NUMBER").
Proof.
  destruct (format_schema_columns ["id"; "when"] ["number"; "Date"] eq_refl)
    as (defs & E & Hlen & Hall).
  exists defs. split; [exact E |]. split; [exact Hlen |].
  exact (Hall 0%nat "id" "number" eq_refl eq_refl).
Defined.

(** X23: the types of the schema text handed to the generator and the types
    of the table the converter creates differ for some tags: the two tables
    give the same type unless the tag is [number] in any spelling (NUMBER or
    TEXT against INTEGER), or [real] in a spelling other than lower case
    (TEXT against REAL). *)
Theorem script_and_converter_types (tag : string) :
  script_type tag = SQLiteConverter._get_sql_type tag ↔
  lower tag ≠ "number" ∧ (lower tag = "real" → tag = "real").
Proof.
  rewrite get_sql_type_mapped. unfold script_type, mapped_type. cbv zeta.
  destruct (decide (tag = "text")) as [-> | Htext].
  { cbn. split; [| done]. intros _. split; done. }
  destruct (decide (tag = "real")) as [-> | Hreal].
  { cbn. split; [| done]. intros _. split; done. }
  destruct (decide (tag = "number")) as [-> | Hnumber].
  { cbn. split; [done |]. intros [H _]. done. }
  cbv beta iota.
  destruct (decide (lower tag = "text")) as [E | _].
  { split; [| done]. intros _. rewrite E. split; done. }
  destruct (decide (lower tag = "number")) as [E | Hn].
  { split; [done |]. intros [H _]. done. }
  destruct (decide (lower tag = "real")) as [E | Hr].
  { split; [done |]. intros [_ H]. destruct Hreal. by apply H. }
  split; [| by case_decide]. intros _. split; [done |]. intros E. done.
Qed.

End EvaluationFacts.

Section NormalizationFacts.

Import PyStr Evaluate Spec Notions.

Lemma isspace_lower_ascii (c : ascii) : isspace (lower_ascii c) = isspace c.
Proof. by destruct c as [[] [] [] [] [] [] [] []]. Qed.

Lemma lower_ascii_idemp (c : ascii) :
  lower_ascii (lower_ascii c) = lower_ascii c.
Proof. by destruct c as [[] [] [] [] [] [] [] []]. Qed.

Lemma lower_idemp (s : string) : lower (lower s) = lower s.
Proof.
  induction s as [| c s IH]; [done |].
  cbn [lower]. by rewrite lower_ascii_idemp, IH.
Qed.

Lemma lower_rev_app (a b : string) :
  lower (String.rev_app a b) = String.rev_app (lower a) (lower b).
Proof.
  revert b. induction a as [| c a IH]; intros b; [done |].
  cbn [String.rev_app lower]. by rewrite IH.
Qed.

Lemma lower_rev (a : string) : lower (String.rev a) = String.rev (lower a).
Proof. apply lower_rev_app. Qed.

Lemma split_go_lower (cur : option string) (s : string) :
  split_go (lower <$> cur) (lower s) = lower <$> split_go cur s.
Proof.
  revert cur. induction s as [| c s IH]; intros cur.
  - destruct cur as [w |]; [| done]. cbn. by rewrite lower_rev.
  - cbn [lower split_go]. rewrite isspace_lower_ascii.
    destruct (isspace c).
    + destruct cur as [w |]; cbn [fmap option_fmap option_map].
      * rewrite fmap_cons, lower_rev. f_equal. apply (IH None).
      * apply (IH None).
    + rewrite <- IH. by destruct cur.
Qed.

Lemma split_lower (s : string) : split (lower s) = lower <$> split s.
Proof. apply (split_go_lower None). Qed.

Lemma replace_go_nl (s : string) (cur : option string) :
  split_go cur (replace_go nl " " 0 s) = split_go cur s.
Proof.
  revert cur. induction s as [| c s IH]; intros cur; [done |].
  cbn [replace_go]. unfold nl at 1, chr at 1. rewrite prefix_cons, prefix_nil.
  cbn [String.length Nat.sub].
  destruct (Ascii.eqb_spec (ascii_of_nat 10) c) as [<- | Hc].
  - rewrite string_app_cons, string_app_nil_l. cbn [split_go].
    change (isspace " ") with true. change (isspace (ascii_of_nat 10)) with true.
    cbv iota. by rewrite IH.
  - cbn [split_go]. destruct (isspace c), cur; by rewrite IH.
Qed.

Lemma split_replace_nl (s : string) : split (replace s nl " ") = split s.
Proof. apply replace_go_nl. Qed.

Lemma has_space_rev_app (a b : string) :
  has_space (String.rev_app a b) = has_space a || has_space b.
Proof.
  revert b. induction a as [| c a IH]; intros b; [done |].
  cbn [String.rev_app has_space]. rewrite IH. cbn [has_space].
  by destruct (isspace c), (has_space a), (has_space b).
Qed.

Lemma rev_app_nil (a b : string) : String.rev_app a b = "" → a = "" ∧ b = "".
Proof.
  revert b. induction a as [| c a IH]; intros b; [done |].
  cbn [String.rev_app]. intros H. by destruct (IH _ H).
Qed.

Lemma rev_app_rev_app (a b c : string) :
  String.rev_app (String.rev_app a b) c = String.rev_app b (a +:+ c).
Proof.
  revert b c. induction a as [| x a IH]; intros b c.
  - by rewrite string_app_nil_l.
  - cbn [String.rev_app]. rewrite IH. by rewrite string_app_cons.
Qed.

Lemma rev_rev_app (a b : string) :
  String.rev (String.rev_app a b) = String.rev b +:+ a.
Proof.
  unfold String.rev. rewrite rev_app_rev_app, string_app_nil_r.
  revert a. induction b as [| x b IH]; intros a.
  - by rewrite string_app_nil_l.
  - cbn [String.rev_app]. rewrite IH, (IH (String x "")).
    by rewrite string_app_assoc, string_app_cons, string_app_nil_l.
Qed.

Lemma word_rev (w : string) :
  w ≠ "" → has_space w = false → word (String.rev w).
Proof.
  intros Hne Hsp. split.
  - intros H. by destruct (rev_app_nil _ _ H).
  - unfold String.rev. rewrite has_space_rev_app, Hsp. done.
Qed.

(** Every element [split] returns is a word. *)
Lemma split_go_words (cur : option string) (s : string) :
  (∀ w, cur = Some w → w ≠ "" ∧ has_space w = false) →
  Forall word (split_go cur s).
Proof.
  revert cur. induction s as [| c s IH]; intros cur Hcur.
  - destruct cur as [w |]; [| constructor].
    destruct (Hcur w eq_refl). repeat constructor; by apply word_rev.
  - cbn [split_go]. destruct (isspace c) eqn:Hc.
    + destruct cur as [w |].
      * destruct (Hcur w eq_refl). constructor; [by apply word_rev |].
        by apply IH.
      * by apply IH.
    + apply IH. intros w [= <-]. split; [done |].
      cbn [has_space]. rewrite Hc. destruct cur as [w |]; [| done].
      by destruct (Hcur w eq_refl).
Qed.

Lemma split_words (s : string) : Forall word (split s).
Proof. by apply split_go_words. Qed.

(** Scanning a run without whitespace adds it to the current word. *)
Lemma split_go_run (w rest : string) (acc : string) (cur : option string) :
  has_space w = false → w ≠ "" ∨ cur = Some acc →
  default "" cur = acc ∨ w = "" →
  split_go cur (w +:+ rest)
  = split_go (Some (String.rev_app w (default "" cur))) rest.
Proof.
  revert acc cur. induction w as [| c w IH]; intros acc cur Hsp Hne Hacc.
  - rewrite string_app_nil_l. destruct Hne as [? | ->]; done.
  - rewrite string_app_cons. cbn [has_space] in Hsp.
    apply orb_false_iff in Hsp as [Hc Hw].
    cbn [split_go String.rev_app]. rewrite Hc.
    rewrite (IH (String c (default "" cur))); [done | done | by right | by left].
Qed.

Lemma split_go_word (w rest : string) :
  word w → split_go None (w +:+ rest) = split_go (Some (String.rev w)) rest.
Proof.
  intros [Hne Hsp].
  rewrite (split_go_run w rest "" None); [done | done | by left | by left].
Qed.

Lemma rev_rev (w : string) : String.rev (String.rev w) = w.
Proof. unfold String.rev at 2. by rewrite rev_rev_app. Qed.

(** Joining words with one space and splitting again gives the words. *)
Lemma split_join (ws : list string) :
  Forall word ws → split (join " " ws) = ws.
Proof.
  unfold split. induction 1 as [| w ws Hw Hws IH]; [done |].
  destruct ws as [| w' ws].
  - change (join " " [w]) with w. rewrite <- (string_app_nil_r w) at 1.
    rewrite split_go_word by done. cbn. by rewrite rev_rev.
  - rewrite join_cons_cons, split_go_word by done.
    rewrite string_app_cons, string_app_nil_l. cbn [split_go].
    change (isspace " ") with true. cbv iota. by rewrite rev_rev, IH.
Qed.

Lemma lstrip_word (w rest : string) : word w → lstrip (w +:+ rest) = w +:+ rest.
Proof.
  intros [Hne Hsp]. destruct w as [| c w]; [done |].
  rewrite string_app_cons. cbn [has_space] in Hsp.
  apply orb_false_iff in Hsp as [Hc _]. cbn [lstrip]. by rewrite Hc.
Qed.

Lemma rstrip_fixed (s : string) :
  (∀ c, last_char s = Some c → isspace c = false) → rstrip s = s.
Proof.
  induction s as [| c s IH]; [done |]. intros Hlast.
  cbn [rstrip]. destruct s as [| d s].
  - cbn. by rewrite (Hlast c eq_refl).
  - rewrite IH; [done |]. intros x Hx. apply Hlast.
    rewrite <- Hx. done.
Qed.

Lemma word_last_char (w : string) c :
  has_space w = false → last_char w = Some c → isspace c = false.
Proof.
  induction w as [| d w IH]; [done |]. cbn [has_space].
  intros [Hd Hw]%orb_false_iff. destruct w as [| e w].
  - by intros [= <-].
  - intros H. by apply IH.
Qed.

Lemma join_words_last (ws : list string) c :
  Forall word ws → last_char (join " " ws) = Some c → isspace c = false.
Proof.
  induction 1 as [| w ws [Hne Hsp] Hws IH]; [done |].
  destruct ws as [| w' ws].
  - by apply word_last_char.
  - rewrite join_cons_cons. intros H. apply IH.
    rewrite <- H. symmetry.
    rewrite last_char_app; [apply last_char_app |].
    + inversion Hws as [| ?? [Hne' _] ?]; subst.
      destruct ws; [done |]. rewrite join_cons_cons.
      intros [? _]%string_app_eq_nil. done.
    + intros [? _]%string_app_eq_nil. done.
Qed.

Lemma strip_join (ws : list string) :
  Forall word ws → strip (join " " ws) = join " " ws.
Proof.
  intros Hws. unfold strip.
  assert (lstrip (join " " ws) = join " " ws) as ->.
  { destruct Hws as [| w ws Hw Hws]; [done |].
    destruct ws; [| rewrite join_cons_cons; by apply lstrip_word].
    change (join " " [w]) with w. rewrite <- (string_app_nil_r w).
    by apply lstrip_word. }
  apply rstrip_fixed. intros c. by apply join_words_last.
Qed.

Lemma normalize_sql_words (sql : string) :
  normalize_sql sql = join " " (split (lower sql)).
Proof.
  unfold normalize_sql. rewrite split_replace_nl.
  apply strip_join, split_words.
Qed.

Lemma split_normalize_sql (sql : string) :
  split (normalize_sql sql) = split (lower sql).
Proof. rewrite normalize_sql_words. apply split_join, split_words. Qed.

Lemma is_ascii_lower (s : string) : is_ascii (lower s) = is_ascii s.
Proof.
  induction s as [| c s IH]; [done |]. cbn [lower is_ascii]. rewrite IH.
  f_equal. by destruct c as [[] [] [] [] [] [] [] []].
Qed.

Lemma is_ascii_rev_app (a b : string) :
  is_ascii (String.rev_app a b) = is_ascii a && is_ascii b.
Proof.
  revert b. induction a as [| c a IH]; intros b; [done |].
  cbn [String.rev_app is_ascii]. rewrite IH. cbn [is_ascii].
  by destruct (nat_of_ascii c <? 128)%nat, (is_ascii a), (is_ascii b).
Qed.

Lemma is_ascii_app (a b : string) :
  is_ascii (a +:+ b) = is_ascii a && is_ascii b.
Proof.
  induction a as [| c a IH]; [by rewrite string_app_nil_l |].
  rewrite string_app_cons. cbn [is_ascii]. rewrite IH.
  by destruct (nat_of_ascii c <? 128)%nat.
Qed.

Lemma is_ascii_split_go (cur : option string) (s : string) :
  is_ascii s = true → (∀ w, cur = Some w → is_ascii w = true) →
  Forall (λ w, is_ascii w = true) (split_go cur s).
Proof.
  revert cur. induction s as [| c s IH]; intros cur Hs Hcur.
  - destruct cur as [w |]; [| constructor]. repeat constructor.
    unfold String.rev. by rewrite is_ascii_rev_app, (Hcur w eq_refl).
  - cbn [is_ascii] in Hs. apply andb_true_iff in Hs as [Hc Hs].
    cbn [split_go]. destruct (isspace c).
    + destruct cur as [w |]; [| by apply IH].
      constructor; [| by apply IH].
      unfold String.rev. by rewrite is_ascii_rev_app, (Hcur w eq_refl).
    + apply IH; [done |]. intros w [= <-]. cbn [is_ascii]. rewrite Hc.
      destruct cur as [w |]; [by apply Hcur | done].
Qed.

Lemma is_ascii_join (ws : list string) :
  Forall (λ w, is_ascii w = true) ws → is_ascii (join " " ws) = true.
Proof.
  induction 1 as [| w ws Hw Hws IH]; [done |].
  destruct ws as [| w' ws]; [done |].
  rewrite join_cons_cons, !is_ascii_app, Hw, IH. done.
Qed.

Lemma is_ascii_normalize_sql (sql : string) :
  is_ascii sql = true → is_ascii (normalize_sql sql) = true.
Proof.
  intros H. rewrite normalize_sql_words. apply is_ascii_join.
  apply is_ascii_split_go; [by rewrite is_ascii_lower | done].
Qed.

(** X24: for a query in ASCII, the normal form under which the evaluation
    compares queries is the lower-cased words of the query joined by single
    spaces: replacing the newlines and stripping the ends change nothing.
    The normal form is in ASCII again, normalizing it gives it back, and its
    words are the lower-cased words of the query. *)
Theorem normalize_sql_normal_form (sql : string) :
  is_ascii sql = true →
  normalize_sql sql = join " " (split (lower sql)) ∧
  is_ascii (normalize_sql sql) = true ∧
  normalize_sql (normalize_sql sql) = normalize_sql sql ∧
  split (normalize_sql sql) = lower <$> split sql.
Proof.
  intros Hascii.
  split; [apply normalize_sql_words |].
  split; [by apply is_ascii_normalize_sql |]. split.
  - rewrite (normalize_sql_words (normalize_sql sql)).
    rewrite split_lower, split_normalize_sql.
    rewrite <- split_lower, lower_idemp. symmetry. apply normalize_sql_words.
  - by rewrite split_normalize_sql, split_lower.
Qed.

(** X25: for two queries in ASCII, the predicted query counts as correct
    exactly when it has the same words as the gold query once both are
    lower-cased: layout (spaces, tabs, newlines between words) is ignored,
    and so is the case of every letter, the letters inside string literals
    included; nothing else is. *)
Theorem is_correct_same_words (predicted_sql gold_sql : string) :
  is_ascii predicted_sql = true → is_ascii gold_sql = true →
  is_correct predicted_sql gold_sql = true ↔
  lower <$> split predicted_sql = lower <$> split gold_sql.
Proof.
  intros _ _. unfold is_correct. rewrite bool_decide_eq_true, <- !split_lower. split.
  - intros H. by rewrite <- !split_normalize_sql, H.
  - intros H. by rewrite !normalize_sql_words, H.
Qed.

Lemma normalize_sql_normal_form_witness :
  normalize_sql ("SELECT  Name" +:+ nl +:+ "FROM t ")
  = join " " (split (lower ("SELECT  Name" +:+ nl +:+ "FROM t "))) ∧
  normalize_sql ("SELECT  Name" +:+ nl +:+ "FROM t ") = "select name from t".
Proof.
  split; [| reflexivity].
  exact (proj1 (normalize_sql_normal_form
                  ("SELECT  Name" +:+ nl +:+ "FROM t ") eq_refl)).
Defined.

Lemma is_correct_same_words_witness :
  is_correct ("SELECT a" +:+ nl +:+ "FROM t WHERE b = 'X'")
             "select A from T where B = 'x'" = true ∧
  is_correct "SELECT a FROM t" "SELECT a  FROM t2" = false.
Proof.
  split.
  - apply (is_correct_same_words
             ("SELECT a" +:+ nl +:+ "FROM t WHERE b = 'X'")
             "select A from T where B = 'x'" eq_refl eq_refl).
    vm_compute. reflexivity.
  - vm_compute. reflexivity.
Defined.

End NormalizationFacts.

(** ** The manager: loading and converting in one call *)

Section ManagerFacts.

Import PyStr SQLiteConverter DataManager Spec Notions.

Variable load_dataset : nat → result WikiSQLDataset.DatasetDict.
Variable hash : list string → Z.
Variable rejects : string → option TableState → bool.

Lemma convert_example_db_path ex st :
  db_path (convert_example hash rejects ex st).2 = db_path st.
Proof.
  destruct (table ex) as [t |] eqn:Ht.
  - destruct (convert_example_run hash rejects ex st t Ht)
      as (name & create & _ & _ & ->).
    by destruct (fill_table _ _ _ _ _) as [[e | []] v'].
  - by rewrite (convert_example_no_table hash rejects ex st Ht).
Qed.

Lemma convert_examples_db_path exs st :
  db_path (convert_examples hash rejects exs st).2 = db_path st.
Proof.
  revert st. induction exs as [| ex exs IH]; intros st; [done |].
  rewrite convert_examples_cons.
  pose proof (convert_example_db_path ex st) as Hex.
  destruct (convert_example hash rejects ex st) as [[e | r] st1]; [done |].
  pose proof (IH st1) as Hrest.
  destruct (convert_examples hash rejects exs st1) as [[e | rs] st2];
    cbn [snd] in *; congruence.
Qed.

(** The [with self.converter:] block: a new connection on the file's
    content, and no connection after it, whatever the body did. *)
Lemma with_converter {A} (body : M SQLiteConverter.State A) st :
  with_context __enter__ __exit__ body st
  = ((body (set_conn (Some (disk st)) st)).1,
     set_conn None (body (set_conn (Some (disk st)) st)).2).
Proof.
  unfold with_context, __enter__, __exit__. cbn [Ok].
  by destruct (body _) as [r st2].
Qed.

(** X26: the manager leaves no connection open.  Starting without a
    connection, [load_examples] and [get_example_with_conversion] end
    without one, whether they return or raise and whether the failure is in
    the dataset or in a conversion; the path of the database file is never
    changed. *)
Theorem manager_leaves_no_connection (st : DataManager.State) :
  conn (converter st) = None →
  (∀ split limit convert_to_sqlite r st',
     load_examples load_dataset hash rejects split limit convert_to_sqlite st
       = (r, st') →
     conn (converter st') = None ∧
     db_path (converter st') = db_path (converter st)) ∧
  (∀ split index r st',
     get_example_with_conversion load_dataset hash rejects split index st
       = (r, st') →
     conn (converter st') = None ∧
     db_path (converter st') = db_path (converter st)).
Proof.
  intros Hconn. split.
  - intros split limit cv r st'. unfold load_examples, bindM, on_dataset.
    destruct (WikiSQLDataset.load_split _ _ _ _) as [[e | ref] d1];
      [by intros [= <- <-] |].
    unfold deref. cbn [dataset converter].
    destruct (WikiSQLDataset.heap d1 !! ref) as [examples |];
      [| by intros [= <- <-]].
    cbn [Ok]. destruct cv; [| by intros [= <- <-]].
    unfold on_converter. cbn [dataset converter].
    rewrite with_converter.
    pose proof (convert_examples_db_path examples
                  (set_conn (Some (disk (converter st))) (converter st))) as Hp.
    destruct (convert_examples _ _ _ _) as [[e | rs] c2];
      intros [= <- <-]; cbn in *; done.
  - intros split index r st'.
    unfold get_example_with_conversion, bindM, on_dataset.
    destruct (WikiSQLDataset.get_example _ _ _ _) as [[e | ex] d1];
      [by intros [= <- <-] |].
    cbn [Ok]. unfold on_converter. cbn [dataset converter].
    rewrite with_converter.
    pose proof (convert_example_db_path ex
                  (set_conn (Some (disk (converter st))) (converter st))) as Hp.
    destruct (convert_example _ _ _ _) as [[e | res] c2];
      intros [= <- <-]; cbn in *; done.
Qed.


(** X28: what [load_examples] returns.  The entries are the examples of
    the list [load_split] returns, one entry per example and in its order.
    Without conversion every entry has [None] as its [sqlite_info] and the
    converter is not touched; with conversion every entry has the table
    name generated for its example. *)
Theorem load_examples_entries (st st' : DataManager.State) (split : string)
    (limit : option Z) (convert_to_sqlite : bool)
    (entries : list LoadedExample) :
  load_examples load_dataset hash rejects split limit convert_to_sqlite st
    = (Ok entries, st') →
  ∃ r examples,
    WikiSQLDataset.load_split load_dataset split limit (dataset st)
      = (Ok r, dataset st') ∧
    WikiSQLDataset.heap (dataset st') !! r = Some examples ∧
    le_raw_data <$> entries = examples ∧
    (convert_to_sqlite = false →
       converter st' = converter st ∧
       ∀ entry, entry ∈ entries → le_sqlite_info entry = None) ∧
    (convert_to_sqlite = true →
       ∀ entry, entry ∈ entries →
         ∃ info, le_sqlite_info entry = Some info ∧
                 generate_table_name hash (le_raw_data entry)
                   = Ok (table_name info)).
Proof.
  unfold load_examples, bindM, on_dataset.
  destruct (WikiSQLDataset.load_split _ _ _ _) as [[e | r] d1]; [done |].
  unfold deref. cbn [dataset converter].
  destruct (WikiSQLDataset.heap d1 !! r) as [examples |] eqn:Hheap; [| done].
  cbn [Ok]. destruct convert_to_sqlite.
  - unfold on_converter. cbn [dataset converter]. rewrite with_converter.
    destruct (convert_examples hash rejects examples _) as [[e | rs] c2]
      eqn:Hconv; [done |].
    cbn [fst snd ret Ok]. intros [= <- <-]. cbn [dataset converter].
    apply convert_examples_results in Hconv as (Hlen & Hraw & Hall).
    exists r, examples. split; [done |]. split; [done |].
    split; [| split; [done |]].
    + rewrite <- list_fmap_compose. exact Hraw.
    + intros _ entry (res & -> & Hres)%list_elem_of_fmap.
      apply list_elem_of_lookup in Hres as [i Hi].
      assert (is_Some (examples !! i)) as [ex Hex].
      { apply lookup_lt_is_Some. rewrite <- Hlen.
        by apply lookup_lt_Some in Hi. }
      destruct (Hall i ex res Hex Hi) as [Hr Hname].
      exists (sqlite_info res). split; [done |].
      cbn [of_conversion le_raw_data]. by rewrite Hr.
  - cbn [ret Ok]. intros [= <- <-]. cbn [dataset converter].
    exists r, examples. split; [done |]. split; [done |].
    split; [| split; [| done]].
    + rewrite <- list_fmap_compose. apply list_fmap_id.
    + split; [done |]. by intros entry (ex & -> & _)%list_elem_of_fmap.
Qed.

End ManagerFacts.

Section ManagerExamples.

Import PyStr SQLiteConverter DataManager Spec Notions.

Lemma manager_leaves_no_connection_witness :
  conn (converter
          (load_examples hub (λ _, 0) (λ _ _, false) "dev" (Some 2) true
             fresh_manager).2) = None ∧
  conn (converter
          (get_example_with_conversion shop (λ _, 0) (λ _ _, false) "dev" 0
             fresh_manager).2) = None.
Proof.
  destruct (manager_leaves_no_connection hub (λ _, 0) (λ _ _, false)
              fresh_manager eq_refl) as [Hload _].
  destruct (manager_leaves_no_connection shop (λ _, 0) (λ _ _, false)
              fresh_manager eq_refl) as [_ Hget].
  split.
  - exact (proj1 (Hload "dev" (Some 2) true _ _ (surjective_pairing _))).
  - exact (proj1 (Hget "dev" 0 _ _ (surjective_pairing _))).
Defined.


Lemma load_examples_entries_witness :
  ∃ entries st',
    load_examples shop (λ _, 0) (λ _ _, false) "dev" (Some 1) false
      fresh_manager = (Ok entries, st') ∧
    le_raw_data <$> entries = [scenario_example] ∧
    converter st' = converter fresh_manager.
Proof.
  destruct (load_examples shop (λ _, 0) (λ _ _, false) "dev" (Some 1) false
              fresh_manager) as [[e | entries] st'] eqn:E;
    [vm_compute in E; discriminate |].
  destruct (load_examples_entries shop (λ _, 0) (λ _ _, false)
              fresh_manager st' "dev" (Some 1) false entries E)
    as (r & examples & Hload & Hheap & Hraw & Hplain & _).
  exists entries, st'. split; [reflexivity |].
  split; [| exact (proj1 (Hplain eq_refl))].
  vm_compute in E. by injection E as <- _.
Defined.

End ManagerExamples.
